(** * Catchpoint tracker of go-algorand: a shallow embedding and its properties

    The development follows [ledger/catchpointtracker.go].  Go's fixed-width
    integers are integers of [Z] with their wrap-around written out, the
    tracker database and the file system are finite maps, and every call
    that can fail in the source can fail here. *)

From stdpp Require Import base option list gmap strings sorting pretty.
From Stdlib Require Import ZArith Lia.

Local Open Scope Z_scope.

(** ** Go's 64-bit integers *)

Module Go.

(** [uint64] arithmetic wraps modulo [2^64]. *)
Definition uint64 (z : Z) : Z := z mod 2 ^ 64.

(** [int64(x)] reinterprets the low 64 bits in two's complement, and signed
    arithmetic wraps the same way. *)
Definition int64 (z : Z) : Z := (z + 2 ^ 63) mod 2 ^ 64 - 2 ^ 63.

Definition u64_add (a b : Z) : Z := uint64 (a + b).
Definition u64_sub (a b : Z) : Z := uint64 (a - b).
Definition u64_mul (a b : Z) : Z := uint64 (a * b).
(** Unsigned division; the caller checks the divisor. *)
Definition u64_div (a b : Z) : Z := a / b.

Definition i64_add (a b : Z) : Z := int64 (a + b).
Definition i64_sub (a b : Z) : Z := int64 (a - b).
Definition i64_mul (a b : Z) : Z := int64 (a * b).
(** Signed division truncates toward zero; [MinInt64 / -1] wraps. *)
Definition i64_quot (a b : Z) : Z := int64 (Z.quot a b).

Definition is_uint64 (z : Z) : Prop := 0 <= z < 2 ^ 64.

End Go.

(** What a call of a Go function can do: return, panic at run time (an integer
    division by zero, an index out of range), or still be running when the
    fuel given to a loop is used up. *)
Inductive outcome (A : Type) : Type :=
| Returns (a : A)
| Panics
| OutOfFuel.
Arguments Returns {A} a.
Arguments Panics {A}.
Arguments OutOfFuel {A}.

(** ** The scheduler: which rounds of a commit range are catchpoint rounds *)

Module Scheduler.
Import Go.

(** [calculateFirstStageRounds], lines 462-498.  The result is
    [(hasIntermediateFirstStageRound,
      hasMultipleIntermediateFirstStageRounds, newOffset)]. *)
Definition calculateFirstStageRounds
    (oldBase offset reenableCatchpointsRound catchpointInterval catchpointLookback : Z)
    : outcome (bool * bool * Z) :=
  let newOffset := offset in
  if reenableCatchpointsRound =? 0 then Returns (false, false, newOffset)
  else
    let minFirstStageRound := u64_add oldBase 1 in
    let minFirstStageRound :=
      if (reenableCatchpointsRound >? catchpointLookback)
         && (u64_sub reenableCatchpointsRound catchpointLookback >? minFirstStageRound)
      then u64_sub reenableCatchpointsRound catchpointLookback
      else minFirstStageRound in
    if int64 catchpointInterval =? 0 then Panics
    else
      let first :=
        i64_sub
          (i64_mul
             (i64_quot
                (i64_sub
                   (i64_add (i64_add (int64 minFirstStageRound) (int64 catchpointLookback))
                            (int64 catchpointInterval))
                   1)
                (int64 catchpointInterval))
             (int64 catchpointInterval))
          (int64 catchpointLookback) in
      let last :=
        i64_sub
          (i64_mul
             (i64_quot
                (i64_add (i64_add (int64 oldBase) (int64 offset)) (int64 catchpointLookback))
                (int64 catchpointInterval))
             (int64 catchpointInterval))
          (int64 catchpointLookback) in
      if first <=? last then
        let newOffset := u64_sub (uint64 last) (uint64 oldBase) in
        if first <? last then Returns (true, true, newOffset)
        else Returns (true, false, newOffset)
      else Returns (false, false, newOffset).

(** The loop of [calculateCatchpointRounds], lines 952-955:
    [for i := l; i <= r; i++ { res = append(res, i * catchpointInterval) }]. *)
Fixpoint calculateCatchpointRounds_loop
    (fuel : nat) (i r catchpointInterval : Z) (res : list Z) : outcome (list Z) :=
  match fuel with
  | O => OutOfFuel
  | S fuel' =>
      if i <=? r then
        let round := u64_mul i catchpointInterval in
        calculateCatchpointRounds_loop fuel' (u64_add i 1) r catchpointInterval
                                       (res ++ [round])
      else Returns res
  end.

(** [calculateCatchpointRounds], lines 938-958.  A [nil] slice and an empty
    one are the same list.  The division by an interval of 0 panics, and so
    does [make([]basics.Round, 0, r-l+1)], line 951, when the capacity
    [r-l+1] does not fit an [int] (makeslice: cap out of range). *)
Definition calculateCatchpointRounds
    (fuel : nat) (min max catchpointInterval : Z) : outcome (list Z) :=
  if catchpointInterval =? 0 then Panics
  else
    let l := u64_div (u64_sub (u64_add min catchpointInterval) 1) catchpointInterval in
    let r := u64_div max catchpointInterval in
    if l >? r then Returns []
    else if u64_add (u64_sub r l) 1 >? 2 ^ 63 - 1 then Panics
    else calculateCatchpointRounds_loop fuel l r catchpointInterval [].

End Scheduler.

(** ** Errors, and computations that thread a state and may fail *)

(** The [error] values that the tracker tells apart, and what stands for the
    rest.  A run-time panic unwinds through every caller (nothing recovers in
    this code), so it travels the same way. *)
Inductive error : Type :=
| ErrNoEntry                 (* ledgercore.ErrNoEntry{} *)
| ErrNoRows                  (* sql.ErrNoRows *)
| ErrNotExist                (* os.ErrNotExist *)
| EOF                        (* io.EOF *)
| ErrUnexpectedEOF           (* io.ErrUnexpectedEOF *)
| ErrShortBuffer             (* io.ErrShortBuffer *)
| ErrWriteTooLong            (* tar.ErrWriteTooLong *)
| ErrFault (op : string)     (* the external call [op] failed *)
| Errorf (msg : string)      (* fmt.Errorf(msg, ...) *)
| Panicked (msg : string)
| Unfinished.                (* a loop of the model ran out of fuel *)

Global Instance error_eq_dec : EqDecision error.
Proof. solve_decision. Defined.

Inductive res (A : Type) : Type :=
| Ok (a : A)
| Err (e : error).
Arguments Ok {A} a.
Arguments Err {A} e.

(** [ST S A]: a Go function with side effects on [S] that returns an [A] or
    an [error].  The state after a failed call is kept: what was written
    before the failure stays written. *)
Definition ST (S A : Type) : Type := S -> S * res A.

Definition ret {S A} (a : A) : ST S A := fun s => (s, Ok a).
Definition fail {S A} (e : error) : ST S A := fun s => (s, Err e).
Definition bind {S A B} (m : ST S A) (k : A -> ST S B) : ST S B :=
  fun s => match m s with
           | (s', Ok a) => k a s'
           | (s', Err e) => (s', Err e)
           end.
(** [err := f(); if err != nil { ... }]: the error as a value.  A panic is
    not an error value and goes on unwinding. *)
Definition is_panic (e : error) : bool :=
  match e with
  | Panicked _ | Unfinished => true
  | _ => false
  end.
Definition try {S A} (m : ST S A) : ST S (res A) :=
  fun s => match m s with
           | (s', Ok a) => (s', Ok (Ok a))
           | (s', Err e) => if is_panic e then (s', Err e) else (s', Ok (Err e))
           end.
Definition get {S} : ST S S := fun s => (s, Ok s).
Definition gets {S A} (f : S -> A) : ST S A := fun s => (s, Ok (f s)).
Definition modify {S} (f : S -> S) : ST S unit := fun s => (f s, Ok tt).

Notation "'let*' x ':=' m 'in' k" := (bind m (fun x => k))
  (at level 10, x pattern, m at level 100, k at level 200).
Notation "m ';;' k" := (bind m (fun _ => k))
  (at level 100, k at level 200, right associativity).

(** External calls fail when the environment says so: the state carries a
    schedule of faults, one entry for each fallible external call in the
    order the calls are made ([true]: this call fails); past the end of the
    schedule calls succeed. *)
Class HasFaults (S : Type) := {
  faults : S -> list bool;
  set_faults : list bool -> S -> S;
}.

Definition external {S} `{HasFaults S} (op : string) : ST S unit :=
  fun s => match faults s with
           | [] => (s, Ok tt)
           | false :: rest => (set_faults rest s, Ok tt)
           | true :: rest => (set_faults rest s, Err (ErrFault op))
           end.

(** ** Byte strings *)

Abbreviation byte := Byte.byte.
Global Instance byte_eq_dec : EqDecision byte.
Proof.
  intros x y. destruct (Byte.eqb x y) eqn:E.
  - left. apply Byte.byte_dec_bl. exact E.
  - right. intros ->. rewrite Byte.byte_dec_lb in E by reflexivity. discriminate.
Defined.

(** [b[:n]] and [len(b)] of a slice. *)
Definition slice_to (n : Z) (b : list byte) : list byte := take (Z.to_nat n) b.
Definition len {A} (l : list A) : Z := Z.of_nat (length l).

(** ** Tar streams ([archive/tar], as far as the repacker uses it) *)

Record TarHeader : Type := {
  Name : string;
  Mode : Z;
  Size : Z;      (* the declared size of the entry, an [int64] *)
}.

(** An entry of a stream: its header, and the bytes that reading the entry
    yields.  In a well-formed entry there are [Size] of them. *)
Record TarEntry : Type := {
  entry_header : TarHeader;
  entry_data : list byte;
}.

Definition entry_well_formed (e : TarEntry) : Prop :=
  len (entry_data e) = Size (entry_header e).

Global Instance TarHeader_eq_dec : EqDecision TarHeader.
Proof. solve_decision. Defined.
Global Instance TarEntry_eq_dec : EqDecision TarEntry.
Proof. solve_decision. Defined.

(** A [*tar.Reader]: the entries not yet reached, the unread bytes of the
    current entry, and how the stream ends ([None]: with [io.EOF]). *)
Record TarReader : Type := {
  upcoming : list TarEntry;
  unread : list byte;
  stream_end : option error;
}.

(** A [*tar.Writer]: the entries written so far, the last one still open. *)
Record TarWriter : Type := {
  written : list TarEntry;
}.

(** The state of a repacking run: the two streams, and the faults of the
    context and of the output. *)
Record RepackIO : Type := {
  tin : TarReader;
  tout : TarWriter;
  io_faults : list bool;
}.

Global Instance RepackIO_faults : HasFaults RepackIO := {|
  faults := io_faults;
  set_faults f s := {| tin := tin s; tout := tout s; io_faults := f |};
|}.

Module Tar.

(** [in.Next()]: advance to the next entry, whatever is unread of the
    current one. *)
Definition Next : ST RepackIO TarHeader :=
  fun s =>
    match upcoming (tin s) with
    | e :: rest =>
        ({| tin := {| upcoming := rest; unread := entry_data e;
                      stream_end := stream_end (tin s) |};
            tout := tout s; io_faults := io_faults s |},
         Ok (entry_header e))
    | [] =>
        (s, Err (default EOF (stream_end (tin s))))
    end.

(** [in.Read(b)] for a [b] of length [n]: as many bytes as fit, with
    [io.EOF] once the entry is exhausted. *)
Definition Read (n : Z) : ST RepackIO (list byte * option error) :=
  fun s =>
    let d := unread (tin s) in
    let k := Z.min n (len d) in
    let rest := drop (Z.to_nat k) d in
    ({| tin := {| upcoming := upcoming (tin s); unread := rest;
                  stream_end := stream_end (tin s) |};
        tout := tout s; io_faults := io_faults s |},
     Ok (take (Z.to_nat k) d,
         match rest with [] => Some EOF | _ => None end)).

(** [out.WriteHeader(h)]: open a new entry. *)
Definition WriteHeader (h : TarHeader) : ST RepackIO unit :=
  external "tar.Writer.WriteHeader";;
  modify (fun s =>
    {| tin := tin s;
       tout := {| written := written (tout s)
                             ++ [ {| entry_header := h; entry_data := [] |} ] |};
       io_faults := io_faults s |}).

(** [out.Write(b)]: append to the open entry, at most up to its size. *)
Definition Write (b : list byte) : ST RepackIO Z :=
  external "tar.Writer.Write";;
  let* s := get in
  match reverse (written (tout s)) with
  | [] => fail ErrWriteTooLong
  | e :: before =>
      if len (entry_data e) + len b >? Size (entry_header e)
      then fail ErrWriteTooLong
      else
        modify (fun s =>
          {| tin := tin s;
             tout := {| written :=
                          reverse before
                          ++ [ {| entry_header := entry_header e;
                                  entry_data := entry_data e ++ b |} ] |};
             io_faults := io_faults s |});;
        ret (len b)
  end.

End Tar.

(** [io.ReadAtLeast(in, buf, min)]: the result is [(n, buf, err)].
    [Tar.Read] delivers what is left of an entry in one call, so the loop
    [for n < min && err == nil] runs at most once. *)
Definition ReadAtLeast (buf : list byte) (min : Z)
    : ST RepackIO (Z * list byte * option error) :=
  if len buf <? min then ret (0, buf, Some ErrShortBuffer)
  else if 0 <? min then
    let* (got, err) := Tar.Read (len buf) in
    let n := len got in
    let buf := got ++ drop (length got) buf in
    if n >=? min then ret (n, buf, None)
    else match err with
         | Some EOF => ret (n, buf, Some (if 0 <? n then ErrUnexpectedEOF else EOF))
         | _ => ret (n, buf, err)
         end
  else ret (0, buf, None).

(** ** Records of the catchpoint file *)

(** [crypto.Digest]: 32 bytes, as a 256-bit integer. *)
Definition Digest : Type := Z.
(** [ledgercore.AccountTotals]: opaque to the tracker. *)
Definition AccountTotals : Type := Z.

(** The file versions, lines 75-86; the source writes them in octal. *)
Definition CatchpointFileVersionV5 : Z := 128.  (* uint64(0200) *)
Definition CatchpointFileVersionV6 : Z := 129.  (* uint64(0201) *)
Definition CatchpointFileVersionV7 : Z := 130.  (* uint64(0202) *)
Definition CatchpointFileVersionV8 : Z := 131.  (* uint64(0203) *)

Definition CatchpointContentFileName : string := "content.msgpack".
Definition catchpointSPVerificationFileName : string :=
  "stateProofVerificationContext.msgpack".

Record CatchpointFileHeader : Type := {
  Version : Z;
  BalancesRound : Z;
  BlocksRound : Z;
  Totals : AccountTotals;
  TotalAccounts : Z;
  TotalKVs : Z;
  TotalOnlineAccounts : Z;
  TotalOnlineRoundParams : Z;
  TotalChunks : Z;
  Catchpoint : string;
  BlockHeaderDigest : Digest;
}.

(** ** The repacker *)

Section Repacker.

(** [protocol.Encode(&header)], the canonical encoding of the project. *)
Variable Encode : CatchpointFileHeader -> list byte.

(** The [for] loop of [doRepackCatchpoint], lines 697-728.  Every turn
    either returns or takes one entry off the input, so [fuel] above the
    number of entries is never used up. *)
Fixpoint doRepackCatchpoint_loop (fuel : nat) (buf : list byte) : ST RepackIO unit :=
  match fuel with
  | O => fail Unfinished
  | S fuel' =>
      external "ctx.Err";;
      let* next := try Tar.Next in
      match next with
      | Err e => if decide (e = EOF) then ret tt else fail e
      | Ok header =>
          let* (n, buf, err) := ReadAtLeast buf (Size header) in
          match err with
          | Some e => if decide (e = EOF) then ret tt else fail e
          | None => ret tt
          end;;
          if negb (n =? Size header)   (* should not happen *)
          then fail (Errorf "read too many bytes from chunk")
          else
            Tar.WriteHeader header;;
            Tar.Write (slice_to (Size header) buf);;
            doRepackCatchpoint_loop fuel' buf
      end
  end.

(** [doRepackCatchpoint], lines 678-729. *)
Definition doRepackCatchpoint (header : CatchpointFileHeader) (biggestChunkLen : Z)
    : ST RepackIO unit :=
  let bytes := Encode header in
  Tar.WriteHeader {| Name := CatchpointContentFileName;
                     Mode := 384 (* 0600 *);
                     Size := len bytes |};;
  Tar.Write bytes;;
  if biggestChunkLen >? 2 ^ 63 - 1
  then fail (Panicked "makeslice: len out of range")
  else
    let buf := replicate (Z.to_nat biggestChunkLen) Byte.x00 in
    let* s := get in
    doRepackCatchpoint_loop (S (length (upcoming (tin s)))) buf.

End Repacker.

(** ** The tracker database ([ledger/store/trackerdb]) *)

Module trackerdb.

Definition CatchpointDirName : string := "catchpoints".

(** The string-addressed slots of the catchpoint state. *)
Definition CatchpointStateLastCatchpoint : string := "LastCatchpoint".
Definition CatchpointStateWritingFirstStageInfo : string := "WritingFirstStageInfo".
Definition CatchpointStateCatchpointLookback : string := "CatchpointLookback".

Record CatchpointFirstStageInfo : Type := {
  Totals : AccountTotals;
  TotalAccounts : Z;
  TotalKVs : Z;
  TotalOnlineAccounts : Z;
  TotalOnlineRoundParams : Z;
  TotalChunks : Z;
  BiggestChunkLen : Z;
  TrieBalancesHash : Digest;
  StateProofVerificationHash : Digest;
  OnlineAccountsHash : Digest;
  OnlineRoundParamsHash : Digest;
}.

(** The tables the tracker reads and writes.  [catchpointFiles] is the
    registry of stored catchpoint files: round to file name and size. *)
Record Store : Type := {
  catchpointStateUint64 : gmap string Z;
  catchpointStateString : gmap string string;
  firstStageInfo : gmap Z CatchpointFirstStageInfo;
  unfinishedCatchpoints : gmap Z Digest;
  catchpointFiles : gmap Z (string * Z);
  accountsTotals : AccountTotals;
  spContexts : list byte;
  onlineAccounts : list byte;
  onlineRoundParams : list byte;
  merkleTrie : gset Digest;     (* the committed pages of the trie *)
}.

Definition set_catchpointStateUint64 (f : gmap string Z -> gmap string Z) (d : Store) : Store :=
  {| catchpointStateUint64 := f (catchpointStateUint64 d);
     catchpointStateString := catchpointStateString d;
     firstStageInfo := firstStageInfo d;
     unfinishedCatchpoints := unfinishedCatchpoints d;
     catchpointFiles := catchpointFiles d;
     accountsTotals := accountsTotals d;
     spContexts := spContexts d;
     onlineAccounts := onlineAccounts d;
     onlineRoundParams := onlineRoundParams d;
     merkleTrie := merkleTrie d |}.

Definition set_catchpointStateString (f : gmap string string -> gmap string string)
    (d : Store) : Store :=
  {| catchpointStateUint64 := catchpointStateUint64 d;
     catchpointStateString := f (catchpointStateString d);
     firstStageInfo := firstStageInfo d;
     unfinishedCatchpoints := unfinishedCatchpoints d;
     catchpointFiles := catchpointFiles d;
     accountsTotals := accountsTotals d;
     spContexts := spContexts d;
     onlineAccounts := onlineAccounts d;
     onlineRoundParams := onlineRoundParams d;
     merkleTrie := merkleTrie d |}.

Definition set_firstStageInfo
    (f : gmap Z CatchpointFirstStageInfo -> gmap Z CatchpointFirstStageInfo)
    (d : Store) : Store :=
  {| catchpointStateUint64 := catchpointStateUint64 d;
     catchpointStateString := catchpointStateString d;
     firstStageInfo := f (firstStageInfo d);
     unfinishedCatchpoints := unfinishedCatchpoints d;
     catchpointFiles := catchpointFiles d;
     accountsTotals := accountsTotals d;
     spContexts := spContexts d;
     onlineAccounts := onlineAccounts d;
     onlineRoundParams := onlineRoundParams d;
     merkleTrie := merkleTrie d |}.

Definition set_unfinishedCatchpoints (f : gmap Z Digest -> gmap Z Digest)
    (d : Store) : Store :=
  {| catchpointStateUint64 := catchpointStateUint64 d;
     catchpointStateString := catchpointStateString d;
     firstStageInfo := firstStageInfo d;
     unfinishedCatchpoints := f (unfinishedCatchpoints d);
     catchpointFiles := catchpointFiles d;
     accountsTotals := accountsTotals d;
     spContexts := spContexts d;
     onlineAccounts := onlineAccounts d;
     onlineRoundParams := onlineRoundParams d;
     merkleTrie := merkleTrie d |}.

Definition set_catchpointFiles (f : gmap Z (string * Z) -> gmap Z (string * Z))
    (d : Store) : Store :=
  {| catchpointStateUint64 := catchpointStateUint64 d;
     catchpointStateString := catchpointStateString d;
     firstStageInfo := firstStageInfo d;
     unfinishedCatchpoints := unfinishedCatchpoints d;
     catchpointFiles := f (catchpointFiles d);
     accountsTotals := accountsTotals d;
     spContexts := spContexts d;
     onlineAccounts := onlineAccounts d;
     onlineRoundParams := onlineRoundParams d;
     merkleTrie := merkleTrie d |}.

Definition set_merkleTrie (v : gset Digest) (d : Store) : Store :=
  {| catchpointStateUint64 := catchpointStateUint64 d;
     catchpointStateString := catchpointStateString d;
     firstStageInfo := firstStageInfo d;
     unfinishedCatchpoints := unfinishedCatchpoints d;
     catchpointFiles := catchpointFiles d;
     accountsTotals := accountsTotals d;
     spContexts := spContexts d;
     onlineAccounts := onlineAccounts d;
     onlineRoundParams := onlineRoundParams d;
     merkleTrie := v |}.

End trackerdb.

(** ** The Merkle trie ([crypto/merkletrie]) *)

(** Modelled from the spec: the trie primitive is not among the sources.
    Section 4.2 gives its contract: [add] and [delete] return true iff the
    digest was newly added or actually removed.  The trie is the set of its
    digests. *)
Record Trie : Type := {
  trie_elems : gset Digest;
}.

(** The calls made on the trie, in order, with what each returned. *)
Inductive TrieCall : Type :=
| CallAdd (d : Digest) (added : bool)
| CallDelete (d : Digest) (deleted : bool)
| CallCommit.

Global Instance TrieCall_eq_dec : EqDecision TrieCall.
Proof. solve_decision. Defined.

(** ** Files *)

(** A file of catchpoint data is a tar stream under a compressor; the
    compressors round-trip, and the model keeps the entries. *)
Record File : Type := {
  file_entries : list TarEntry;
  file_end : option error;
}.

(** ** The log *)

Inductive LogLevel : Type := LogDebug | LogInfo | LogWarn | LogError.

(** A log line: its level, its format string and its numeric arguments. *)
Record LogEntry : Type := {
  log_level : LogLevel;
  log_format : string;
  log_args : list Z;
}.

Global Instance LogLevel_eq_dec : EqDecision LogLevel.
Proof. solve_decision. Defined.
Global Instance LogEntry_eq_dec : EqDecision LogEntry.
Proof. solve_decision. Defined.

(** ** The tracker and its surroundings *)

(** [catchpointTracker], lines 112-181.  The logger and the two database
    handles are in [Sys]; the mutex guards against interleavings that a
    sequential run does not have.  The channel [catchpointDataSlowWriting] is
    only ever made and closed: [true] is a closed channel. *)
Record catchpointTracker : Type := {
  tmpDir : string;
  dbDirectory : string;
  catchpointInterval : Z;
  catchpointFileHistoryLength : Z;
  enableGeneratingCatchpointFiles : bool;
  lastCatchpointLabel : string;
  catchpointDataSlowWriting : bool;
  catchpointDataWriting : Z;
  balancesTrie : option Trie;
  roundDigest : list Digest;
  consensusVersion : list string;
  reenableCatchpointsRound : Z;
  forceCatchpointFileWriting : bool;
  cachedDBRound : Z;
}.

Definition set_lastCatchpointLabel (v : string) (t : catchpointTracker) : catchpointTracker :=
  {| tmpDir := tmpDir t; dbDirectory := dbDirectory t;
     catchpointInterval := catchpointInterval t;
     catchpointFileHistoryLength := catchpointFileHistoryLength t;
     enableGeneratingCatchpointFiles := enableGeneratingCatchpointFiles t;
     lastCatchpointLabel := v;
     catchpointDataSlowWriting := catchpointDataSlowWriting t;
     catchpointDataWriting := catchpointDataWriting t;
     balancesTrie := balancesTrie t;
     roundDigest := roundDigest t; consensusVersion := consensusVersion t;
     reenableCatchpointsRound := reenableCatchpointsRound t;
     forceCatchpointFileWriting := forceCatchpointFileWriting t;
     cachedDBRound := cachedDBRound t |}.

Definition set_catchpointDataSlowWriting (v : bool) (t : catchpointTracker)
    : catchpointTracker :=
  {| tmpDir := tmpDir t; dbDirectory := dbDirectory t;
     catchpointInterval := catchpointInterval t;
     catchpointFileHistoryLength := catchpointFileHistoryLength t;
     enableGeneratingCatchpointFiles := enableGeneratingCatchpointFiles t;
     lastCatchpointLabel := lastCatchpointLabel t;
     catchpointDataSlowWriting := v;
     catchpointDataWriting := catchpointDataWriting t;
     balancesTrie := balancesTrie t;
     roundDigest := roundDigest t; consensusVersion := consensusVersion t;
     reenableCatchpointsRound := reenableCatchpointsRound t;
     forceCatchpointFileWriting := forceCatchpointFileWriting t;
     cachedDBRound := cachedDBRound t |}.

Definition set_catchpointDataWriting (v : Z) (t : catchpointTracker) : catchpointTracker :=
  {| tmpDir := tmpDir t; dbDirectory := dbDirectory t;
     catchpointInterval := catchpointInterval t;
     catchpointFileHistoryLength := catchpointFileHistoryLength t;
     enableGeneratingCatchpointFiles := enableGeneratingCatchpointFiles t;
     lastCatchpointLabel := lastCatchpointLabel t;
     catchpointDataSlowWriting := catchpointDataSlowWriting t;
     catchpointDataWriting := v;
     balancesTrie := balancesTrie t;
     roundDigest := roundDigest t; consensusVersion := consensusVersion t;
     reenableCatchpointsRound := reenableCatchpointsRound t;
     forceCatchpointFileWriting := forceCatchpointFileWriting t;
     cachedDBRound := cachedDBRound t |}.

Definition set_balancesTrie (v : option Trie) (t : catchpointTracker) : catchpointTracker :=
  {| tmpDir := tmpDir t; dbDirectory := dbDirectory t;
     catchpointInterval := catchpointInterval t;
     catchpointFileHistoryLength := catchpointFileHistoryLength t;
     enableGeneratingCatchpointFiles := enableGeneratingCatchpointFiles t;
     lastCatchpointLabel := lastCatchpointLabel t;
     catchpointDataSlowWriting := catchpointDataSlowWriting t;
     catchpointDataWriting := catchpointDataWriting t;
     balancesTrie := v;
     roundDigest := roundDigest t; consensusVersion := consensusVersion t;
     reenableCatchpointsRound := reenableCatchpointsRound t;
     forceCatchpointFileWriting := forceCatchpointFileWriting t;
     cachedDBRound := cachedDBRound t |}.

(** [deferredCommitRange], the part of it that the tracker reads and
    writes. *)
Module DCR.
Record deferredCommitRange : Type := {
  oldBase : Z;
  offset : Z;
  catchpointLookback : Z;
  catchpointFirstStage : bool;
  enableGeneratingCatchpointFiles : bool;
  catchpointSecondStage : bool;
}.
End DCR.

(** The tracker together with what its calls act on: the database, the
    files of [tmpDir] and [dbDirectory] by path, the log, the trace of trie
    calls, and the fault schedule of the environment. *)
Record Sys : Type := {
  tracker : catchpointTracker;
  db : trackerdb.Store;
  files : gmap string File;
  logs : list LogEntry;
  telemetryEnabled : bool;
  trieCalls : list TrieCall;
  sys_faults : list bool;
}.

Definition set_tracker (f : catchpointTracker -> catchpointTracker) (s : Sys) : Sys :=
  {| tracker := f (tracker s); db := db s; files := files s; logs := logs s;
     telemetryEnabled := telemetryEnabled s; trieCalls := trieCalls s;
     sys_faults := sys_faults s |}.
Definition set_db (f : trackerdb.Store -> trackerdb.Store) (s : Sys) : Sys :=
  {| tracker := tracker s; db := f (db s); files := files s; logs := logs s;
     telemetryEnabled := telemetryEnabled s; trieCalls := trieCalls s;
     sys_faults := sys_faults s |}.
Definition set_files (f : gmap string File -> gmap string File) (s : Sys) : Sys :=
  {| tracker := tracker s; db := db s; files := f (files s); logs := logs s;
     telemetryEnabled := telemetryEnabled s; trieCalls := trieCalls s;
     sys_faults := sys_faults s |}.
Definition set_logs (f : list LogEntry -> list LogEntry) (s : Sys) : Sys :=
  {| tracker := tracker s; db := db s; files := files s; logs := f (logs s);
     telemetryEnabled := telemetryEnabled s; trieCalls := trieCalls s;
     sys_faults := sys_faults s |}.
Definition set_trieCalls (f : list TrieCall -> list TrieCall) (s : Sys) : Sys :=
  {| tracker := tracker s; db := db s; files := files s; logs := logs s;
     telemetryEnabled := telemetryEnabled s; trieCalls := f (trieCalls s);
     sys_faults := sys_faults s |}.

Global Instance Sys_faults : HasFaults Sys := {|
  faults := sys_faults;
  set_faults f s :=
    {| tracker := tracker s; db := db s; files := files s; logs := logs s;
       telemetryEnabled := telemetryEnabled s; trieCalls := trieCalls s;
       sys_faults := f |};
|}.

(** [ct.log.Infof], [Warnf], [Errorf], [Debugf]. *)
Definition logf (level : LogLevel) (format : string) (args : list Z) : ST Sys unit :=
  modify (set_logs (fun l =>
    l ++ [ {| log_level := level; log_format := format; log_args := args |} ])).

(** [for _, x := range xs { body }], stopping at the first error. *)
Fixpoint for_each {S A} (xs : list A) (body : A -> ST S unit) : ST S unit :=
  match xs with
  | [] => ret tt
  | x :: rest => body x;; for_each rest body
  end.

(** ** The database, the file system and the trie as the tracker calls them *)

(** [ct.dbs.Transaction(fn)]: the writes of [fn] to the database are
    committed together when [fn] returns nil and the commit succeeds, and
    rolled back together otherwise.  What [fn] did outside the database
    (files, the tracker's memory, the log) stays. *)
Definition Transaction {A} (fn : ST Sys A) : ST Sys A :=
  fun s =>
    match fn s with
    | (s1, Err e) => (set_db (fun _ => db s) s1, Err e)
    | (s1, Ok a) =>
        match external "Transaction.Commit" s1 with
        | (s2, Err e) => (set_db (fun _ => db s) s2, Err e)
        | (s2, Ok _) => (s2, Ok a)
        end
    end.

(** [ct.dbs.Snapshot(fn)]: a read-only scope. *)
Definition Snapshot {A} (fn : ST Sys A) : ST Sys A :=
  external "Snapshot";; fn.

(** Modelled from the spec: the catchpoint store adapter of section 4.5
    ([trackerdb.CatchpointReaderWriter]) is not among the sources.  A state
    slot that was never written reads as zero; [StoreCatchpoint] with an
    empty file name deletes the row of the round, as the callers at lines
    1443 and 1487 use it; [GetOldestCatchpointFiles(want, keep)] returns up
    to [want] of the oldest rows, leaving the [keep] newest out. *)
Module catchpointStore.
Import trackerdb.

Definition ReadCatchpointStateUint64 (key : string) : ST Sys Z :=
  external "ReadCatchpointStateUint64";;
  gets (fun s => default 0 (catchpointStateUint64 (db s) !! key)).

Definition WriteCatchpointStateUint64 (key : string) (v : Z) : ST Sys unit :=
  external "WriteCatchpointStateUint64";;
  modify (set_db (set_catchpointStateUint64 (insert key v))).

Definition ReadCatchpointStateString (key : string) : ST Sys string :=
  external "ReadCatchpointStateString";;
  gets (fun s => default "" (catchpointStateString (db s) !! key)).

Definition WriteCatchpointStateString (key : string) (v : string) : ST Sys unit :=
  external "WriteCatchpointStateString";;
  modify (set_db (set_catchpointStateString (insert key v))).

Definition InsertOrReplaceCatchpointFirstStageInfo
    (round : Z) (info : CatchpointFirstStageInfo) : ST Sys unit :=
  external "InsertOrReplaceCatchpointFirstStageInfo";;
  modify (set_db (set_firstStageInfo (insert round info))).

(** The result [(dataInfo, exists)] as an option. *)
Definition SelectCatchpointFirstStageInfo (round : Z)
    : ST Sys (option CatchpointFirstStageInfo) :=
  external "SelectCatchpointFirstStageInfo";;
  gets (fun s => firstStageInfo (db s) !! round).

Definition InsertUnfinishedCatchpoint (round : Z) (blockHash : Digest) : ST Sys unit :=
  external "InsertUnfinishedCatchpoint";;
  modify (set_db (set_unfinishedCatchpoints (insert round blockHash))).

Definition DeleteUnfinishedCatchpoint (round : Z) : ST Sys unit :=
  external "DeleteUnfinishedCatchpoint";;
  modify (set_db (set_unfinishedCatchpoints (delete round))).

Definition StoreCatchpoint (round : Z) (fileName catchpoint : string) (fileSize : Z)
    : ST Sys unit :=
  external "StoreCatchpoint";;
  if decide (fileName = "")
  then modify (set_db (set_catchpointFiles (delete round)))
  else modify (set_db (set_catchpointFiles (insert round (fileName, fileSize)))).

(** [(fileName, catchpoint, fileSize, err)], [sql.ErrNoRows] without a
    row. *)
Definition GetCatchpoint (round : Z) : ST Sys (string * Z) :=
  external "GetCatchpoint";;
  let* s := get in
  match catchpointFiles (db s) !! round with
  | Some row => ret row
  | None => fail ErrNoRows
  end.

Definition row_le (a b : Z * (string * Z)) : Prop := a.1 <= b.1.
Global Instance row_le_dec : RelDecision row_le.
Proof. intros a b. unfold row_le. apply _. Defined.

Definition rows_by_round (m : gmap Z (string * Z)) : list (Z * (string * Z)) :=
  merge_sort row_le (map_to_list m).

(** The result is a Go map; the list is in the order in which [range]
    visits it. *)
Definition GetOldestCatchpointFiles (fileCount filesToKeep : Z)
    : ST Sys (list (Z * string)) :=
  external "GetOldestCatchpointFiles";;
  let* s := get in
  let rows := rows_by_round (catchpointFiles (db s)) in
  let old := take (Z.to_nat (len rows - filesToKeep)) rows in
  ret ((fun r => (r.1, r.2.1)) <$> take (Z.to_nat fileCount) old).

(** Modelled from the spec: [selectUnfinished() → [records]] of section
    4.5, the (round, block hash) pairs of the unfinished markers; the rows
    come in the order of their rounds. *)
Definition marker_le (a b : Z * Digest) : Prop := a.1 <= b.1.
Global Instance marker_le_dec : RelDecision marker_le.
Proof. intros a b. unfold marker_le. apply _. Defined.

Definition SelectUnfinishedCatchpoints : ST Sys (list (Z * Digest)) :=
  external "SelectUnfinishedCatchpoints";;
  gets (fun s => merge_sort marker_le (map_to_list (unfinishedCatchpoints (db s)))).

(** Modelled from the spec: [selectOldFirstStageRounds(maxRound) → [rounds]]
    and [deleteOldFirstStageInfo(maxRound)] of section 4.5.  The bound is
    the last round that goes, as the caller names it ([maxRoundToDelete],
    line 974); the rounds come in increasing order. *)
Definition SelectOldCatchpointFirstStageInfoRounds (maxRound : Z) : ST Sys (list Z) :=
  external "SelectOldCatchpointFirstStageInfoRounds";;
  gets (fun s => merge_sort Z.le
                   (filter (fun r => r <= maxRound)
                           (map_to_list (firstStageInfo (db s))).*1)).

Definition DeleteOldCatchpointFirstStageInfo (maxRound : Z) : ST Sys unit :=
  external "DeleteOldCatchpointFirstStageInfo";;
  modify (set_db (set_firstStageInfo
                    (filter (fun kv : Z * CatchpointFirstStageInfo => maxRound < kv.1)))).

End catchpointStore.

(** [filepath.Join] of two elements: an empty element is ignored. *)
Definition filepath_Join (a b : string) : string :=
  if decide (b = "") then a
  else if decide (a = "") then b
  else a +:+ "/" +:+ b.

Module os.

(** [os.Stat] and [os.OpenFile(path, os.O_RDONLY, _)]: the file, or
    [os.ErrNotExist], or another failure. *)
Definition Stat (path : string) : ST Sys File :=
  external "os.Stat";;
  let* s := get in
  match files s !! path with
  | Some f => ret f
  | None => fail ErrNotExist
  end.

Definition OpenFile (path : string) : ST Sys File :=
  external "os.OpenFile";;
  let* s := get in
  match files s !! path with
  | Some f => ret f
  | None => fail ErrNotExist
  end.

Definition MkdirAll (path : string) : ST Sys unit := external "os.MkdirAll".

Definition IsNotExist (e : error) : bool := bool_decide (e = ErrNotExist).

End os.

(** [trackerdb.RemoveSingleCatchpointFileFromDisk(dir, file)]: remove the
    file, which may be absent already. *)
Definition RemoveSingleCatchpointFileFromDisk (dir fileToDelete : string) : ST Sys unit :=
  external "os.Remove";;
  modify (set_files (delete (filepath_Join dir fileToDelete))).

(** Modelled from the spec: the trie adapter of section 4.2.  A call on a nil
    trie is a nil-pointer dereference.  Every call that returns is added to
    the trace. *)
Module merkletrie.

Definition with_trie {A} (f : Trie -> ST Sys A) : ST Sys A :=
  let* s := get in
  match balancesTrie (tracker s) with
  | None => fail (Panicked "invalid memory address or nil pointer dereference")
  | Some t => f t
  end.

Definition Add (d : Digest) : ST Sys bool :=
  with_trie (fun t =>
    external "Trie.Add";;
    let added := bool_decide (d ∉ trie_elems t) in
    modify (set_tracker (set_balancesTrie (Some {| trie_elems := {[d]} ∪ trie_elems t |})));;
    modify (set_trieCalls (fun l => l ++ [CallAdd d added]));;
    ret added).

Definition Delete (d : Digest) : ST Sys bool :=
  with_trie (fun t =>
    external "Trie.Delete";;
    let deleted := bool_decide (d ∈ trie_elems t) in
    modify (set_tracker (set_balancesTrie (Some {| trie_elems := trie_elems t ∖ {[d]} |})));;
    modify (set_trieCalls (fun l => l ++ [CallDelete d deleted]));;
    ret deleted).

(** [Commit] writes the trie through its committer, that is, into the
    running transaction. *)
Definition Commit : ST Sys unit :=
  with_trie (fun t =>
    external "Trie.Commit";;
    modify (set_db (trackerdb.set_merkleTrie (trie_elems t)));;
    modify (set_trieCalls (fun l => l ++ [CallCommit]))).

(** [MakeTrie(committer, config)]: the trie of the committed pages. *)
Definition MakeTrie : ST Sys Trie :=
  external "MakeTrie";;
  gets (fun s => {| trie_elems := trackerdb.merkleTrie (db s) |}).

End merkletrie.

(** [config.Consensus[proto]], the flags that the tracker reads. *)
Record ConsensusParams : Type := {
  EnableCatchpointsWithSPContexts : bool;
  EnableCatchpointsWithOnlineAccounts : bool;
}.

(** [ledgercore.CatchpointLabelMaker]: the three makers and what each is
    made of. *)
Inductive CatchpointLabelMaker : Type :=
| CatchpointLabelMakerV6 (round : Z) (blockHash balancesHash : Digest) (totals : AccountTotals)
| CatchpointLabelMakerV7 (round : Z) (blockHash balancesHash : Digest) (totals : AccountTotals)
                         (spVerificationHash : Digest)
| CatchpointLabelMakerCurrent (round : Z) (blockHash balancesHash : Digest)
                              (totals : AccountTotals)
                              (spVerificationHash onlineAccountsHash onlineRoundParamsHash : Digest).

(** [ReadCloseSizer]: an open file and its size. *)
Record readCloseSizer : Type := {
  ReadCloser : File;
  size : Z;
}.

(** A panic or a loop out of fuel inside a call that returns no error. *)
Definition of_outcome {S A} (o : outcome A) : ST S A :=
  match o with
  | Returns a => ret a
  | Panics => fail (Panicked "integer divide by zero")
  | OutOfFuel => fail Unfinished
  end.

(** [makeCatchpointDataFilePath], lines 1408-1410. *)
Definition makeCatchpointDataFilePath (accountsRound : Z) : string :=
  pretty (Go.int64 accountsRound) +:+ ".data".

(** ** The methods of the tracker that schedule *)

(** [isWritingCatchpointDataFile], lines 1216-1218. *)
Definition isWritingCatchpointDataFile (ct : catchpointTracker) : bool :=
  negb (catchpointDataWriting ct =? 0).

(** [catchpointEnabled], lines 1523-1525. *)
Definition catchpointEnabled (ct : catchpointTracker) : bool :=
  negb (catchpointInterval ct =? 0).

(** [committedUpTo], lines 453-458: [(retRound, lookback)]. *)
Definition committedUpTo (rnd : Z) : ST Sys (Z * Z) :=
  let* s := get in
  let retRound := cachedDBRound (tracker s) in
  ret (retRound, 0).

(** The method [calculateCatchpointRounds], lines 960-971. *)
Definition ct_calculateCatchpointRounds
    (fuel : nat) (ct : catchpointTracker) (dcc : DCR.deferredCommitRange)
    : outcome (list Z) :=
  if catchpointInterval ct =? 0 then Returns []
  else
    let min := Go.u64_add (DCR.oldBase dcc) 1 in
    let min := if Go.u64_add (DCR.catchpointLookback dcc) 1 >? min
               then Go.u64_add (DCR.catchpointLookback dcc) 1
               else min in
    let max := Go.u64_add (DCR.oldBase dcc) (DCR.offset dcc) in
    Scheduler.calculateCatchpointRounds fuel min max (catchpointInterval ct).

(** [produceCommittingTask], lines 500-551.  [dcr] is a pointer: the result
    is the range as the call leaves it, and whether the call returned it
    ([true]) or nil. *)
Definition produceCommittingTask
    (fuel : nat) (committedRound dbRound : Z) (dcr : DCR.deferredCommitRange)
    : ST Sys (DCR.deferredCommitRange * bool) :=
  let* s := get in
  let ct := tracker s in
  if catchpointInterval ct =? 0 then ret (dcr, true)
  else
    let reenableCatchpointsRound := reenableCatchpointsRound ct in
    let* (hasIntermediateFirstStageRound, hasMultipleIntermediateFirstStageRounds, offset) :=
      of_outcome (Scheduler.calculateFirstStageRounds
                    (DCR.oldBase dcr) (DCR.offset dcr) reenableCatchpointsRound
                    (catchpointInterval ct) (DCR.catchpointLookback dcr)) in
    let dcr :=
      {| DCR.oldBase := DCR.oldBase dcr; DCR.offset := offset;
         DCR.catchpointLookback := DCR.catchpointLookback dcr;
         DCR.catchpointFirstStage := DCR.catchpointFirstStage dcr;
         DCR.enableGeneratingCatchpointFiles := DCR.enableGeneratingCatchpointFiles dcr;
         DCR.catchpointSecondStage := DCR.catchpointSecondStage dcr |} in
    if isWritingCatchpointDataFile ct then
      (if hasIntermediateFirstStageRound
       then (* already closed, or closed now *)
         modify (set_tracker (set_catchpointDataSlowWriting true))
       else ret tt);;
      ret (dcr, false)
    else
      (if hasIntermediateFirstStageRound && enableGeneratingCatchpointFiles ct
       then modify (set_tracker (set_catchpointDataSlowWriting
                                   hasMultipleIntermediateFirstStageRounds))
       else ret tt);;
      let dcr :=
        {| DCR.oldBase := DCR.oldBase dcr; DCR.offset := DCR.offset dcr;
           DCR.catchpointLookback := DCR.catchpointLookback dcr;
           DCR.catchpointFirstStage :=
             if hasIntermediateFirstStageRound then true else DCR.catchpointFirstStage dcr;
           DCR.enableGeneratingCatchpointFiles := enableGeneratingCatchpointFiles ct;
           DCR.catchpointSecondStage := DCR.catchpointSecondStage dcr |} in
      let* rounds := of_outcome (ct_calculateCatchpointRounds fuel ct dcr) in
      let dcr :=
        {| DCR.oldBase := DCR.oldBase dcr; DCR.offset := DCR.offset dcr;
           DCR.catchpointLookback := DCR.catchpointLookback dcr;
           DCR.catchpointFirstStage := DCR.catchpointFirstStage dcr;
           DCR.enableGeneratingCatchpointFiles := DCR.enableGeneratingCatchpointFiles dcr;
           DCR.catchpointSecondStage := len rounds >? 0 |} in
      ret (dcr, true).

(** ** The two stages *)

Section Tracker.

(** What the tracker takes from other packages as given. *)
Variable Consensus : string -> ConsensusParams.               (* config.Consensus *)
Variable Encode : CatchpointFileHeader -> list byte.          (* protocol.Encode *)
Variable MakeLabel : CatchpointLabelMaker -> string.          (* ledgercore.MakeLabel *)
Variable MakeCatchpointFilePath : Z -> string.                (* trackerdb *)
Variable FileSize : File -> Z.                                (* os.FileInfo.Size *)
Variable RootHashOf : gset Digest -> Digest.                  (* the root of a trie *)
Variable EncodeAndHash : list byte -> Digest * list byte.     (* crypto.EncodeAndHash *)
Variable calculateVerificationHash : list byte -> Digest.
(** The first-stage file writer ([catchpointFileWriter]): the balance
    chunks it writes for a database, and the totals it counts:
    accounts, KVs, online accounts, online round params. *)
Variable writerChunks : trackerdb.Store -> list TarEntry.
Variable writerTotals : trackerdb.Store -> Z * Z * Z * Z.

Definition RootHash : ST Sys Digest :=
  merkletrie.with_trie (fun t => external "Trie.RootHash";; ret (RootHashOf (trie_elems t))).

(** [getSPVerificationData], lines 215-230: [(encodedData, hash)]. *)
Definition getSPVerificationData : ST Sys (list byte * Digest) :=
  Snapshot (
    external "GetAllSPContexts";;
    let* s := get in
    let '(spVerificationHash, encodedData) := EncodeAndHash (trackerdb.spContexts (db s)) in
    ret (encodedData, spVerificationHash)).

(** [generateCatchpointData], lines 1228-1328.  The writer is not among the
    sources, and the pacing of its steps (time slots, sleeps, the
    slow-writing signal) changes when the file is complete, not what it
    holds: the run is taken as a whole.  It either leaves the data file of
    the round, or fails and leaves none (the writer's [Abort]). *)
Definition generateCatchpointData (accountsRound : Z) (encodedSPData : option (list byte))
    : ST Sys (Z * Z * Z * Z * Z * Z) :=
  logf LogDebug
       "catchpointTracker.generateCatchpointData() writing catchpoint accounts for round %d"
       [accountsRound];;
  let* s := get in
  let catchpointDataFilePath :=
    filepath_Join (filepath_Join (tmpDir (tracker s)) trackerdb.CatchpointDirName)
                  (makeCatchpointDataFilePath accountsRound) in
  let* written := try (external "catchpointFileWriter") in
  match written with
  | Err e =>
      modify (set_files (delete catchpointDataFilePath));;
      logf LogWarn "catchpointTracker.generateCatchpointData() %v" [];;
      fail e
  | Ok _ =>
      let sp := match encodedSPData with
                | Some d => [ {| entry_header := {| Name := catchpointSPVerificationFileName;
                                                    Mode := 384; Size := len d |};
                                 entry_data := d |} ]
                | None => []
                end in
      let chunks := writerChunks (db s) in
      let '(totalAccounts, totalKVs, totalOnlineAccounts, totalOnlineRoundParams) :=
        writerTotals (db s) in
      let biggestChunkLen :=
        foldr Z.max 0 ((fun e => len (entry_data e)) <$> chunks) in
      modify (set_files (insert catchpointDataFilePath
                           {| file_entries := sp ++ chunks; file_end := None |}));;
      ret (totalAccounts, totalKVs, totalOnlineAccounts, totalOnlineRoundParams,
           len chunks, biggestChunkLen)
  end.

(** [recordFirstStageInfo], lines 1330-1406. *)
Definition recordFirstStageInfo (accountsRound : Z)
    (totalAccounts totalKVs totalOnlineAccounts totalOnlineRoundParams
       totalChunks biggestChunkLen : Z)
    (stateProofVerificationHash onlineAccountsVerificationHash
       onlineRoundParamsVerificationHash : Digest) : ST Sys unit :=
  external "MakeAccountsReader";;
  external "AccountsTotals";;
  let* accountTotals := gets (fun s => trackerdb.accountsTotals (db s)) in
  external "MakeMerkleCommitter";;
  let* s := get in
  match balancesTrie (tracker s) with
  | None =>
      let* trie := merkletrie.MakeTrie in
      modify (set_tracker (set_balancesTrie (Some trie)))
  | Some _ => ret tt   (* SetCommitter *)
  end;;
  let* trieBalancesHash := RootHash in
  external "MakeCatchpointWriter";;
  let info :=
    {| trackerdb.Totals := accountTotals;
       trackerdb.TotalAccounts := totalAccounts;
       trackerdb.TotalKVs := totalKVs;
       trackerdb.TotalOnlineAccounts := totalOnlineAccounts;
       trackerdb.TotalOnlineRoundParams := totalOnlineRoundParams;
       trackerdb.TotalChunks := totalChunks;
       trackerdb.BiggestChunkLen := biggestChunkLen;
       trackerdb.TrieBalancesHash := trieBalancesHash;
       trackerdb.StateProofVerificationHash := stateProofVerificationHash;
       trackerdb.OnlineAccountsHash := onlineAccountsVerificationHash;
       trackerdb.OnlineRoundParamsHash := onlineRoundParamsVerificationHash |} in
  catchpointStore.InsertOrReplaceCatchpointFirstStageInfo accountsRound info;;
  logf LogInfo "Catchpoint data file was generated" [accountsRound].

(** [finishFirstStage], lines 232-306. *)
Definition finishFirstStage (dbRound : Z) (blockProto : string) : ST Sys unit :=
  logf LogInfo "finishing catchpoint's first stage dbRound: %d" [dbRound];;
  let params := Consensus blockProto in
  let* (spVerificationEncodedData, spVerificationHash) :=
    (if EnableCatchpointsWithSPContexts params
     then let* (d, h) := getSPVerificationData in ret (Some d, h)
     else ret (None, 0)) in
  let* (onlineAccountsHash, onlineRoundParamsHash) :=
    (if EnableCatchpointsWithOnlineAccounts params
     then Snapshot (
            external "MakeOnlineAccountsIter";;
            let* a := gets (fun s => calculateVerificationHash
                                       (trackerdb.onlineAccounts (db s))) in
            external "MakeOnlineRoundParamsIter";;
            let* b := gets (fun s => calculateVerificationHash
                                       (trackerdb.onlineRoundParams (db s))) in
            ret (a, b))
     else ret (0, 0)) in
  let* s := get in
  let* (totalAccounts, totalKVs, totalOnlineAccounts, totalOnlineRoundParams,
        totalChunks, biggestChunkLen) :=
    (if enableGeneratingCatchpointFiles (tracker s)
     then
       let* generated := try (generateCatchpointData dbRound spVerificationEncodedData) in
       modify (set_tracker (set_catchpointDataWriting 0));;
       match generated with
       | Err e => fail e
       | Ok totals => ret totals
       end
     else ret (0, 0, 0, 0, 0, 0)) in
  Transaction (
    external "MakeCatchpointWriter";;
    recordFirstStageInfo dbRound
      totalAccounts totalKVs totalOnlineAccounts totalOnlineRoundParams
      totalChunks biggestChunkLen
      spVerificationHash onlineAccountsHash onlineRoundParamsHash;;
    (* Clear the db record. *)
    catchpointStore.WriteCatchpointStateUint64
      trackerdb.CatchpointStateWritingFirstStageInfo 0).

(** [finishFirstStageAfterCrash], lines 310-328. *)
Definition finishFirstStageAfterCrash (dbRound : Z) (blockProto : string) : ST Sys unit :=
  let* v := catchpointStore.ReadCatchpointStateUint64
              trackerdb.CatchpointStateWritingFirstStageInfo in
  if v =? 0 then ret tt
  else
    (* First, delete the unfinished data file. *)
    let relCatchpointDataFilePath :=
      filepath_Join trackerdb.CatchpointDirName (makeCatchpointDataFilePath dbRound) in
    let* s := get in
    RemoveSingleCatchpointFileFromDisk (tmpDir (tracker s)) relCatchpointDataFilePath;;
    finishFirstStage dbRound blockProto.

(** [recordCatchpointFile], lines 1416-1449. *)
Definition recordCatchpointFile (round : Z) (relCatchpointFilePath : string) (fileSize : Z)
    : ST Sys unit :=
  let* s := get in
  let ct := tracker s in
  (if negb (catchpointFileHistoryLength ct =? 0) then
     let* stored := try (catchpointStore.StoreCatchpoint round relCatchpointFilePath ""
                                                         fileSize) in
     match stored with
     | Err e =>
         logf LogWarn
              "catchpointTracker.recordCatchpointFile() unable to save catchpoint: %v" [];;
         fail e
     | Ok _ => ret tt
     end
   else
     let* removed := try (RemoveSingleCatchpointFileFromDisk (dbDirectory ct)
                                                             relCatchpointFilePath) in
     match removed with
     | Err e =>
         logf LogWarn
              "catchpointTracker.recordCatchpointFile() unable to remove file (%s): %v" [];;
         fail e
     | Ok _ => ret tt
     end);;
  if catchpointFileHistoryLength ct =? -1 then ret tt
  else
    let* oldest := try (catchpointStore.GetOldestCatchpointFiles
                          2 (catchpointFileHistoryLength ct)) in
    match oldest with
    | Err _ =>
        fail (Errorf "unable to delete catchpoint file, getOldestCatchpointFiles failed : %v")
    | Ok filesToDelete =>
        for_each filesToDelete (fun '(round, fileToDelete) =>
          RemoveSingleCatchpointFileFromDisk (dbDirectory ct) fileToDelete;;
          let* stored := try (catchpointStore.StoreCatchpoint round "" "" 0) in
          match stored with
          | Err _ => fail (Errorf "unable to delete old catchpoint entry '%s' : %v")
          | Ok _ => ret tt
          end)
    end.

(** [repackCatchpoint], lines 736-800.  The repacking runs on the two
    streams with the faults of the environment; what it wrote is in the
    output file whether it failed or not. *)
Definition repackCatchpoint (header : CatchpointFileHeader) (biggestChunkLen : Z)
    (dataPath outPath : string) : ST Sys unit :=
  let* fin := os.OpenFile dataPath in
  external "os.OpenFile";;       (* fout, os.O_RDWR|os.O_CREATE *)
  external "gzip.NewWriterLevel";;
  (fun s =>
     let io := {| tin := {| upcoming := file_entries fin; unread := [];
                            stream_end := file_end fin |};
                  tout := {| written := [] |};
                  io_faults := sys_faults s |} in
     let '(io', r) := doRepackCatchpoint Encode header biggestChunkLen io in
     let out := {| file_entries := written (tout io');
                   file_end := match r with
                               | Ok _ => None
                               | Err _ => Some ErrUnexpectedEOF
                               end |} in
     (set_faults (io_faults io') (set_files (insert outPath out) s), r));;
  (* Close streams. *)
  external "tarOut.Close";;
  external "gzipOut.Close";;
  external "fout.Close";;
  external "fin.Close".

(** [createCatchpoint], lines 804-916. *)
Definition createCatchpoint (accountsRound round : Z)
    (dataInfo : trackerdb.CatchpointFirstStageInfo) (blockHash : Digest)
    (blockProto : string) : ST Sys unit :=
  let params := Consensus blockProto in
  let* (labelMaker, version) :=
    (if EnableCatchpointsWithOnlineAccounts params then
       if negb (EnableCatchpointsWithSPContexts params) then
         fail (Errorf
                 "invalid params for catchpoint file version v8: SP contexts not enabled")
       else
         ret (CatchpointLabelMakerCurrent
                round blockHash (trackerdb.TrieBalancesHash dataInfo)
                (trackerdb.Totals dataInfo)
                (trackerdb.StateProofVerificationHash dataInfo)
                (trackerdb.OnlineAccountsHash dataInfo)
                (trackerdb.OnlineRoundParamsHash dataInfo),
              CatchpointFileVersionV8)
     else if EnableCatchpointsWithSPContexts params then
       ret (CatchpointLabelMakerV7
              round blockHash (trackerdb.TrieBalancesHash dataInfo)
              (trackerdb.Totals dataInfo)
              (trackerdb.StateProofVerificationHash dataInfo),
            CatchpointFileVersionV7)
     else
       ret (CatchpointLabelMakerV6
              round blockHash (trackerdb.TrieBalancesHash dataInfo)
              (trackerdb.Totals dataInfo),
            CatchpointFileVersionV6)) in
  let label := MakeLabel labelMaker in
  logf LogInfo "creating catchpoint round: %d accountsRound: %d label: %s"
       [round; accountsRound];;
  catchpointStore.WriteCatchpointStateString trackerdb.CatchpointStateLastCatchpoint label;;
  modify (set_tracker (set_lastCatchpointLabel label));;
  let* s := get in
  let ct := tracker s in
  if negb (enableGeneratingCatchpointFiles ct) then ret tt
  else
    let catchpointDataFilePath :=
      filepath_Join (filepath_Join (tmpDir ct) trackerdb.CatchpointDirName)
                    (makeCatchpointDataFilePath accountsRound) in
    (* Check if the data file exists. *)
    let* stat := try (os.Stat catchpointDataFilePath) in
    match stat with
    | Err e => if os.IsNotExist e then ret tt else fail e
    | Ok _ =>
        (* Make a catchpoint file. *)
        let header :=
          {| Version := version;
             BalancesRound := accountsRound;
             BlocksRound := round;
             Totals := trackerdb.Totals dataInfo;
             TotalAccounts := trackerdb.TotalAccounts dataInfo;
             TotalKVs := trackerdb.TotalKVs dataInfo;
             TotalOnlineAccounts := trackerdb.TotalOnlineAccounts dataInfo;
             TotalOnlineRoundParams := trackerdb.TotalOnlineRoundParams dataInfo;
             TotalChunks := trackerdb.TotalChunks dataInfo;
             Catchpoint := label;
             BlockHeaderDigest := blockHash |} in
        let relCatchpointFilePath :=
          filepath_Join trackerdb.CatchpointDirName (MakeCatchpointFilePath round) in
        let absCatchpointFilePath :=
          filepath_Join (dbDirectory ct) relCatchpointFilePath in
        os.MkdirAll absCatchpointFilePath;;
        repackCatchpoint header (trackerdb.BiggestChunkLen dataInfo)
                         catchpointDataFilePath absCatchpointFilePath;;
        let* fileInfo := os.Stat absCatchpointFilePath in
        Transaction (
          external "MakeCatchpointReaderWriter";;
          recordCatchpointFile round relCatchpointFilePath (FileSize fileInfo);;
          catchpointStore.DeleteUnfinishedCatchpoint round);;
        logf LogInfo "Catchpoint file was created" [accountsRound; FileSize fileInfo]
    end.

(** [finishCatchpoint], lines 920-934. *)
Definition finishCatchpoint (round : Z) (blockHash : Digest) (blockProto : string)
    (catchpointLookback : Z) : ST Sys unit :=
  let accountsRound := Go.u64_sub round catchpointLookback in
  logf LogInfo "finishing catchpoint round: %d accountsRound: %d" [round; accountsRound];;
  let* found := catchpointStore.SelectCatchpointFirstStageInfo accountsRound in
  match found with
  | None => catchpointStore.DeleteUnfinishedCatchpoint round
  | Some dataInfo => createCatchpoint accountsRound round dataInfo blockHash blockProto
  end.

(** [GetCatchpointStream], lines 1452-1521. *)
Definition GetCatchpointStream (round : Z) : ST Sys readCloseSizer :=
  let* looked := try (Snapshot (external "MakeCatchpointReader";;
                                catchpointStore.GetCatchpoint round)) in
  let* (dbFileName, fileSize) :=
    match looked with
    | Ok row => ret row
    | Err e =>
        if decide (e = ErrNoRows) then ret (EmptyString, 0)
        else (* we had some sql error. *)
          fail (Errorf
                  "catchpointTracker.GetCatchpointStream() unable to lookup catchpoint %d: %v")
    end in
  let* s := get in
  let ct := tracker s in
  if negb (bool_decide (dbFileName = "")) then
    let catchpointPath := filepath_Join (dbDirectory ct) dbFileName in
    let* opened := try (os.OpenFile catchpointPath) in
    match opened with
    | Ok file => ret {| ReadCloser := file; size := fileSize |}
    | Err openErr =>
        (* else, see if this is a file-not-found error *)
        if os.IsNotExist openErr then
          (* the database told us that we have this file.. but we couldn't
             find it.  delete it from the database. *)
          external "MakeCatchpointReaderWriter";;
          let* recorded := try (recordCatchpointFile round "" 0) in
          match recorded with
          | Err err2 =>
              logf LogWarn
                   "catchpointTracker.GetCatchpointStream() unable to delete missing catchpoint entry: %v"
                   [];;
              fail err2
          | Ok _ => fail ErrNoEntry
          end
        else (* it's some other error. *)
          fail (Errorf
                  "catchpointTracker.GetCatchpointStream() unable to open catchpoint file '%s' %v")
    end
  else
    (* if the database doesn't know about that round, see if we have that
       file anyway: *)
    let relCatchpointFilePath :=
      filepath_Join trackerdb.CatchpointDirName (MakeCatchpointFilePath round) in
    let absCatchpointFilePath := filepath_Join (dbDirectory ct) relCatchpointFilePath in
    let* opened := try (os.OpenFile absCatchpointFilePath) in
    match opened with
    | Ok file =>
        let* stat := try (external "file.Stat") in
        match stat with
        | Err _ => ret {| ReadCloser := file; size := -1 |}
        | Ok _ =>
            external "MakeCatchpointReaderWriter";;
            let* recorded := try (recordCatchpointFile round relCatchpointFilePath
                                                       (FileSize file)) in
            match recorded with
            | Err _ =>
                logf LogWarn
                     "catchpointTracker.GetCatchpointStream() unable to save missing catchpoint entry: %v"
                     []
            | Ok _ => ret tt
            end;;
            ret {| ReadCloser := file; size := FileSize file |}
        end
    | Err _ => fail ErrNoEntry
    end.

End Tracker.

(** ** The trie maintainer *)

(** [modifiedKvValue]: [nil] is [None], and differs from the empty slice. *)
Record modifiedKvValue : Type := {
  data : option (list byte);
  oldData : option (list byte);
}.

Section TrieMaintainer.

(** The account and resource records and their hash builders belong to
    other packages. *)
Variables Address BaseAccountData ResourcesData : Type.
Variable BaseAccountData_IsEmpty : BaseAccountData -> bool.
Variable ResourcesData_IsEmpty : ResourcesData -> bool.
Variable UpdateRound : ResourcesData -> Z.
Variable AccountHashBuilderV6 : Address -> BaseAccountData -> Digest.
Variable ResourcesHashBuilderV6 : ResourcesData -> Address -> Z -> Z -> res Digest.
Variable KvHashBuilderV6 : string -> list byte -> Digest.
Variable RootHashOf : gset Digest -> Digest.

(** An element of [compactAccountDeltas]: [oldAcct] is the
    [AccountData] of the persisted account. *)
Record accountDelta : Type := {
  acct_address : Address;
  oldAcct : BaseAccountData;
  newAcct : BaseAccountData;
}.

(** An element of [compactResourcesDeltas]: [oldResource_Aidx] and
    [oldResource_Data] are the fields of the persisted resource. *)
Record resourceDelta : Type := {
  res_address : Address;
  oldResource_Aidx : Z;
  oldResource_Data : ResourcesData;
  newResource : ResourcesData;
}.

(** The six places that delete or add a hash have one shape:
    [ok, err := trie.Delete(h)]; an error ends the call with
    [fmt.Errorf(failure, ...)]; a [false] is logged with the same text and
    the count stays; a [true] counts.  [accumulatedChanges] is an [int]
    that counts at most two per delta: it does not overflow. *)
Definition trie_delete (deleteHash : Digest) (failure : string) (accumulatedChanges : Z)
    : ST Sys Z :=
  let* deleted := try (merkletrie.Delete deleteHash) in
  match deleted with
  | Err _ => fail (Errorf failure)
  | Ok false => logf LogError failure [deleteHash];; ret accumulatedChanges
  | Ok true => ret (accumulatedChanges + 1)
  end.

Definition trie_add (addHash : Digest) (failure : string) (accumulatedChanges : Z)
    : ST Sys Z :=
  let* added := try (merkletrie.Add addHash) in
  match added with
  | Err _ => fail (Errorf failure)
  | Ok false => logf LogError failure [addHash];; ret accumulatedChanges
  | Ok true => ret (accumulatedChanges + 1)
  end.

(** [for ... { body }] with the running count. *)
Fixpoint for_count {A} (xs : list A) (body : A -> Z -> ST Sys Z) (count : Z) : ST Sys Z :=
  match xs with
  | [] => ret count
  | x :: rest => let* count := body x count in for_count rest body count
  end.

(** The body of the loop over the account deltas, lines 1083-1108. *)
Definition update_account (delta : accountDelta) (accumulatedChanges : Z) : ST Sys Z :=
  let* accumulatedChanges :=
    (if negb (BaseAccountData_IsEmpty (oldAcct delta)) then
       let deleteHash := AccountHashBuilderV6 (acct_address delta) (oldAcct delta) in
       trie_delete deleteHash
                   "failed to delete hash '%s' from merkle trie for account %v"
                   accumulatedChanges
     else ret accumulatedChanges) in
  if negb (BaseAccountData_IsEmpty (newAcct delta)) then
    let addHash := AccountHashBuilderV6 (acct_address delta) (newAcct delta) in
    trie_add addHash
             "attempted to add duplicate hash '%s' to merkle trie for account %v"
             accumulatedChanges
  else ret accumulatedChanges.

(** The body of the loop over the resource deltas, lines 1112-1144. *)
Definition update_resource (resDelta : resourceDelta) (accumulatedChanges : Z)
    : ST Sys Z :=
  let addr := res_address resDelta in
  let* accumulatedChanges :=
    (if negb (ResourcesData_IsEmpty (oldResource_Data resDelta)) then
       match ResourcesHashBuilderV6 (oldResource_Data resDelta) addr
               (oldResource_Aidx resDelta) (UpdateRound (oldResource_Data resDelta)) with
       | Err e => fail e
       | Ok deleteHash =>
           trie_delete deleteHash
                       "failed to delete resource hash '%s' from merkle trie for account %v"
                       accumulatedChanges
       end
     else ret accumulatedChanges) in
  if negb (ResourcesData_IsEmpty (newResource resDelta)) then
    match ResourcesHashBuilderV6 (newResource resDelta) addr
            (oldResource_Aidx resDelta) (UpdateRound (newResource resDelta)) with
    | Err e => fail e
    | Ok addHash =>
        trie_add addHash
                 "attempted to add duplicate resource hash '%s' to merkle trie for account %v"
                 accumulatedChanges
    end
  else ret accumulatedChanges.

(** The body of the loop over the KV deltas, lines 1148-1179; the flag
    says that the turn ended with [continue]. *)
Definition update_kv (kv : string * modifiedKvValue) (accumulatedChanges : Z)
    : ST Sys Z :=
  let '(key, mv) := kv in
  match oldData mv, data mv with
  | None, None => ret accumulatedChanges     (* Came and went within the delta span *)
  | _, _ =>
      let* (accumulatedChanges, continue) :=
        match oldData mv with
        | Some old =>
            if bool_decide (is_Some (data mv)) && bool_decide (Some old = data mv)
            then ret (accumulatedChanges, true)   (* changed back within the delta span *)
            else
              let deleteHash := KvHashBuilderV6 key old in
              let* n := trie_delete deleteHash
                          "failed to delete kv hash '%s' from merkle trie for key %v"
                          accumulatedChanges in
              ret (n, false)
        | None => ret (accumulatedChanges, false)
        end in
      if continue then ret accumulatedChanges
      else
        match data mv with
        | Some new =>
            let addHash := KvHashBuilderV6 key new in
            trie_add addHash
                     "attempted to add duplicate kv hash '%s' from merkle trie for key %v"
                     accumulatedChanges
        | None => ret accumulatedChanges
        end
  end.

(** [accountsUpdateBalances], lines 1076-1212.  [kvDeltas] is a Go map:
    the list is in the order in which [range] visits it. *)
Definition accountsUpdateBalances
    (accountsDeltas : list accountDelta) (resourcesDeltas : list resourceDelta)
    (kvDeltas : list (string * modifiedKvValue)) (oldBase newBase : Z) : ST Sys unit :=
  let* s := get in
  if negb (catchpointEnabled (tracker s)) then ret tt
  else
    let accumulatedChanges := 0 in
    let* accumulatedChanges := for_count accountsDeltas update_account accumulatedChanges in
    let* accumulatedChanges := for_count resourcesDeltas update_resource accumulatedChanges in
    let* accumulatedChanges := for_count kvDeltas update_kv accumulatedChanges in
    (* write it all to disk. *)
    let* commitErr :=
      (if accumulatedChanges >? 0 then try merkletrie.Commit else ret (Ok tt)) in
    (if telemetryEnabled s then
       let* root := try (RootHash RootHashOf) in
       match root with
       | Err _ =>
           logf LogError
                "accountsUpdateBalances: error retrieving balances trie root: %v" []
       | Ok root =>
           logf LogInfo "CatchpointRootUpdateEvent" [root; oldBase; newBase]
       end
     else ret tt);;
    match commitErr with
    | Err e => fail e
    | Ok _ => ret tt
    end.

End TrieMaintainer.

(** What the specification says of the scheduler, in its own words. *)

(** A first-stage round of the window: [r] lies between
    [max(oldBase+1, reenableCatchpointsRound - catchpointLookback)] and
    [oldBase + offset], and [r + catchpointLookback] is a multiple of the
    interval. *)
Definition isFirstStageRound
    (oldBase offset reenableCatchpointsRound catchpointInterval catchpointLookback r : Z)
    : Prop :=
  Z.max (oldBase + 1) (reenableCatchpointsRound - catchpointLookback) <= r
  /\ r <= oldBase + offset
  /\ (r + catchpointLookback) mod catchpointInterval = 0.

(** The stage-1 decision as the specification states it. *)
Definition firstStageRounds_spec
    (oldBase offset reenableCatchpointsRound catchpointInterval catchpointLookback : Z)
    : Prop :=
  let isRound :=
    isFirstStageRound oldBase offset reenableCatchpointsRound catchpointInterval
                      catchpointLookback in
  exists has multiple newOffset,
    Scheduler.calculateFirstStageRounds
      oldBase offset reenableCatchpointsRound catchpointInterval catchpointLookback
    = Returns (has, multiple, newOffset)
    /\ (has = true <-> exists r, isRound r)
    /\ (has = true ->
        exists rlast, isRound rlast /\ (forall r, isRound r -> r <= rlast)
                      /\ newOffset = rlast - oldBase)
    /\ (multiple = true <-> exists r1 r2, r1 <> r2 /\ isRound r1 /\ isRound r2).

(** The 64-bit computation of [calculateFirstStageRounds] does not overflow. *)
Definition firstStageRounds_in_range
    (oldBase offset reenableCatchpointsRound catchpointInterval catchpointLookback : Z)
    : Prop :=
  0 <= oldBase /\ 0 <= offset /\ 0 <= reenableCatchpointsRound
  /\ 0 < catchpointInterval /\ 0 <= catchpointLookback
  /\ oldBase + offset + catchpointLookback + catchpointInterval < 2 ^ 63
  /\ reenableCatchpointsRound + catchpointInterval < 2 ^ 63.

(** The stage-2 enumeration as the specification states it: with enough fuel
    the call returns the multiples of the interval in [[min, max]], in
    increasing order. *)
Definition catchpointRounds_spec (min max catchpointInterval : Z) : Prop :=
  exists res fuel0,
    (forall fuel, (fuel0 <= fuel)%nat ->
       Scheduler.calculateCatchpointRounds fuel min max catchpointInterval = Returns res)
    /\ StronglySorted Z.lt res
    /\ (forall x, x ∈ res <-> min <= x <= max /\ x mod catchpointInterval = 0)
    /\ ((~ exists x, min <= x <= max /\ x mod catchpointInterval = 0) -> res = []).

Arguments acct_address {Address BaseAccountData} _.
Arguments oldAcct {Address BaseAccountData} _.
Arguments newAcct {Address BaseAccountData} _.
Arguments res_address {Address ResourcesData} _.
Arguments oldResource_Aidx {Address ResourcesData} _.
Arguments oldResource_Data {Address ResourcesData} _.
Arguments newResource {Address ResourcesData} _.
Arguments update_account {Address BaseAccountData} _ _ _ _.
Arguments update_resource {Address ResourcesData} _ _ _ _ _.
Arguments accountsUpdateBalances {Address BaseAccountData ResourcesData} _ _ _ _ _ _ _ _ _ _ _ _.

(** What the specification says of the trie maintainer: the deletes and adds
    that a set of deltas asks for. *)

Inductive TrieOp : Type :=
| OpDelete (d : Digest)
| OpAdd (d : Digest).

Section ExpectedOps.

Context {Address BaseAccountData ResourcesData : Type}.
Variable BaseAccountData_IsEmpty : BaseAccountData -> bool.
Variable ResourcesData_IsEmpty : ResourcesData -> bool.
Variable UpdateRound : ResourcesData -> Z.
Variable AccountHashBuilderV6 : Address -> BaseAccountData -> Digest.
Variable ResourcesHashBuilderV6 : ResourcesData -> Address -> Z -> Z -> res Digest.
Variable KvHashBuilderV6 : string -> list byte -> Digest.

(** Delete the old hash if the old value is not empty, add the new hash if
    the new value is not empty. *)
Definition account_ops (delta : accountDelta Address BaseAccountData) : list TrieOp :=
  (if BaseAccountData_IsEmpty (oldAcct delta) then []
   else [OpDelete (AccountHashBuilderV6 (acct_address delta) (oldAcct delta))])
  ++ (if BaseAccountData_IsEmpty (newAcct delta) then []
      else [OpAdd (AccountHashBuilderV6 (acct_address delta) (newAcct delta))]).

Definition hash_or_zero (r : res Digest) : Digest :=
  match r with Ok d => d | Err _ => 0 end.

Definition resource_ops (delta : resourceDelta Address ResourcesData) : list TrieOp :=
  (if ResourcesData_IsEmpty (oldResource_Data delta) then []
   else [OpDelete (hash_or_zero
                     (ResourcesHashBuilderV6 (oldResource_Data delta) (res_address delta)
                        (oldResource_Aidx delta) (UpdateRound (oldResource_Data delta))))])
  ++ (if ResourcesData_IsEmpty (newResource delta) then []
      else [OpAdd (hash_or_zero
                     (ResourcesHashBuilderV6 (newResource delta) (res_address delta)
                        (oldResource_Aidx delta) (UpdateRound (newResource delta))))]).

(** The hash builder of the resources can fail; the deltas for which it
    does not. *)
Definition resource_hashable (delta : resourceDelta Address ResourcesData) : Prop :=
  (ResourcesData_IsEmpty (oldResource_Data delta) = false ->
   exists d, ResourcesHashBuilderV6 (oldResource_Data delta) (res_address delta)
               (oldResource_Aidx delta) (UpdateRound (oldResource_Data delta)) = Ok d)
  /\ (ResourcesData_IsEmpty (newResource delta) = false ->
      exists d, ResourcesHashBuilderV6 (newResource delta) (res_address delta)
                  (oldResource_Aidx delta) (UpdateRound (newResource delta)) = Ok d).

(** A KV delta whose payloads are byte-equal, or both absent, asks for
    nothing. *)
Definition kv_ops (kv : string * modifiedKvValue) : list TrieOp :=
  match oldData kv.2, data kv.2 with
  | None, None => []
  | Some old, Some new =>
      if decide (old = new) then []
      else [OpDelete (KvHashBuilderV6 kv.1 old); OpAdd (KvHashBuilderV6 kv.1 new)]
  | Some old, None => [OpDelete (KvHashBuilderV6 kv.1 old)]
  | None, Some new => [OpAdd (KvHashBuilderV6 kv.1 new)]
  end.

Definition expected_ops
    (accountsDeltas : list (accountDelta Address BaseAccountData))
    (resourcesDeltas : list (resourceDelta Address ResourcesData))
    (kvDeltas : list (string * modifiedKvValue)) : list TrieOp :=
  concat (account_ops <$> accountsDeltas)
  ++ concat (resource_ops <$> resourcesDeltas)
  ++ concat (kv_ops <$> kvDeltas).

End ExpectedOps.

(** A call on the trie as the operation it performs, whether it changed the
    trie, and the digest it was about. *)
Definition call_op (c : TrieCall) : option TrieOp :=
  match c with
  | CallAdd d _ => Some (OpAdd d)
  | CallDelete d _ => Some (OpDelete d)
  | CallCommit => None
  end.

Definition call_changed (c : TrieCall) : bool :=
  match c with
  | CallAdd _ b | CallDelete _ b => b
  | CallCommit => false
  end.

Definition call_digest (c : TrieCall) : Digest :=
  match c with
  | CallAdd d _ | CallDelete d _ => d
  | CallCommit => 0
  end.

(** What a run of trie calls has done between [s] and [s'], the count of
    changes going from [n] to [n']: it made the calls [calls], none of them a
    commit, counted those that changed the trie, and logged an error line
    with the digest for each of the others. *)
Definition trie_steps (s : Sys) (n : Z) (s' : Sys) (n' : Z) (calls : list TrieCall) : Prop :=
  trieCalls s' = trieCalls s ++ calls
  /\ Forall (fun c => c <> CallCommit) calls
  /\ n' = n + len (filter (fun c => call_changed c = true) calls)
  /\ exists newlogs,
      logs s' = logs s ++ newlogs
      /\ Forall (fun e => log_level e = LogError) newlogs
      /\ (log_args <$> newlogs)
         = ((fun c => [call_digest c]) <$> filter (fun c => call_changed c = false) calls).

(** What the specification says of the label and the archive. *)

(** The file version that the consensus flags select; none when online
    accounts are enabled without state-proof contexts. *)
Definition selected_version (params : ConsensusParams) : option Z :=
  match EnableCatchpointsWithOnlineAccounts params, EnableCatchpointsWithSPContexts params with
  | true, true => Some CatchpointFileVersionV8
  | true, false => None
  | false, true => Some CatchpointFileVersionV7
  | false, false => Some CatchpointFileVersionV6
  end.

(** The label maker that the consensus flags select, with what the maker of
    each version is made of. *)
Definition selected_maker (params : ConsensusParams) (round : Z) (blockHash : Digest)
    (dataInfo : trackerdb.CatchpointFirstStageInfo) : option CatchpointLabelMaker :=
  match EnableCatchpointsWithOnlineAccounts params, EnableCatchpointsWithSPContexts params with
  | true, true =>
      Some (CatchpointLabelMakerCurrent
              round blockHash (trackerdb.TrieBalancesHash dataInfo) (trackerdb.Totals dataInfo)
              (trackerdb.StateProofVerificationHash dataInfo)
              (trackerdb.OnlineAccountsHash dataInfo)
              (trackerdb.OnlineRoundParamsHash dataInfo))
  | true, false => None
  | false, true =>
      Some (CatchpointLabelMakerV7
              round blockHash (trackerdb.TrieBalancesHash dataInfo) (trackerdb.Totals dataInfo)
              (trackerdb.StateProofVerificationHash dataInfo))
  | false, false =>
      Some (CatchpointLabelMakerV6
              round blockHash (trackerdb.TrieBalancesHash dataInfo) (trackerdb.Totals dataInfo))
  end.

(** The header of the archive for a version and a label. *)
Definition archive_header (version : Z) (label : string) (accountsRound round : Z)
    (dataInfo : trackerdb.CatchpointFirstStageInfo) (blockHash : Digest)
    : CatchpointFileHeader :=
  {| Version := version;
     BalancesRound := accountsRound;
     BlocksRound := round;
     Totals := trackerdb.Totals dataInfo;
     TotalAccounts := trackerdb.TotalAccounts dataInfo;
     TotalKVs := trackerdb.TotalKVs dataInfo;
     TotalOnlineAccounts := trackerdb.TotalOnlineAccounts dataInfo;
     TotalOnlineRoundParams := trackerdb.TotalOnlineRoundParams dataInfo;
     TotalChunks := trackerdb.TotalChunks dataInfo;
     Catchpoint := label;
     BlockHeaderDigest := blockHash |}.

(** The path of the first-stage data file of a round, and the path of the
    archive of a round, under the two directories of the tracker. *)
Definition data_file_path (ct : catchpointTracker) (accountsRound : Z) : string :=
  filepath_Join (filepath_Join (tmpDir ct) trackerdb.CatchpointDirName)
                (makeCatchpointDataFilePath accountsRound).

Definition archive_rel_path (MakeCatchpointFilePath : Z -> string) (round : Z) : string :=
  filepath_Join trackerdb.CatchpointDirName (MakeCatchpointFilePath round).

Definition archive_path (MakeCatchpointFilePath : Z -> string) (ct : catchpointTracker)
    (round : Z) : string :=
  filepath_Join (dbDirectory ct) (archive_rel_path MakeCatchpointFilePath round).

(** Two states that differ at most in what is left of the fault schedule. *)
Definition same_but_faults (s s' : Sys) : Prop :=
  tracker s' = tracker s /\ db s' = db s /\ files s' = files s
  /\ logs s' = logs s /\ trieCalls s' = trieCalls s
  /\ telemetryEnabled s' = telemetryEnabled s.

(** No file of [s'] is new or changed with respect to [s]. *)
Definition files_only_removed (s s' : Sys) : Prop :=
  forall path f, files s' !! path = Some f -> files s !! path = Some f.

(** Between [s] and [s'] the registry of catchpoint files may have changed
    and files may have been removed; the tracker, the other tables and the
    trie are as they were. *)
Definition registry_step (s s' : Sys) : Prop :=
  tracker s' = tracker s
  /\ trieCalls s' = trieCalls s
  /\ files_only_removed s s'
  /\ exists m, db s' = trackerdb.set_catchpointFiles (fun _ => m) (db s).

(** The state once the label is written: the label is in the database and
    in the tracker, and nothing else has changed but the log. *)
Definition label_written (label : string) (s s3 : Sys) : Prop :=
  tracker s3 = set_lastCatchpointLabel label (tracker s)
  /\ db s3 = trackerdb.set_catchpointStateString
               (insert trackerdb.CatchpointStateLastCatchpoint label) (db s)
  /\ files s3 = files s
  /\ trieCalls s3 = trieCalls s.

(** The unfinished markers and the registry of files are as they were. *)
Definition markers_kept (s s' : Sys) : Prop :=
  trackerdb.unfinishedCatchpoints (db s') = trackerdb.unfinishedCatchpoints (db s)
  /\ trackerdb.catchpointFiles (db s') = trackerdb.catchpointFiles (db s).

(** The value of the [WritingFirstStageInfo] state; a slot that was never
    written reads as 0. *)
Definition writing_first_stage (d : trackerdb.Store) : Z :=
  default 0 (trackerdb.catchpointStateUint64 d
               !! trackerdb.CatchpointStateWritingFirstStageInfo).

(** The database [d] with the first-stage record of [dbRound] stored and
    the [WritingFirstStageInfo] state at 0, and no other change. *)
Definition first_stage_recorded (dbRound : Z) (info : trackerdb.CatchpointFirstStageInfo)
    (d : trackerdb.Store) : trackerdb.Store :=
  trackerdb.set_catchpointStateUint64
    (insert trackerdb.CatchpointStateWritingFirstStageInfo 0)
    (trackerdb.set_firstStageInfo (insert dbRound info) d).

(** The data file that an interrupted first stage of [dbRound] may have
    left. *)
Definition stale_data_file (ct : catchpointTracker) (dbRound : Z) : string :=
  filepath_Join (tmpDir ct)
    (filepath_Join trackerdb.CatchpointDirName (makeCatchpointDataFilePath dbRound)).

(** [m] returns without an error whenever no call to the environment
    fails, and then none is left to fail. *)
Definition runs {A} (m : ST Sys A) : Prop :=
  forall s, sys_faults s = [] ->
            exists s1 a, m s = (s1, Ok a) /\ sys_faults s1 = [].

(** No row of the registry of [s'] is new or changed with respect to
    [s]. *)
Definition rows_only_removed (s s' : Sys) : Prop :=
  forall round row,
    trackerdb.catchpointFiles (db s') !! round = Some row ->
    trackerdb.catchpointFiles (db s) !! round = Some row.

(** The errors that come from a failed call to the environment: the
    failure itself, or a message wrapped around it. *)
Definition is_failure (e : error) : Prop :=
  match e with
  | ErrFault _ | Errorf _ => True
  | _ => False
  end.

(** Every error that [m] returns is such a failure. *)
Definition fails_by_failure {A} (m : ST Sys A) : Prop :=
  forall s s' e, m s = (s', Err e) -> is_failure e.

(** Nothing fails around the trie: the fault schedule is empty and the
    tracker holds a trie. *)
Definition trie_ready (s : Sys) : Prop :=
  faults s = [] /\ is_Some (balancesTrie (tracker s)).

(** What a successful [accountsUpdateBalances] has done between [s] and
    [s']: it made the calls [calls] on the trie, one for each expected
    operation and in their order; it logged an error line for each call that
    returned false, and after those at most the one line of the telemetry;
    and it invoked [Commit], once and last, iff one of the calls changed the
    trie. *)
Definition balances_updated (s s' : Sys) (expected : list TrieOp) : Prop :=
  exists calls oplogs telemetry,
    trieCalls s'
    = trieCalls s ++ calls ++ (if existsb call_changed calls then [CallCommit] else [])
    /\ Forall (fun c => c <> CallCommit) calls
    /\ omap call_op calls = expected
    /\ logs s' = logs s ++ oplogs ++ telemetry
    /\ Forall (fun e => log_level e = LogError) oplogs
    /\ (log_args <$> oplogs)
       = ((fun c => [call_digest c]) <$> filter (fun c => call_changed c = false) calls)
    /\ (length telemetry <= 1)%nat.

(** What the specification says of the repacker. *)

(** The first entry of every archive: the encoded header under the name
    [content.msgpack]. *)
Definition content_entry (Encode : CatchpointFileHeader -> list byte)
    (header : CatchpointFileHeader) : TarEntry :=
  {| entry_header := {| Name := CatchpointContentFileName; Mode := 384;
                        Size := len (Encode header) |};
     entry_data := Encode header |}.

(** The number of bytes that [io.ReadAtLeast] reads of an entry into a
    buffer of [bufLen] bytes. *)
Definition bytes_read (bufLen : Z) (e : TarEntry) : Z :=
  if 0 <? Size (entry_header e) then Z.min bufLen (len (entry_data e)) else 0.

(** An entry as the repacker writes it: the header as it is, and the first
    [Size] bytes; for a well-formed entry that is the entry itself. *)
Definition copied (e : TarEntry) : TarEntry :=
  {| entry_header := entry_header e;
     entry_data := slice_to (Size (entry_header e)) (entry_data e) |}.

(** ** Concrete inputs for the examples *)

Module Example.

Definition header : CatchpointFileHeader :=
  {| Version := CatchpointFileVersionV7; BalancesRound := 80; BlocksRound := 400;
     Totals := 0; TotalAccounts := 2; TotalKVs := 1; TotalOnlineAccounts := 0;
     TotalOnlineRoundParams := 0; TotalChunks := 1; Catchpoint := "400#LABEL";
     BlockHeaderDigest := 7 |}.

(** A stand-in for the canonical encoding: the version byte and the
    number of chunks. *)
Definition Encode (h : CatchpointFileHeader) : list byte :=
  [ default Byte.x00 (Byte.of_N (Z.to_N (Version h)));
    default Byte.x00 (Byte.of_N (Z.to_N (TotalChunks h))) ].

Definition sp_entry : TarEntry :=
  {| entry_header := {| Name := catchpointSPVerificationFileName; Mode := 384; Size := 2 |};
     entry_data := [Byte.x0a; Byte.x0b] |}.

Definition balances_entry : TarEntry :=
  {| entry_header := {| Name := "balances.0.msgpack"; Mode := 384; Size := 3 |};
     entry_data := [Byte.x01; Byte.x02; Byte.x03] |}.

(** An entry whose reader yields two bytes where the header declares
    three. *)
Definition short_entry : TarEntry :=
  {| entry_header := {| Name := "balances.1.msgpack"; Mode := 384; Size := 3 |};
     entry_data := [Byte.x01; Byte.x02] |}.

Definition stage1_stream : RepackIO :=
  {| tin := {| upcoming := [sp_entry; balances_entry]; unread := []; stream_end := None |};
     tout := {| written := [] |};
     io_faults := [] |}.

(** A tracker that generates catchpoint files every 100 rounds and keeps
    all of them, over an empty database. *)
Definition ct : catchpointTracker :=
  {| tmpDir := "hot"; dbDirectory := "cold";
     catchpointInterval := 100;
     catchpointFileHistoryLength := -1;
     enableGeneratingCatchpointFiles := true;
     lastCatchpointLabel := "";
     catchpointDataSlowWriting := true;
     catchpointDataWriting := 0;
     balancesTrie := Some {| trie_elems := ∅ |};
     roundDigest := [];
     consensusVersion := [];
     reenableCatchpointsRound := 200;
     forceCatchpointFileWriting := false;
     cachedDBRound := 80 |}.

Definition with_interval (v : Z) (t : catchpointTracker) : catchpointTracker :=
  {| tmpDir := tmpDir t; dbDirectory := dbDirectory t;
     catchpointInterval := v;
     catchpointFileHistoryLength := catchpointFileHistoryLength t;
     enableGeneratingCatchpointFiles := enableGeneratingCatchpointFiles t;
     lastCatchpointLabel := lastCatchpointLabel t;
     catchpointDataSlowWriting := catchpointDataSlowWriting t;
     catchpointDataWriting := catchpointDataWriting t;
     balancesTrie := balancesTrie t;
     roundDigest := roundDigest t; consensusVersion := consensusVersion t;
     reenableCatchpointsRound := reenableCatchpointsRound t;
     forceCatchpointFileWriting := forceCatchpointFileWriting t;
     cachedDBRound := cachedDBRound t |}.

Definition with_history (v : Z) (t : catchpointTracker) : catchpointTracker :=
  {| tmpDir := tmpDir t; dbDirectory := dbDirectory t;
     catchpointInterval := catchpointInterval t;
     catchpointFileHistoryLength := v;
     enableGeneratingCatchpointFiles := enableGeneratingCatchpointFiles t;
     lastCatchpointLabel := lastCatchpointLabel t;
     catchpointDataSlowWriting := catchpointDataSlowWriting t;
     catchpointDataWriting := catchpointDataWriting t;
     balancesTrie := balancesTrie t;
     roundDigest := roundDigest t; consensusVersion := consensusVersion t;
     reenableCatchpointsRound := reenableCatchpointsRound t;
     forceCatchpointFileWriting := forceCatchpointFileWriting t;
     cachedDBRound := cachedDBRound t |}.

Definition with_generating (v : bool) (t : catchpointTracker) : catchpointTracker :=
  {| tmpDir := tmpDir t; dbDirectory := dbDirectory t;
     catchpointInterval := catchpointInterval t;
     catchpointFileHistoryLength := catchpointFileHistoryLength t;
     enableGeneratingCatchpointFiles := v;
     lastCatchpointLabel := lastCatchpointLabel t;
     catchpointDataSlowWriting := catchpointDataSlowWriting t;
     catchpointDataWriting := catchpointDataWriting t;
     balancesTrie := balancesTrie t;
     roundDigest := roundDigest t; consensusVersion := consensusVersion t;
     reenableCatchpointsRound := reenableCatchpointsRound t;
     forceCatchpointFileWriting := forceCatchpointFileWriting t;
     cachedDBRound := cachedDBRound t |}.

Definition store : trackerdb.Store :=
  {| trackerdb.catchpointStateUint64 := ∅;
     trackerdb.catchpointStateString := ∅;
     trackerdb.firstStageInfo := ∅;
     trackerdb.unfinishedCatchpoints := ∅;
     trackerdb.catchpointFiles := ∅;
     trackerdb.accountsTotals := 0;
     trackerdb.spContexts := [];
     trackerdb.onlineAccounts := [];
     trackerdb.onlineRoundParams := [];
     trackerdb.merkleTrie := ∅ |}.

Definition sys : Sys :=
  {| tracker := ct; db := store; files := ∅; logs := [];
     telemetryEnabled := false; trieCalls := []; sys_faults := [] |}.

Definition dcr : DCR.deferredCommitRange :=
  {| DCR.oldBase := 0; DCR.offset := 500; DCR.catchpointLookback := 320;
     DCR.catchpointFirstStage := false;
     DCR.enableGeneratingCatchpointFiles := false;
     DCR.catchpointSecondStage := false |}.

(** Stand-ins for what the tracker takes from other packages. *)
Definition Consensus (proto : string) : ConsensusParams :=
  if decide (proto = "v8") then
    {| EnableCatchpointsWithSPContexts := true; EnableCatchpointsWithOnlineAccounts := true |}
  else if decide (proto = "v7") then
    {| EnableCatchpointsWithSPContexts := true; EnableCatchpointsWithOnlineAccounts := false |}
  else if decide (proto = "online-only") then
    {| EnableCatchpointsWithSPContexts := false; EnableCatchpointsWithOnlineAccounts := true |}
  else
    {| EnableCatchpointsWithSPContexts := false; EnableCatchpointsWithOnlineAccounts := false |}.

Definition MakeLabel (maker : CatchpointLabelMaker) : string :=
  match maker with
  | CatchpointLabelMakerV6 round _ _ _ => pretty round +:+ "#V6"
  | CatchpointLabelMakerV7 round _ _ _ _ => pretty round +:+ "#V7"
  | CatchpointLabelMakerCurrent round _ _ _ _ _ _ => pretty round +:+ "#V8"
  end.

Definition MakeCatchpointFilePath (round : Z) : string := pretty round +:+ ".catchpoint".
Definition FileSize (f : File) : Z := len (file_entries f).
Definition EncodeAndHash (raw : list byte) : Digest * list byte := (len raw, raw).
Definition calculateVerificationHash (rows : list byte) : Digest := len rows.
Definition writerChunks (d : trackerdb.Store) : list TarEntry := [balances_entry].
Definition writerTotals (d : trackerdb.Store) : Z * Z * Z * Z := (2, 1, 0, 0).

(** The first-stage record of round 80 and its data file. *)
Definition dataInfo : trackerdb.CatchpointFirstStageInfo :=
  {| trackerdb.Totals := 0; trackerdb.TotalAccounts := 2; trackerdb.TotalKVs := 1;
     trackerdb.TotalOnlineAccounts := 0; trackerdb.TotalOnlineRoundParams := 0;
     trackerdb.TotalChunks := 1; trackerdb.BiggestChunkLen := 3;
     trackerdb.TrieBalancesHash := 11; trackerdb.StateProofVerificationHash := 12;
     trackerdb.OnlineAccountsHash := 13; trackerdb.OnlineRoundParamsHash := 14 |}.

Definition data_file : File :=
  {| file_entries := [sp_entry; balances_entry]; file_end := None |}.

(** The system at round 400: the first stage of round 80 is on record and
    on disk, and the catchpoint of round 400 is marked unfinished. *)
Definition sys400 : Sys :=
  set_files (insert "hot/catchpoints/80.data" data_file)
    (set_db (fun d => trackerdb.set_firstStageInfo (insert 80 dataInfo)
                        (trackerdb.set_unfinishedCatchpoints (insert 400 7) d))
            sys).

(** The same node with the generation of catchpoint files switched off. *)
Definition sys400_labels_only : Sys := set_tracker (with_generating false) sys400.

(** A node that keeps no catchpoint file ([catchpointFileHistoryLength] is
    0) and whose registry still lists the rounds 100, 200 and 300; none of
    the three files is on disk. *)
Definition sys_registry : Sys :=
  set_tracker (with_history 0)
    (set_db (trackerdb.set_catchpointFiles
               (fun _ => {[ 100 := ("catchpoints/100.catchpoint", 3);
                            200 := ("catchpoints/200.catchpoint", 3);
                            300 := ("catchpoints/300.catchpoint", 3) ]}))
            sys).

(** A node that went down while the first stage of round 80 was being
    written: the flag is up and half a data file is on disk. *)
Definition sys_interrupted : Sys :=
  set_files (insert "hot/catchpoints/80.data"
               {| file_entries := [short_entry]; file_end := Some ErrUnexpectedEOF |})
    (set_db (trackerdb.set_catchpointStateUint64
               (insert trackerdb.CatchpointStateWritingFirstStageInfo 1))
            sys).

(** Accounts, resources and key-value pairs for the trie maintainer:
    records are numbers, 0 is the empty record, and the hash builders are
    injective enough to tell the calls apart. *)
Definition IsEmpty (d : Z) : bool := d =? 0.
Definition UpdateRound (d : Z) : Z := d.
Definition AccountHash (addr d : Z) : Digest := addr * 1000 + d.
Definition ResourceHash (d addr aidx updateRound : Z) : res Digest :=
  Ok (addr * 1000000 + aidx * 1000 + d).
Definition KvHash (key : string) (value : list byte) : Digest :=
  Z.of_nat (String.length key) * 1000 + len value.
Definition RootHashOf (elems : gset Digest) : Digest := len (elements elems).

(** The account 7 goes from the record 1 to the record 2. *)
Definition account_delta : accountDelta Z Z :=
  {| acct_address := 7; oldAcct := 1; newAcct := 2 |}.

(** A key that is created, and a key that came back to its value. *)
Definition kv_created : string * modifiedKvValue :=
  ("k1", {| data := Some [Byte.x01]; oldData := None |}).
Definition kv_unchanged : string * modifiedKvValue :=
  ("k2", {| data := Some [Byte.x02]; oldData := Some [Byte.x02] |}).

End Example.

(* ================================================================== *)
(** * The rest of the commit cycle *)

(** ** More of the tracker's memory *)

Definition set_roundDigest (v : list Digest) (t : catchpointTracker) : catchpointTracker :=
  {| tmpDir := tmpDir t; dbDirectory := dbDirectory t;
     catchpointInterval := catchpointInterval t;
     catchpointFileHistoryLength := catchpointFileHistoryLength t;
     enableGeneratingCatchpointFiles := enableGeneratingCatchpointFiles t;
     lastCatchpointLabel := lastCatchpointLabel t;
     catchpointDataSlowWriting := catchpointDataSlowWriting t;
     catchpointDataWriting := catchpointDataWriting t;
     balancesTrie := balancesTrie t;
     roundDigest := v; consensusVersion := consensusVersion t;
     reenableCatchpointsRound := reenableCatchpointsRound t;
     forceCatchpointFileWriting := forceCatchpointFileWriting t;
     cachedDBRound := cachedDBRound t |}.

Definition set_consensusVersion (v : list string) (t : catchpointTracker)
    : catchpointTracker :=
  {| tmpDir := tmpDir t; dbDirectory := dbDirectory t;
     catchpointInterval := catchpointInterval t;
     catchpointFileHistoryLength := catchpointFileHistoryLength t;
     enableGeneratingCatchpointFiles := enableGeneratingCatchpointFiles t;
     lastCatchpointLabel := lastCatchpointLabel t;
     catchpointDataSlowWriting := catchpointDataSlowWriting t;
     catchpointDataWriting := catchpointDataWriting t;
     balancesTrie := balancesTrie t;
     roundDigest := roundDigest t; consensusVersion := v;
     reenableCatchpointsRound := reenableCatchpointsRound t;
     forceCatchpointFileWriting := forceCatchpointFileWriting t;
     cachedDBRound := cachedDBRound t |}.

Definition set_reenableCatchpointsRound (v : Z) (t : catchpointTracker)
    : catchpointTracker :=
  {| tmpDir := tmpDir t; dbDirectory := dbDirectory t;
     catchpointInterval := catchpointInterval t;
     catchpointFileHistoryLength := catchpointFileHistoryLength t;
     enableGeneratingCatchpointFiles := enableGeneratingCatchpointFiles t;
     lastCatchpointLabel := lastCatchpointLabel t;
     catchpointDataSlowWriting := catchpointDataSlowWriting t;
     catchpointDataWriting := catchpointDataWriting t;
     balancesTrie := balancesTrie t;
     roundDigest := roundDigest t; consensusVersion := consensusVersion t;
     reenableCatchpointsRound := v;
     forceCatchpointFileWriting := forceCatchpointFileWriting t;
     cachedDBRound := cachedDBRound t |}.

Definition set_cachedDBRound (v : Z) (t : catchpointTracker) : catchpointTracker :=
  {| tmpDir := tmpDir t; dbDirectory := dbDirectory t;
     catchpointInterval := catchpointInterval t;
     catchpointFileHistoryLength := catchpointFileHistoryLength t;
     enableGeneratingCatchpointFiles := enableGeneratingCatchpointFiles t;
     lastCatchpointLabel := lastCatchpointLabel t;
     catchpointDataSlowWriting := catchpointDataSlowWriting t;
     catchpointDataWriting := catchpointDataWriting t;
     balancesTrie := balancesTrie t;
     roundDigest := roundDigest t; consensusVersion := consensusVersion t;
     reenableCatchpointsRound := reenableCatchpointsRound t;
     forceCatchpointFileWriting := forceCatchpointFileWriting t;
     cachedDBRound := v |}.

(** [GetLastCatchpointLabel], lines 209-213. *)
Definition GetLastCatchpointLabel : ST Sys string :=
  gets (fun s => lastCatchpointLabel (tracker s)).

(** ** Configuration *)

(** [config.Local] and [DirsAndPrefix], the fields that [initialize]
    reads. *)
Record config_Local : Type := {
  CatchpointInterval : Z;             (* uint64 *)
  CatchpointTracking : Z;             (* int64 *)
  CatchpointFileHistoryLength : Z;    (* int *)
}.

Record DirsAndPrefix : Type := {
  CatchpointGenesisDir : string;
  HotGenesisDir : string;
}.

Section Initialize.

(** The two methods of [config.Local] and the constant of the tracking
    modes belong to other files. *)
Variable TracksCatchpoints : config_Local -> bool.
Variable StoresCatchpoints : config_Local -> bool.
Variable forceCatchpointFileGenerationTrackingMode : Z.

(** [initialize], lines 184-206. *)
Definition initialize (cfg : config_Local) (paths : DirsAndPrefix) : ST Sys unit :=
  modify (set_tracker (fun ct =>
    let force :=
      (CatchpointTracking cfg =? forceCatchpointFileGenerationTrackingMode)
      && (CatchpointInterval cfg >? 0) in
    {| tmpDir := HotGenesisDir paths;
       dbDirectory := CatchpointGenesisDir paths;
       catchpointInterval :=
         if force then CatchpointInterval cfg
         else if TracksCatchpoints cfg then CatchpointInterval cfg
         else catchpointInterval ct;
       catchpointFileHistoryLength :=
         if CatchpointFileHistoryLength cfg <? -1 then -1
         else CatchpointFileHistoryLength cfg;
       enableGeneratingCatchpointFiles := if force then true else StoresCatchpoints cfg;
       lastCatchpointLabel := lastCatchpointLabel ct;
       catchpointDataSlowWriting := catchpointDataSlowWriting ct;
       catchpointDataWriting := catchpointDataWriting ct;
       balancesTrie := balancesTrie ct;
       roundDigest := roundDigest ct; consensusVersion := consensusVersion ct;
       reenableCatchpointsRound := reenableCatchpointsRound ct;
       forceCatchpointFileWriting := if force then true else forceCatchpointFileWriting ct;
       cachedDBRound := cachedDBRound ct |})).

End Initialize.

(** ** Blocks *)

(** A block as [newBlock] reads it: [blk.Digest()], [blk.CurrentProtocol]
    and [blk.BlockHeader.Round]. *)
Record Block : Type := {
  blk_Digest : Digest;
  blk_CurrentProtocol : string;
  blk_Round : Z;
}.

Section Blocks.

Variable Consensus : string -> ConsensusParams.
(** [config.Consensus[proto].CatchpointLookback] and [.MaxBalLookback]. *)
Variable CatchpointLookback : string -> Z.
Variable MaxBalLookback : string -> Z.

(** [newBlock], lines 432-447; the state delta is not read. *)
Definition newBlock (blk : Block) : ST Sys unit :=
  modify (set_tracker (fun ct =>
    let ct := set_roundDigest (roundDigest ct ++ [blk_Digest blk]) ct in
    let ct := set_consensusVersion (consensusVersion ct ++ [blk_CurrentProtocol blk]) ct in
    if (EnableCatchpointsWithSPContexts (Consensus (blk_CurrentProtocol blk))
        || forceCatchpointFileWriting ct)
       && (reenableCatchpointsRound ct =? 0)
    then
      let catchpointLookback := CatchpointLookback (blk_CurrentProtocol blk) in
      let catchpointLookback :=
        if catchpointLookback =? 0 then MaxBalLookback (blk_CurrentProtocol blk)
        else catchpointLookback in
      set_reenableCatchpointsRound (Go.u64_add (blk_Round blk) catchpointLookback) ct
    else ct)).

End Blocks.

(** ** The commit context *)

(** [deferredCommitContext]: the range, and the two slices that
    [prepareCommit] fills.  The compacted deltas are passed beside it, their
    types being parameters; the statistics and the times are left out, no
    decision reads them. *)
Record deferredCommitContext : Type := {
  dcc_range : DCR.deferredCommitRange;
  committedRoundDigests : list Digest;
  committedProtocolVersion : list string;
}.

(** Modelled from the spec: [dcc.newBase()] is not among the sources; it is
    [oldBase + offset], the base after the commit (sections 4.6 and 4.8). *)
Definition newBase (r : DCR.deferredCommitRange) : Z :=
  Go.u64_add (DCR.oldBase r) (DCR.offset r).

(** [xs[i]] with an index of type [uint64]: the element, or the run-time
    panic. *)
Definition index {S A} (xs : list A) (i : Z) : ST S A :=
  match xs !! Z.to_nat i with
  | Some x => ret x
  | None => fail (Panicked "index out of range")
  end.

(** [copy(make([]T, n), xs[:n])] for [n] within the length of [xs].  Past
    the length Go goes by the capacity of the slice, which the model does
    not keep (a panic past the capacity, elements of the backing array
    below it): the model has no result there. *)
Definition copy_prefix {S A} (xs : list A) (n : Z) : ST S (list A) :=
  if n <=? len xs then ret (take (Z.to_nat n) xs) else fail Unfinished.

(** [xs = xs[n:]]: a panic past the length. *)
Definition drop_prefix {S A} (xs : list A) (n : Z) : ST S (list A) :=
  if n <=? len xs then ret (drop (Z.to_nat n) xs)
  else fail (Panicked "slice bounds out of range").

(** [prepareCommit], lines 555-570: the context as the call leaves it. *)
Definition prepareCommit (dcc : deferredCommitContext) : ST Sys deferredCommitContext :=
  let* s := get in
  let ct := tracker s in
  (if enableGeneratingCatchpointFiles ct && DCR.catchpointFirstStage (dcc_range dcc)
   then modify (set_tracker (set_catchpointDataWriting (-1)))
   else ret tt);;
  let* digests := copy_prefix (roundDigest ct) (DCR.offset (dcc_range dcc)) in
  let* versions := copy_prefix (consensusVersion ct) (DCR.offset (dcc_range dcc)) in
  ret {| dcc_range := dcc_range dcc;
         committedRoundDigests := digests;
         committedProtocolVersion := versions |}.

(** [postCommit], lines 657-676.  [Evict(false)] drops pages of the trie's
    cache and leaves what the trie holds. *)
Definition postCommit (dcc : deferredCommitContext) : ST Sys unit :=
  let* s := get in
  match balancesTrie (tracker s) with
  | Some _ =>
      let* evicted := try (external "Trie.Evict") in
      match evicted with
      | Err _ => logf LogWarn "merkle trie failed to evict: %v" []
      | Ok _ => ret tt
      end
  | None => ret tt
  end;;
  let* s := get in
  let* digests := drop_prefix (roundDigest (tracker s)) (DCR.offset (dcc_range dcc)) in
  modify (set_tracker (set_roundDigest digests));;
  let* versions := drop_prefix (consensusVersion (tracker s)) (DCR.offset (dcc_range dcc)) in
  modify (set_tracker (set_consensusVersion versions));;
  modify (set_tracker (set_cachedDBRound (newBase (dcc_range dcc)))).

(** [cancelWrite], lines 1057-1066. *)
Definition cancelWrite (dcc : deferredCommitContext) : ST Sys unit :=
  let* s := get in
  if enableGeneratingCatchpointFiles (tracker s) then
    if DCR.catchpointFirstStage (dcc_range dcc)
    then modify (set_tracker (set_catchpointDataWriting 0))
    else ret tt
  else ret tt.

(** [handleUnorderedCommit], lines 1028-1030, and
    [handlePrepareCommitError], lines 1033-1035. *)
Definition handleUnorderedCommit (dcc : deferredCommitContext) : ST Sys unit :=
  cancelWrite dcc.
Definition handlePrepareCommitError (dcc : deferredCommitContext) : ST Sys unit :=
  cancelWrite dcc.

(** [clearCommitRoundRetry], lines 1038-1043. *)
Definition clearCommitRoundRetry (dcc : deferredCommitContext) : ST Sys unit :=
  logf LogInfo "rolling back failed commitRound for oldBase %d offset %d, clearing balancesTrie"
       [DCR.oldBase (dcc_range dcc); DCR.offset (dcc_range dcc)];;
  modify (set_tracker (set_balancesTrie None)).

(** [handleCommitError], lines 1046-1055. *)
Definition handleCommitError (dcc : deferredCommitContext) : ST Sys unit :=
  modify (set_tracker (set_balancesTrie None));;
  cancelWrite dcc.

Section CommitRound.

Variables Address BaseAccountData ResourcesData : Type.
Variable BaseAccountData_IsEmpty : BaseAccountData -> bool.
Variable ResourcesData_IsEmpty : ResourcesData -> bool.
Variable UpdateRound : ResourcesData -> Z.
Variable AccountHashBuilderV6 : Address -> BaseAccountData -> Digest.
Variable ResourcesHashBuilderV6 : ResourcesData -> Address -> Z -> Z -> res Digest.
Variable KvHashBuilderV6 : string -> list byte -> Digest.
Variable RootHashOf : gset Digest -> Digest.

(** [commitRound], lines 572-655, up to its deferred function.  The hash
    round of the accounts writer is a row of the accounts tables, which are
    not among the tables of the model: the call is kept, what it writes is
    not. *)
Definition commitRound_body (fuel : nat) (dcc : deferredCommitContext)
    (accountsDeltas : list (accountDelta Address BaseAccountData))
    (resourcesDeltas : list (resourceDelta Address ResourcesData))
    (kvDeltas : list (string * modifiedKvValue)) : ST Sys unit :=
  let r := dcc_range dcc in
  external "MakeCatchpointWriter";;
  external "MakeAccountsWriter";;
  let* s := get in
  (if catchpointEnabled (tracker s) then
     external "MakeMerkleCommitter";;
     let* s := get in
     match balancesTrie (tracker s) with
     | None =>
         let* made := try merkletrie.MakeTrie in
         match made with
         | Err e =>
             logf LogWarn "unable to create merkle trie during committedUpTo: %v" [];;
             fail e
         | Ok trie => modify (set_tracker (set_balancesTrie (Some trie)))
         end
     | Some _ => ret tt   (* SetCommitter *)
     end
   else ret tt);;
  accountsUpdateBalances BaseAccountData_IsEmpty ResourcesData_IsEmpty UpdateRound
    AccountHashBuilderV6 ResourcesHashBuilderV6 KvHashBuilderV6 RootHashOf
    accountsDeltas resourcesDeltas kvDeltas (DCR.oldBase r) (newBase r);;
  external "UpdateAccountsHashRound";;
  (if DCR.catchpointFirstStage r
   then catchpointStore.WriteCatchpointStateUint64
          trackerdb.CatchpointStateWritingFirstStageInfo 1
   else ret tt);;
  catchpointStore.WriteCatchpointStateUint64
    trackerdb.CatchpointStateCatchpointLookback (DCR.catchpointLookback r);;
  let* s := get in
  let* rounds := of_outcome (ct_calculateCatchpointRounds fuel (tracker s) r) in
  for_each rounds (fun round =>
    let* digest := index (committedRoundDigests dcc)
                         (Go.u64_sub (Go.u64_sub round (DCR.oldBase r)) 1) in
    catchpointStore.InsertUnfinishedCatchpoint round digest).

(** [commitRound] with its deferred function: an error return of a
    first-stage commit on a tracker that generates files clears the
    sentinel.  A panic unwinds with [err] still nil. *)
Definition commitRound (fuel : nat) (dcc : deferredCommitContext)
    (accountsDeltas : list (accountDelta Address BaseAccountData))
    (resourcesDeltas : list (resourceDelta Address ResourcesData))
    (kvDeltas : list (string * modifiedKvValue)) : ST Sys unit :=
  fun s =>
    match commitRound_body fuel dcc accountsDeltas resourcesDeltas kvDeltas s with
    | (s', Err e) =>
        if negb (is_panic e) && DCR.catchpointFirstStage (dcc_range dcc)
           && enableGeneratingCatchpointFiles (tracker s')
        then (set_tracker (set_catchpointDataWriting 0) s', Err e)
        else (s', Err e)
    | (s', Ok u) => (s', Ok u)
    end.

End CommitRound.

Section Recovery.

Variable Consensus : string -> ConsensusParams.
Variable Encode : CatchpointFileHeader -> list byte.
Variable MakeLabel : CatchpointLabelMaker -> string.
Variable MakeCatchpointFilePath : Z -> string.
Variable FileSize : File -> Z.
Variable RootHashOf : gset Digest -> Digest.
Variable EncodeAndHash : list byte -> Digest * list byte.
Variable calculateVerificationHash : list byte -> Digest.
Variable writerChunks : trackerdb.Store -> list TarEntry.
Variable writerTotals : trackerdb.Store -> Z * Z * Z * Z.

(** [pruneFirstStageRecordsData], lines 974-990. *)
Definition pruneFirstStageRecordsData (maxRoundToDelete : Z) : ST Sys unit :=
  let* rounds := catchpointStore.SelectOldCatchpointFirstStageInfoRounds maxRoundToDelete in
  let* s := get in
  for_each rounds (fun round =>
    let relCatchpointDataFilePath :=
      filepath_Join trackerdb.CatchpointDirName (makeCatchpointDataFilePath round) in
    RemoveSingleCatchpointFileFromDisk (tmpDir (tracker s)) relCatchpointDataFilePath);;
  catchpointStore.DeleteOldCatchpointFirstStageInfo maxRoundToDelete.

(** [finishCatchpointsAfterCrash], lines 330-352. *)
Definition finishCatchpointsAfterCrash (blockProto : string) (catchpointLookback : Z)
    : ST Sys unit :=
  let* records := catchpointStore.SelectUnfinishedCatchpoints in
  for_each records (fun '(round, blockHash) =>
    (* First, delete the unfinished catchpoint file. *)
    let relCatchpointFilePath :=
      filepath_Join trackerdb.CatchpointDirName (MakeCatchpointFilePath round) in
    let* s := get in
    RemoveSingleCatchpointFileFromDisk (dbDirectory (tracker s)) relCatchpointFilePath;;
    finishCatchpoint Consensus Encode MakeLabel MakeCatchpointFilePath FileSize
      round blockHash blockProto catchpointLookback).

(** [recoverFromCrash], lines 354-383. *)
Definition recoverFromCrash (dbRound : Z) (blockProto : string) : ST Sys unit :=
  finishFirstStageAfterCrash Consensus RootHashOf EncodeAndHash calculateVerificationHash
    writerChunks writerTotals dbRound blockProto;;
  let* catchpointLookback :=
    catchpointStore.ReadCatchpointStateUint64 trackerdb.CatchpointStateCatchpointLookback in
  if negb (catchpointLookback =? 0) then
    finishCatchpointsAfterCrash blockProto catchpointLookback;;
    if dbRound >=? catchpointLookback
    then pruneFirstStageRecordsData (Go.u64_sub dbRound catchpointLookback)
    else ret tt
  else ret tt.

(** [postCommitUnlocked], lines 992-1025: every error is logged and
    dropped. *)
Definition postCommitUnlocked (fuel : nat) (dcc : deferredCommitContext) : ST Sys unit :=
  let r := dcc_range dcc in
  (if DCR.catchpointFirstStage r then
     let round := newBase r in
     let* blockProto := index (committedProtocolVersion dcc)
                              (Go.u64_sub (Go.u64_sub round (DCR.oldBase r)) 1) in
     let* err := try (finishFirstStage Consensus RootHashOf EncodeAndHash
                        calculateVerificationHash writerChunks writerTotals
                        round blockProto) in
     match err with
     | Err _ =>
         logf LogWarn "error finishing catchpoint's first stage dcc.newBase: %d err: %v"
              [newBase r]
     | Ok _ => ret tt
     end
   else ret tt);;
  (* Generate catchpoints for rounds in (dcc.oldBase, dcc.newBase]. *)
  let* s := get in
  let* rounds := of_outcome (ct_calculateCatchpointRounds fuel (tracker s) r) in
  for_each rounds (fun round =>
    let* blockHash := index (committedRoundDigests dcc)
                            (Go.u64_sub (Go.u64_sub round (DCR.oldBase r)) 1) in
    let* blockProto := index (committedProtocolVersion dcc)
                             (Go.u64_sub (Go.u64_sub round (DCR.oldBase r)) 1) in
    let* err := try (finishCatchpoint Consensus Encode MakeLabel MakeCatchpointFilePath
                       FileSize round blockHash blockProto (DCR.catchpointLookback r)) in
    match err with
    | Err _ => logf LogWarn "error creating catchpoint round: %d err: %v" [round]
    | Ok _ => ret tt
    end);;
  (* Prune first stage catchpoint records from the database. *)
  if newBase r >=? DCR.catchpointLookback r then
    let* err := try (pruneFirstStageRecordsData
                       (Go.u64_sub (newBase r) (DCR.catchpointLookback r))) in
    match err with
    | Err _ =>
        logf LogWarn "error pruning first stage records and data dcc.newBase: %d err: %v"
             [newBase r]
    | Ok _ => ret tt
    end
  else ret tt.

End Recovery.

(** ** Commit ranges *)

(** The values of a commit range, the interval and the lookback are far
    enough from [2^64] for the sums of the tracker's
    [calculateCatchpointRounds] not to wrap around, and the range has fewer
    than [2^63] rounds, so that the slice of its catchpoint rounds can be
    allocated. *)
Definition commit_range_in_range (interval : Z) (dcc : DCR.deferredCommitRange) : Prop :=
  0 < interval /\ 0 <= DCR.oldBase dcc /\ 0 <= DCR.offset dcc
  /\ 0 <= DCR.catchpointLookback dcc
  /\ DCR.oldBase dcc + DCR.offset dcc + interval < 2 ^ 64
  /\ DCR.catchpointLookback dcc + interval < 2 ^ 64
  /\ DCR.offset dcc < 2 ^ 63.

(** [r] is a round of the range [(oldBase, oldBase + offset]] past the
    lookback, and a multiple of the interval. *)
Definition isCatchpointRound (interval : Z) (dcc : DCR.deferredCommitRange) (r : Z) : Prop :=
  DCR.oldBase dcc < r <= DCR.oldBase dcc + DCR.offset dcc
  /\ DCR.catchpointLookback dcc < r
  /\ r mod interval = 0.

(** ** What a call leaves alone *)

(** The tracker's memory, the database and the files are as they were; the
    log and the fault schedule may have moved on. *)
Definition node_kept (s s' : Sys) : Prop :=
  tracker s' = tracker s /\ db s' = db s /\ files s' = files s.

(** The variable [catchpointDataWriting] is as it was. *)
Definition sentinel_kept (s s' : Sys) : Prop :=
  catchpointDataWriting (tracker s') = catchpointDataWriting (tracker s).

(** The files of [fs] but those at [paths]. *)
Definition remove_files (paths : list string) (fs : gmap string File) : gmap string File :=
  foldl (fun fs path => delete path fs) fs paths.

(** * Properties *)
(* ================================================================== *)

(** ** Arithmetic *)

Lemma uint64_small z : 0 <= z < 2 ^ 64 -> Go.uint64 z = z.
Proof. intros H. unfold Go.uint64. apply Z.mod_small. exact H. Qed.

Lemma int64_small z : - 2 ^ 63 <= z < 2 ^ 63 -> Go.int64 z = z.
Proof.
  intros H. unfold Go.int64.
  rewrite Z.mod_small by lia. lia.
Qed.

(** Signed wrap-around is arithmetic modulo [2^64]: an intermediate result
    may wrap as long as the final one is in range. *)
Lemma int64_sub_idemp_l a b : Go.int64 (Go.int64 a - b) = Go.int64 (a - b).
Proof.
  unfold Go.int64. f_equal.
  replace ((a + 2 ^ 63) mod 2 ^ 64 - 2 ^ 63 - b + 2 ^ 63)
    with ((a + 2 ^ 63) mod 2 ^ 64 - b) by lia.
  rewrite Zminus_mod_idemp_l. f_equal. lia.
Qed.

(** The largest multiple of [k] that is at most [b]. *)
Lemma floor_multiple k b :
  0 < k ->
  b / k * k <= b /\ (b / k * k) mod k = 0
  /\ forall m, m <= b -> m mod k = 0 -> m <= b / k * k.
Proof.
  intros Hk. split; [|split].
  - pose proof (Z.mul_div_le b k Hk). lia.
  - apply Z.mod_mul. lia.
  - intros m Hm Hmod.
    assert (m = k * (m / k)) as Hmk.
    { pose proof (Z.div_mod m k ltac:(lia)). lia. }
    pose proof (Z.div_le_mono m b k Hk Hm) as Hq.
    assert (k * (m / k) <= k * (b / k)) by (apply Z.mul_le_mono_nonneg_l; lia).
    lia.
Qed.

(** The smallest multiple of [k] that is at least [a]. *)
Lemma ceil_multiple k a :
  0 < k ->
  a <= (a + k - 1) / k * k /\ ((a + k - 1) / k * k) mod k = 0
  /\ forall m, a <= m -> m mod k = 0 -> (a + k - 1) / k * k <= m.
Proof.
  intros Hk. split; [|split].
  - pose proof (Z.div_mod (a + k - 1) k ltac:(lia)).
    pose proof (Z.mod_pos_bound (a + k - 1) k Hk). lia.
  - apply Z.mod_mul. lia.
  - intros m Hm Hmod.
    assert (m = k * (m / k)) as Hmk.
    { pose proof (Z.div_mod m k ltac:(lia)). lia. }
    assert ((a + k - 1) / k <= m / k) as Hq.
    { assert ((a + k - 1) / k < m / k + 1); [|lia].
      apply Z.div_lt_upper_bound; lia. }
    assert (k * ((a + k - 1) / k) <= k * (m / k)) by (apply Z.mul_le_mono_nonneg_l; lia).
    lia.
Qed.

(** ** The stage-1 decision *)

(** Within the 64-bit range the wrap-arounds of [calculateFirstStageRounds]
    vanish and the function computes with plain integers. *)
Lemma calculateFirstStageRounds_exact oldBase offset reenable interval lookback :
  firstStageRounds_in_range oldBase offset reenable interval lookback ->
  reenable <> 0 ->
  let lo := Z.max (oldBase + 1) (reenable - lookback) in
  let first := (lo + lookback + interval - 1) / interval * interval - lookback in
  let last := (oldBase + offset + lookback) / interval * interval - lookback in
  Scheduler.calculateFirstStageRounds oldBase offset reenable interval lookback
  = if first <=? last
    then Returns (true, first <? last, last - oldBase)
    else Returns (false, false, offset).
Proof.
  intros (HoldBase & Hoffset & Hreenable & Hinterval & Hlookback & Hsum & Hre) Hne lo first last.
  unfold Scheduler.calculateFirstStageRounds.
  destruct (Z.eqb_spec reenable 0) as [?|_]; [contradiction|].
  unfold Go.u64_add, Go.u64_sub.
  rewrite (uint64_small (oldBase + 1)) by lia.
  set (lo' := if (reenable >? lookback) && (Go.uint64 (reenable - lookback) >? oldBase + 1)
              then Go.uint64 (reenable - lookback) else oldBase + 1).
  assert (lo' = lo) as ->.
  { subst lo' lo. destruct (Z.gtb_spec reenable lookback) as [Hgt|Hle]; simpl.
    - rewrite uint64_small by lia.
      destruct (Z.gtb_spec (reenable - lookback) (oldBase + 1)); lia.
    - lia. }
  assert (1 <= lo /\ lo + lookback + interval - 1 < 2 ^ 63) as [Hlo1 Hlo2] by (subst lo; lia).
  rewrite (int64_small interval) by lia.
  destruct (Z.eqb_spec interval 0) as [?|_]; [lia|].
  unfold Go.i64_sub, Go.i64_add, Go.i64_mul, Go.i64_quot.
  rewrite (int64_small lo), (int64_small lookback), (int64_small oldBase),
    (int64_small offset) by lia.
  rewrite (int64_small (lo + lookback)) by lia.
  rewrite (int64_sub_idemp_l (lo + lookback + interval) 1).
  rewrite (int64_small (lo + lookback + interval - 1)) by lia.
  rewrite (int64_small (oldBase + offset)) by lia.
  rewrite (int64_small (oldBase + offset + lookback)) by lia.
  rewrite !Z.quot_div_nonneg by lia.
  pose proof (ceil_multiple interval (lo + lookback) Hinterval) as (Hc1 & _ & _).
  pose proof (floor_multiple interval (oldBase + offset + lookback) Hinterval) as (Hf1 & _ & _).
  assert (0 <= (lo + lookback + interval - 1) / interval) by (apply Z.div_pos; lia).
  assert (0 <= (oldBase + offset + lookback) / interval) by (apply Z.div_pos; lia).
  assert ((lo + lookback + interval - 1) / interval * interval <= lo + lookback + interval - 1)
    by (pose proof (Z.mul_div_le (lo + lookback + interval - 1) interval Hinterval); lia).
  rewrite (int64_small ((lo + lookback + interval - 1) / interval)) by lia.
  rewrite (int64_small ((oldBase + offset + lookback) / interval)) by lia.
  rewrite (int64_small ((lo + lookback + interval - 1) / interval * interval)) by nia.
  rewrite (int64_small ((oldBase + offset + lookback) / interval * interval)) by nia.
  rewrite (int64_small ((lo + lookback + interval - 1) / interval * interval - lookback)) by nia.
  rewrite (int64_small ((oldBase + offset + lookback) / interval * interval - lookback)) by nia.
  fold first last.
  destruct (Z.leb_spec first last) as [Hfl|Hfl]; [|reflexivity].
  assert (lo <= first) by (subst first; lia).
  rewrite (uint64_small last), (uint64_small oldBase) by (subst last; lia).
  rewrite (uint64_small (last - oldBase)) by (subst last lo; lia).
  destruct (first <? last); reflexivity.
Qed.

(** In range and with catchpoints re-enabled, the function decides the
    window as the specification words it. *)
Lemma calculateFirstStageRounds_meets_spec oldBase offset reenable interval lookback :
  firstStageRounds_in_range oldBase offset reenable interval lookback ->
  reenable <> 0 ->
  firstStageRounds_spec oldBase offset reenable interval lookback.
Proof.
  intros Hrange Hne.
  pose proof (calculateFirstStageRounds_exact _ _ _ _ _ Hrange Hne) as Hexact.
  destruct Hrange as (HoldBase & Hoffset & Hreenable & Hinterval & Hlookback & Hsum & Hre).
  cbv zeta in Hexact.
  set (lo := Z.max (oldBase + 1) (reenable - lookback)) in *.
  set (first := (lo + lookback + interval - 1) / interval * interval - lookback) in *.
  set (last := (oldBase + offset + lookback) / interval * interval - lookback) in *.
  pose proof (ceil_multiple interval (lo + lookback) Hinterval) as (Hc1 & Hc2 & Hc3).
  pose proof (floor_multiple interval (oldBase + offset + lookback) Hinterval)
    as (Hf1 & Hf2 & Hf3).
  assert (Hfirst : first <= last ->
                   isFirstStageRound oldBase offset reenable interval lookback first).
  { unfold isFirstStageRound. fold lo. intros Hle. subst first last. repeat split; try lia.
    replace ((lo + lookback + interval - 1) / interval * interval - lookback + lookback)
      with ((lo + lookback + interval - 1) / interval * interval) by lia.
    exact Hc2. }
  assert (Hlast : first <= last ->
                  isFirstStageRound oldBase offset reenable interval lookback last).
  { unfold isFirstStageRound. fold lo. intros Hle. subst first last. repeat split; try lia.
    replace ((oldBase + offset + lookback) / interval * interval - lookback + lookback)
      with ((oldBase + offset + lookback) / interval * interval) by lia.
    exact Hf2. }
  assert (Hbetween : forall r, isFirstStageRound oldBase offset reenable interval lookback r ->
                               first <= r <= last).
  { unfold isFirstStageRound. fold lo. intros r (H1 & H2 & H3). subst first last.
    specialize (Hc3 (r + lookback) ltac:(lia) H3).
    specialize (Hf3 (r + lookback) ltac:(lia) H3). lia. }
  unfold firstStageRounds_spec. cbv zeta.
  destruct (Z.leb_spec first last) as [Hle|Hgt].
  - exists true, (first <? last), (last - oldBase). split; [exact Hexact|].
    split; [|split].
    + split; [intros _; exists last; auto | reflexivity].
    + intros _. exists last. split; [auto|]. split; [|reflexivity].
      intros r Hr. apply Hbetween in Hr. lia.
    + split.
      * intros Hlt. apply Z.ltb_lt in Hlt. exists first, last.
        split; [lia|]. split; [apply Hfirst; lia | auto].
      * intros (r1 & r2 & Hneq & Hr1 & Hr2).
        apply Hbetween in Hr1, Hr2. apply Z.ltb_lt. lia.
  - exists false, false, offset. split; [exact Hexact|].
    split; [|split].
    + split; [discriminate|]. intros (r & Hr). apply Hbetween in Hr. lia.
    + discriminate.
    + split; [discriminate|]. intros (r1 & r2 & _ & Hr1 & _). apply Hbetween in Hr1. lia.
Qed.

(** C1 (as amended).  When catchpoints have been re-enabled
    ([reenableCatchpointsRound <> 0]) and the 64-bit arithmetic does not
    overflow, [calculateFirstStageRounds] reports an intermediate first-stage
    round iff some round [r] with
    [max(oldBase+1, reenableCatchpointsRound - catchpointLookback) <= r <= oldBase + offset]
    has [(r + catchpointLookback) mod catchpointInterval = 0]; then the new
    offset is the largest such [r] minus [oldBase], and the multiple-rounds flag
    says that there are at least two of them.  When
    [reenableCatchpointsRound = 0] it reports none and leaves the offset as it
    was.  For [oldBase=0, offset=500, reenable=200, interval=100, lookback=320]
    the first such round is 80, the last is 480 and the new offset is 480. *)
Theorem calculateFirstStageRounds_correct :
  (forall oldBase offset reenable interval lookback,
      firstStageRounds_in_range oldBase offset reenable interval lookback ->
      reenable <> 0 ->
      firstStageRounds_spec oldBase offset reenable interval lookback)
  /\ (forall oldBase offset interval lookback,
        Scheduler.calculateFirstStageRounds oldBase offset 0 interval lookback
        = Returns (false, false, offset))
  /\ (Scheduler.calculateFirstStageRounds 0 500 200 100 320 = Returns (true, true, 480)
      /\ isFirstStageRound 0 500 200 100 320 80
      /\ isFirstStageRound 0 500 200 100 320 480
      /\ forall r, isFirstStageRound 0 500 200 100 320 r -> 80 <= r <= 480).
Proof.
  split; [exact calculateFirstStageRounds_meets_spec|].
  split; [reflexivity|].
  split; [reflexivity|].
  split; [unfold isFirstStageRound; split; [lia|]; split; [lia|reflexivity]|].
  split; [unfold isFirstStageRound; split; [lia|]; split; [lia|reflexivity]|].
  intros r (H1 & H2 & H3).
  pose proof (ceil_multiple 100 (1 + 320) ltac:(lia)) as (_ & _ & Hc).
  pose proof (floor_multiple 100 (500 + 320) ltac:(lia)) as (_ & _ & Hf).
  specialize (Hc (r + 320) ltac:(lia) H3).
  specialize (Hf (r + 320) ltac:(lia) H3).
  change ((1 + 320 + 100 - 1) / 100 * 100) with 400 in Hc.
  change ((500 + 320) / 100 * 100) with 800 in Hf.
  lia.
Qed.

(** The theorem at the specification's example: the range condition holds
    there and the specification's reading of the window follows. *)
Lemma calculateFirstStageRounds_correct_witness :
  firstStageRounds_in_range 0 500 200 100 320
  /\ firstStageRounds_spec 0 500 200 100 320.
Proof.
  assert (firstStageRounds_in_range 0 500 200 100 320) as Hrange
    by (unfold firstStageRounds_in_range; lia).
  split; [exact Hrange|].
  apply (proj1 calculateFirstStageRounds_correct 0 500 200 100 320 Hrange).
  lia.
Defined.

(** With [reenableCatchpointsRound = 0] round 80 satisfies the range
    condition of the claim, but the function reports no first-stage round. *)
Lemma calculateFirstStageRounds_reenable_zero :
  ~ firstStageRounds_spec 0 500 0 100 320.
Proof.
  intros (has & multiple & newOffset & Hcalc & Hhas & _).
  assert (has = false) as -> by (vm_compute in Hcalc; congruence).
  assert (false = true); [|discriminate].
  apply Hhas. exists 80. unfold isFirstStageRound.
  split; [lia|]. split; [lia|reflexivity].
Qed.

(** ** The stage-2 enumeration *)

(** The loop appends [i * interval] for [i = l, ..., r]; [n] counts the
    iterations that remain. *)
Lemma calculateCatchpointRounds_loop_spec (n : nat) :
  forall i r k acc fuel,
    0 <= i -> i + Z.of_nat n = r + 1 -> r + 1 < 2 ^ 64 -> 0 < k -> r * k < 2 ^ 64 ->
    (n < fuel)%nat ->
    Scheduler.calculateCatchpointRounds_loop fuel i r k acc
    = Returns (acc ++ ((fun j => j * k) <$> seqZ i (Z.of_nat n))).
Proof.
  induction n as [|n IH]; intros i r k acc fuel Hi Hn Hr Hk Hrk Hfuel.
  - destruct fuel as [|fuel]; [lia|].
    rewrite seqZ_nil by lia. rewrite fmap_nil, app_nil_r.
    cbn [Scheduler.calculateCatchpointRounds_loop].
    destruct (Z.leb_spec i r); [lia|reflexivity].
  - destruct fuel as [|fuel]; [lia|].
    rewrite (seqZ_cons i (Z.of_nat (S n))) by lia.
    replace (Z.pred (Z.of_nat (S n))) with (Z.of_nat n) by lia.
    rewrite fmap_cons.
    cbn [Scheduler.calculateCatchpointRounds_loop].
    destruct (Z.leb_spec i r); [|lia].
    unfold Go.u64_mul, Go.u64_add.
    rewrite (uint64_small (i * k)) by nia.
    rewrite (uint64_small (i + 1)) by lia.
    rewrite (IH (i + 1) r k (acc ++ [i * k]) fuel) by lia.
    rewrite <- app_assoc. reflexivity.
Qed.

(** Multiples of a positive [k] at consecutive indices increase. *)
Lemma multiples_sorted k n : forall i,
  0 < k -> StronglySorted Z.lt ((fun j => j * k) <$> seqZ i (Z.of_nat n)).
Proof.
  induction n as [|n IH]; intros i Hk.
  - rewrite seqZ_nil by lia. constructor.
  - rewrite seqZ_cons by lia. rewrite fmap_cons.
    replace (Z.pred (Z.of_nat (S n))) with (Z.of_nat n) by lia.
    constructor; [apply IH; lia|].
    apply Forall_fmap, Forall_seqZ. intros j Hj. simpl. nia.
Qed.

Lemma calculateCatchpointRounds_meets_spec min max interval :
  Go.is_uint64 min -> Go.is_uint64 max -> 0 < interval < 2 ^ 64 ->
  min + interval <= 2 ^ 64 ->
  max / interval < 2 ^ 64 - 1 ->
  max / interval - (min + interval - 1) / interval + 1 < 2 ^ 63 ->
  catchpointRounds_spec min max interval.
Proof.
  unfold Go.is_uint64. intros Hmin Hmax Hk Hl Hr Hcap.
  assert (0 < interval) as Hk0 by lia.
  pose proof (ceil_multiple interval min Hk0) as (Hc1 & Hc2 & Hc3).
  pose proof (floor_multiple interval max Hk0) as (Hf1 & Hf2 & Hf3).
  set (l := (min + interval - 1) / interval) in *.
  set (r := max / interval) in *.
  assert (0 <= l) by (apply Z.div_pos; lia).
  assert (0 <= r) by (apply Z.div_pos; lia).
  assert (Hcalc : forall fuel,
             Scheduler.calculateCatchpointRounds fuel min max interval
             = if l >? r then Returns []
               else Scheduler.calculateCatchpointRounds_loop fuel l r interval []).
  { intros fuel. unfold Scheduler.calculateCatchpointRounds.
    destruct (Z.eqb_spec interval 0); [lia|]. cbv zeta.
    assert (Go.u64_div (Go.u64_sub (Go.u64_add min interval) 1) interval = l) as ->.
    { unfold Go.u64_div, Go.u64_sub, Go.u64_add.
      destruct (Z.eq_dec (min + interval) (2 ^ 64)) as [Heq|Hneq].
      - (* [min + interval] wraps to 0 and the subtraction wraps back *)
        rewrite Heq. change (Go.uint64 (2 ^ 64)) with 0.
        change (Go.uint64 (0 - 1)) with (2 ^ 64 - 1).
        subst l. rewrite Heq. reflexivity.
      - rewrite (uint64_small (min + interval)) by lia.
        rewrite (uint64_small (min + interval - 1)) by lia.
        reflexivity. }
    change (Go.u64_div max interval) with r.
    destruct (Z.gtb_spec l r) as [Hgt|Hle]; [reflexivity|].
    (* the capacity of the result fits an [int] *)
    unfold Go.u64_sub, Go.u64_add.
    rewrite (uint64_small (r - l)) by lia.
    rewrite (uint64_small (r - l + 1)) by lia.
    destruct (Z.gtb_spec (r - l + 1) (2 ^ 63 - 1)); [lia|reflexivity]. }
  assert (Hmem : forall x, (exists j, l <= j <= r /\ x = j * interval)
                           <-> min <= x <= max /\ x mod interval = 0).
  { intros x. split.
    - intros (j & Hj & ->). split; [|apply Z.mod_mul; lia]. nia.
    - intros (Hx & Hmod). exists (x / interval).
      assert (x = interval * (x / interval)) as Hxk.
      { pose proof (Z.div_mod x interval ltac:(lia)). lia. }
      specialize (Hc3 x ltac:(lia) Hmod). specialize (Hf3 x ltac:(lia) Hmod).
      split; [|lia]. nia. }
  destruct (Z.gtb_spec l r) as [Hgt|Hle].
  - exists [], 0%nat. split; [|split; [|split]].
    + intros fuel _. apply Hcalc.
    + constructor.
    + intros x. rewrite <- Hmem. split; [intros Hx; inversion Hx|].
      intros (j & Hj & _). lia.
    + reflexivity.
  - set (n := Z.to_nat (r - l + 1)).
    exists ((fun j => j * interval) <$> seqZ l (Z.of_nat n)), (S n).
    split; [|split; [|split]].
    + intros fuel Hfuel. rewrite Hcalc.
      rewrite (calculateCatchpointRounds_loop_spec n l r interval [] fuel);
        [reflexivity | lia | subst n; lia | lia | lia | | lia].
      pose proof (Z.mul_div_le max interval Hk0). subst r. lia.
    + apply multiples_sorted. lia.
    + intros x. rewrite <- Hmem. rewrite list_elem_of_fmap.
      setoid_rewrite elem_of_seqZ. subst n. split.
      * intros (j & -> & Hj). exists j. split; [lia|reflexivity].
      * intros (j & Hj & ->). exists j. split; [reflexivity|lia].
    + intros Hnone. exfalso. apply Hnone. exists (l * interval).
      apply Hmem. exists l. split; [lia|reflexivity].
Qed.

(** C2 (as amended).  For [uint64] rounds [min] and [max] and a non-zero
    interval, when [min + interval - 1] does not wrap around, the loop
    bound [max / interval] is below the largest [uint64] and the capacity
    [max / interval - (min + interval - 1) / interval + 1] that the function
    allocates is below [2^63],
    [calculateCatchpointRounds] returns exactly the multiples of the interval
    in [[min, max]], in increasing order, and the empty list when there is
    none.  [calculateCatchpointRounds(11, 19, 10) = []] and
    [calculateCatchpointRounds(10, 30, 10) = [10, 20, 30]]. *)
Theorem calculateCatchpointRounds_correct :
  (forall min max interval,
      Go.is_uint64 min -> Go.is_uint64 max -> 0 < interval < 2 ^ 64 ->
      min + interval <= 2 ^ 64 ->
      max / interval < 2 ^ 64 - 1 ->
      max / interval - (min + interval - 1) / interval + 1 < 2 ^ 63 ->
      catchpointRounds_spec min max interval)
  /\ (forall fuel, Scheduler.calculateCatchpointRounds fuel 11 19 10 = Returns [])
  /\ (forall fuel, (4 <= fuel)%nat ->
        Scheduler.calculateCatchpointRounds fuel 10 30 10 = Returns [10; 20; 30]).
Proof.
  split; [exact calculateCatchpointRounds_meets_spec|].
  split; [intros fuel; reflexivity|].
  intros fuel Hfuel.
  do 4 (destruct fuel as [|fuel]; [lia|]). reflexivity.
Qed.

Lemma calculateCatchpointRounds_correct_witness :
  catchpointRounds_spec 10 30 10.
Proof.
  apply (proj1 calculateCatchpointRounds_correct 10 30 10);
    unfold Go.is_uint64; try lia.
  - change (30 / 10) with 3. lia.
  - change (30 / 10) with 3. change ((10 + 10 - 1) / 10) with 1. lia.
Defined.

(** At [min = max = 2^64 - 1] with the interval [2^64 - 1] the sum
    [min + interval - 1] wraps around: the result starts with round 0, which
    is not in [[min, max]]. *)
Lemma calculateCatchpointRounds_wraps :
  Go.is_uint64 (2 ^ 64 - 1) /\ 2 ^ 64 - 1 <> 0
  /\ ~ catchpointRounds_spec (2 ^ 64 - 1) (2 ^ 64 - 1) (2 ^ 64 - 1).
Proof.
  split; [unfold Go.is_uint64; lia|]. split; [lia|].
  intros (res & fuel0 & Hcalc & _ & Hmem & _).
  specialize (Hcalc (fuel0 + 3)%nat ltac:(lia)).
  replace (fuel0 + 3)%nat with (S (S (S fuel0))) in Hcalc by lia.
  assert (res = [0; 2 ^ 64 - 1]) as ->.
  { vm_compute in Hcalc. injection Hcalc as <-. reflexivity. }
  assert (2 ^ 64 - 1 <= 0 <= 2 ^ 64 - 1) as Hbad; [|lia].
  apply (Hmem 0). apply list_elem_of_here.
Qed.

(** At [min = 0] and [max = 2^63] with the interval 1 no sum wraps around,
    but the result would hold [2^63 + 1] rounds: the allocation panics. *)
Lemma calculateCatchpointRounds_makeslice :
  forall fuel, Scheduler.calculateCatchpointRounds fuel 0 (2 ^ 63) 1 = Panics.
Proof. intros fuel. reflexivity. Qed.

(** ** Computations step by step *)

Lemma bind_Ok {S A B} (m : ST S A) (k : A -> ST S B) s s1 a :
  m s = (s1, Ok a) -> bind m k s = k a s1.
Proof. intros H. unfold bind. by rewrite H. Qed.

Lemma bind_Err {S A B} (m : ST S A) (k : A -> ST S B) s s1 e :
  m s = (s1, Err e) -> bind m k s = (s1, Err e).
Proof. intros H. unfold bind. by rewrite H. Qed.

(** A sequence that succeeded went through its first part. *)
Lemma bind_Ok_inv {S A B} (m : ST S A) (k : A -> ST S B) s s' b :
  bind m k s = (s', Ok b) -> exists s1 a, m s = (s1, Ok a) /\ k a s1 = (s', Ok b).
Proof.
  unfold bind. destruct (m s) as [s1 [a|e]]; intros H; [eauto | discriminate].
Qed.

(** A sequence that failed did so in its first part or after it. *)
Lemma bind_Err_inv {S A B} (m : ST S A) (k : A -> ST S B) s s' e :
  bind m k s = (s', Err e) ->
  m s = (s', Err e) \/ exists s1 a, m s = (s1, Ok a) /\ k a s1 = (s', Err e).
Proof.
  unfold bind. destruct (m s) as [s1 [a|e']]; intros H; [eauto|].
  injection H as <- <-. by left.
Qed.

Lemma try_Err_inv {S A} (m : ST S A) s s' e :
  try m s = (s', Err e) -> m s = (s', Err e) /\ is_panic e = true.
Proof.
  unfold try. destruct (m s) as [s1 [a|e']]; [discriminate|].
  destruct (is_panic e') eqn:He; intros [= <- <-]. done.
Qed.

Lemma external_Err_inv {S} `{HasFaults S} op (s s' : S) e :
  external op s = (s', Err e) -> e = ErrFault op.
Proof.
  unfold external. destruct (faults s) as [|[] rest]; intros [= _ <-]; done.
Qed.

(** Reading the state first. *)
Lemma bind_Ok_inv' {S B} (k : S -> ST S B) (s s' : S) (r : res B) :
  bind get k s = (s', r) -> get s = (s, Ok s) /\ k s s = (s', r).
Proof. unfold bind, get. done. Qed.

Lemma try_Ok {S A} (m : ST S A) s s1 a :
  m s = (s1, Ok a) -> try m s = (s1, Ok (Ok a)).
Proof. intros H. unfold try. by rewrite H. Qed.

Lemma try_Ok_inv {S A} (m : ST S A) s s' (r : res A) :
  try m s = (s', Ok r) -> m s = (s', r) /\ match r with Err e => is_panic e = false | Ok _ => True end.
Proof.
  unfold try. destruct (m s) as [s1 [a|e]].
  - intros [= <- <-]. done.
  - destruct (is_panic e) eqn:He; intros [= <- <-]. done.
Qed.

Lemma ret_inv {S A} (a : A) (s s' : S) r :
  ret a s = (s', r) -> s' = s /\ r = Ok a.
Proof. unfold ret. by intros [= <- <-]. Qed.

Lemma get_inv {S} (s s' : S) r : get s = (s', r) -> s' = s /\ r = Ok s.
Proof. unfold get. by intros [= <- <-]. Qed.

Lemma gets_inv {S A} (f : S -> A) (s s' : S) r :
  gets f s = (s', r) -> s' = s /\ r = Ok (f s).
Proof. unfold gets. by intros [= <- <-]. Qed.

Lemma modify_inv {S} (f : S -> S) (s s' : S) r :
  modify f s = (s', r) -> s' = f s /\ r = Ok tt.
Proof. unfold modify. by intros [= <- <-]. Qed.

Lemma fail_inv {S A} e (s s' : S) (r : res A) :
  fail e s = (s', r) -> s' = s /\ r = Err e.
Proof. unfold fail. by intros [= <- <-]. Qed.

(** An external call touches the fault schedule only. *)
Lemma external_no_faults {S} `{HasFaults S} op (s : S) :
  faults s = [] -> external op s = (s, Ok tt).
Proof. intros Hf. unfold external. by rewrite Hf. Qed.

Lemma external_Ok_inv {S} `{HasFaults S} op (s s' : S) u :
  external op s = (s', Ok u) ->
  s' = s \/ exists rest, faults s = false :: rest /\ s' = set_faults rest s.
Proof.
  unfold external. destruct (faults s) as [|[] rest] eqn:Hf; intros [= <-]; eauto.
Qed.

(** ** The retain round *)

(** C10.  For every round argument, [committedUpTo] returns the cached
    database round of the tracker as the retain round and 0 as the lookback,
    whatever the argument is, and leaves the tracker and everything around it
    as they were. *)
Theorem committedUpTo_correct :
  forall (rnd : Z) (s : Sys),
    committedUpTo rnd s = (s, Ok (cachedDBRound (tracker s), 0))
    /\ forall rnd', committedUpTo rnd' s = committedUpTo rnd s.
Proof. intros rnd s. split; [reflexivity | intros rnd'; reflexivity]. Qed.

(** ** A tracker without an interval schedules nothing *)

(** C9.  With [catchpointInterval = 0], [produceCommittingTask] returns the
    commit range it was given, with no field changed (so neither
    [catchpointFirstStage] nor [catchpointSecondStage] is set by it) and
    leaves the tracker as it was, and the tracker's
    [calculateCatchpointRounds] returns the empty list for every commit
    range. *)
Theorem interval_zero_schedules_nothing :
  forall (s : Sys),
    catchpointInterval (tracker s) = 0 ->
    (forall fuel committedRound dbRound dcr,
        produceCommittingTask fuel committedRound dbRound dcr s = (s, Ok (dcr, true)))
    /\ (forall fuel dcc, ct_calculateCatchpointRounds fuel (tracker s) dcc = Returns []).
Proof.
  intros s Hzero. split.
  - intros fuel committedRound dbRound dcr.
    unfold produceCommittingTask, bind, get. cbn. by rewrite Hzero.
  - intros fuel dcc. unfold ct_calculateCatchpointRounds. by rewrite Hzero.
Qed.

(** ** The repacker *)

Lemma len_nonneg {A} (l : list A) : 0 <= len l.
Proof. unfold len. lia. Qed.

Lemma len_app {A} (l1 l2 : list A) : len (l1 ++ l2) = len l1 + len l2.
Proof. unfold len. rewrite length_app. lia. Qed.

Lemma len_take {A} (n : Z) (l : list A) : len (take (Z.to_nat n) l) = Z.max 0 (Z.min n (len l)).
Proof. unfold len. rewrite length_take. lia. Qed.

Lemma copied_well_formed e : entry_well_formed e -> copied e = e.
Proof.
  unfold entry_well_formed, copied, slice_to, len. intros Hwf.
  destruct e as [h d]; simpl in *. f_equal.
  apply take_ge. lia.
Qed.

(** The context check leaves the streams alone. *)
Lemma external_RepackIO_Ok_inv op (s s' : RepackIO) u :
  external op s = (s', Ok u) -> tin s' = tin s /\ tout s' = tout s.
Proof.
  intros H. apply external_Ok_inv in H as [->|(rest & _ & ->)]; done.
Qed.

Lemma Next_Ok_inv s s' h :
  Tar.Next s = (s', Ok h) ->
  exists e rest,
    upcoming (tin s) = e :: rest /\ h = entry_header e
    /\ tin s' = {| upcoming := rest; unread := entry_data e;
                   stream_end := stream_end (tin s) |}
    /\ tout s' = tout s /\ io_faults s' = io_faults s.
Proof.
  unfold Tar.Next. destruct (upcoming (tin s)) as [|e rest] eqn:Hup; [discriminate|].
  intros [= <- <-]. exists e, rest. done.
Qed.

Lemma Next_Err_inv s s' e :
  Tar.Next s = (s', Err e) ->
  upcoming (tin s) = [] /\ s' = s /\ e = default EOF (stream_end (tin s)).
Proof.
  unfold Tar.Next. destruct (upcoming (tin s)) as [|x rest] eqn:Hup; [|discriminate].
  intros [= <- <-]. done.
Qed.

(** What [io.ReadAtLeast] leaves: the buffer keeps its length, the output is
    untouched, and when it read exactly [min] bytes without a hard error,
    those are the first [min] bytes of the entry. *)
Lemma ReadAtLeast_Ok_inv buf min s s' n buf' err :
  ReadAtLeast buf min s = (s', Ok (n, buf', err)) ->
  tout s' = tout s /\ io_faults s' = io_faults s
  /\ upcoming (tin s') = upcoming (tin s) /\ stream_end (tin s') = stream_end (tin s)
  /\ len buf' = len buf
  /\ ((err = None \/ err = Some EOF) -> n = min ->
      min <= len buf
      /\ n = (if 0 <? min then Z.min (len buf) (len (unread (tin s))) else 0)
      /\ slice_to min buf' = slice_to min (unread (tin s))).
Proof.
  unfold ReadAtLeast, ret.
  destruct (Z.ltb_spec (len buf) min) as [Hshort|Hfits].
  { intros [= <- <- <- <-]. split_and!; try done. intros [?|?]; discriminate. }
  destruct (Z.ltb_spec 0 min) as [Hpos|Hnonpos].
  2:{ intros [= <- <- <- <-]. split_and!; try done.
      intros _ Hmin. split_and!; try done.
      unfold slice_to. rewrite <- Hmin. done. }
  unfold bind, Tar.Read. cbn.
  set (d := unread (tin s)).
  set (k := Z.min (len buf) (len d)).
  pose proof (len_nonneg buf). pose proof (len_nonneg d).
  assert (Hgot : len (take (Z.to_nat k) d) = k) by (rewrite len_take; lia).
  assert (Hbuf : len (take (Z.to_nat k) d ++ drop (length (take (Z.to_nat k) d)) buf)
                 = len buf).
  { rewrite len_app, Hgot. unfold len. rewrite length_drop, length_take.
    unfold len in *. lia. }
  rewrite Hgot.
  assert (Hslice : k = min ->
            slice_to min (take (Z.to_nat k) d ++ drop (length (take (Z.to_nat k) d)) buf)
            = slice_to min d).
  { intros <-. unfold slice_to. rewrite take_app_length'; [|unfold len in Hgot; lia].
    done. }
  destruct (Z.geb_spec k min) as [Hge|Hlt].
  { intros [= <- <- <- <-]. cbn. split_and!; try done. intros _ Hk. split_and!; auto. }
  destruct (drop (Z.to_nat k) d) as [|x rest] eqn:Hrest.
  - destruct (Z.ltb_spec 0 k).
    + intros [= <- <- <- <-]. cbn. split_and!; try done. intros [?|?]; discriminate.
    + intros [= <- <- <- <-]. cbn. split_and!; try done. intros _ Hk. lia.
  - intros [= <- <- <- <-]. cbn. split_and!; try done. intros _ Hk. lia.
Qed.

Lemma WriteHeader_Ok_inv h s s' u :
  Tar.WriteHeader h s = (s', Ok u) ->
  tin s' = tin s
  /\ written (tout s') = written (tout s) ++ [ {| entry_header := h; entry_data := [] |} ].
Proof.
  unfold Tar.WriteHeader. intros H.
  apply bind_Ok_inv in H as (s1 & [] & Hext & H).
  apply external_RepackIO_Ok_inv in Hext as [Hin Hout].
  apply modify_inv in H as [-> _]. cbn. by rewrite Hin, Hout.
Qed.

(** A write into an entry that was just opened fills it. *)
Lemma Write_Ok_inv b s s' n w h :
  Tar.Write b s = (s', Ok n) ->
  written (tout s) = w ++ [ {| entry_header := h; entry_data := [] |} ] ->
  tin s' = tin s
  /\ written (tout s') = w ++ [ {| entry_header := h; entry_data := b |} ].
Proof.
  unfold Tar.Write. intros H Hw.
  apply bind_Ok_inv in H as (s1 & [] & Hext & H).
  apply external_RepackIO_Ok_inv in Hext as [Hin Hout].
  apply bind_Ok_inv in H as (s2 & s2' & Hget & H).
  apply get_inv in Hget as [-> [= <-]].
  rewrite Hout, Hw, reverse_snoc in H. cbn in H.
  destruct (_ >? _); [apply fail_inv in H as [_ [=]]|].
  apply bind_Ok_inv in H as (s3 & [] & Hmod & H).
  apply modify_inv in Hmod as [-> _].
  apply ret_inv in H as [-> _]. cbn.
  by rewrite Hin, reverse_involutive.
Qed.

(** A run of the loop that returns nil has copied every entry that was
    left, and read of each exactly its declared size. *)
Lemma doRepackCatchpoint_loop_Ok fuel :
  forall buf io io' u,
    doRepackCatchpoint_loop fuel buf io = (io', Ok u) ->
    written (tout io') = written (tout io) ++ (copied <$> upcoming (tin io))
    /\ Forall (fun e => bytes_read (len buf) e = Size (entry_header e)
                        /\ Size (entry_header e) <= len buf)
              (upcoming (tin io))
    /\ default EOF (stream_end (tin io)) = EOF.
Proof.
  induction fuel as [|fuel IH]; intros buf io io' u H; [discriminate|].
  cbn [doRepackCatchpoint_loop] in H.
  apply bind_Ok_inv in H as (s1 & [] & Hext & H).
  apply external_RepackIO_Ok_inv in Hext as [Hin1 Hout1].
  apply bind_Ok_inv in H as (s2 & next & Hnext & H).
  apply try_Ok_inv in Hnext as [Hnext _].
  destruct next as [header|e].
  - apply Next_Ok_inv in Hnext as (e & rest & Hup & -> & Hin2 & Hout2 & _).
    apply bind_Ok_inv in H as (s3 & [[n buf'] err] & Hread & H).
    apply ReadAtLeast_Ok_inv in Hread as (Hout3 & _ & Hup3 & Hend3 & Hlen & Hexact).
    apply bind_Ok_inv in H as (s4 & [] & Herr & H).
    assert (s4 = s3 /\ (err = None \/ err = Some EOF)) as [-> Herr'].
    { destruct err as [e'|]; [|apply ret_inv in Herr as [-> _]; auto].
      destruct (decide (e' = EOF)) as [->|]; [|apply fail_inv in Herr as [_ [=]]].
      apply ret_inv in Herr as [-> _]; auto. }
    destruct (Z.eqb_spec n (Size (entry_header e))) as [Hn|];
      [|apply fail_inv in H as [_ [=]]].
    cbn [negb] in H.
    specialize (Hexact Herr' Hn) as (Hfit & Hnval & Hslice).
    apply bind_Ok_inv in H as (s5 & [] & Hwh & H).
    apply WriteHeader_Ok_inv in Hwh as [Hin5 Hout5].
    apply bind_Ok_inv in H as (s6 & k & Hwr & H).
    eapply Write_Ok_inv in Hwr as [Hin6 Hout6]; [|exact Hout5].
    apply IH in H as (Hw & Hall & Hend).
    rewrite Hin6, Hin5, Hup3, Hin2 in Hw, Hall. cbn in Hw, Hall.
    rewrite Hin6, Hin5 in Hend. rewrite Hend3, Hin2 in Hend. cbn in Hend.
    rewrite <- Hin1, Hup.
    rewrite Hlen in Hall.
    split; [|split; [|exact Hend]].
    + rewrite Hw, Hout6, Hout3, Hout2, Hout1, fmap_cons, <- app_assoc. cbn.
      do 3 f_equal. unfold copied. f_equal.
      rewrite Hslice, Hin2. done.
    + constructor; [|exact Hall]. split; [|exact Hfit].
      unfold bytes_read. rewrite Hin2 in Hnval. cbn in Hnval.
      rewrite <- Hnval. exact Hn.
  - apply Next_Err_inv in Hnext as (Hup & -> & ->).
    destruct (decide (default EOF (stream_end (tin s1)) = EOF)) as [Heof|];
      [|apply fail_inv in H as [_ [=]]].
    apply ret_inv in H as [-> _].
    rewrite <- Hin1, Hup, <- Hout1. rewrite fmap_nil, app_nil_r.
    split_and!; [done | constructor | exact Heof].
Qed.

(** The errors that [io.ReadAtLeast] reports. *)
Lemma ReadAtLeast_errors buf min s s' r :
  ReadAtLeast buf min s = (s', r) ->
  exists n buf' err,
    r = Ok (n, buf', err)
    /\ (err = None \/ err = Some EOF \/ err = Some ErrShortBuffer
        \/ err = Some ErrUnexpectedEOF).
Proof.
  unfold ReadAtLeast, ret.
  destruct (len buf <? min); [intros [= <- <-]; eauto 10|].
  destruct (0 <? min); [|intros [= <- <-]; eauto 10].
  unfold bind, Tar.Read. cbn.
  destruct (_ >=? min); [intros [= <- <-]; eauto 10|].
  destruct (drop _ _); [destruct (0 <? _)|]; intros [= <- <-]; eauto 10.
Qed.

(** The fuel that [doRepackCatchpoint] gives its loop is enough: the loop is
    never cut short, and it does not panic. *)
Lemma doRepackCatchpoint_loop_finishes fuel :
  forall buf io io' e,
    (length (upcoming (tin io)) < fuel)%nat ->
    is_panic (default EOF (stream_end (tin io))) = false ->
    doRepackCatchpoint_loop fuel buf io = (io', Err e) ->
    is_panic e = false.
Proof.
  induction fuel as [|fuel IH]; intros buf io io' e Hfuel Hend H; [lia|].
  cbn [doRepackCatchpoint_loop] in H.
  apply bind_Err_inv in H as [H|(s1 & [] & Hext & H)].
  { apply external_Err_inv in H as ->. done. }
  apply external_RepackIO_Ok_inv in Hext as [Hin1 Hout1].
  apply bind_Err_inv in H as [H|(s2 & next & Hnext & H)].
  { apply try_Err_inv in H as [H Hp]. apply Next_Err_inv in H as (_ & _ & ->).
    rewrite Hin1, Hend in Hp. discriminate. }
  apply try_Ok_inv in Hnext as [Hnext _].
  destruct next as [header|e0].
  - apply Next_Ok_inv in Hnext as (x & rest & Hup & -> & Hin2 & Hout2 & _).
    apply bind_Err_inv in H as [H|(s3 & [[n buf'] err] & Hread & H)].
    { apply ReadAtLeast_errors in H as (? & ? & ? & Hr & _). discriminate Hr. }
    pose proof (ReadAtLeast_errors _ _ _ _ _ Hread) as (? & ? & ? & [= <- <- <-] & Herr).
    apply ReadAtLeast_Ok_inv in Hread as (_ & _ & Hup3 & Hend3 & _ & _).
    apply bind_Err_inv in H as [H|(s4 & [] & Herr4 & H)].
    { destruct Herr as [-> | [-> | [-> | ->]]]; cbn in H;
        try (apply ret_inv in H as [_ Hr]; discriminate Hr);
        apply fail_inv in H as [_ Hr]; injection Hr as ->; done. }
    assert (s4 = s3) as ->.
    { destruct Herr as [-> | [-> | [-> | ->]]]; cbn in Herr4;
        try (apply fail_inv in Herr4 as [_ Hr]; discriminate Hr);
        by apply ret_inv in Herr4 as [-> _]. }
    destruct (negb _); [apply fail_inv in H as [_ [= ->]]; done|].
    apply bind_Err_inv in H as [H|(s5 & [] & Hwh & H)].
    { unfold Tar.WriteHeader in H.
      apply bind_Err_inv in H as [H|(? & [] & _ & H)];
        [apply external_Err_inv in H as ->; done | apply modify_inv in H as [_ [=]]]. }
    apply WriteHeader_Ok_inv in Hwh as [Hin5 Hout5].
    apply bind_Err_inv in H as [H|(s6 & k & Hwr & H)].
    { unfold Tar.Write in H.
      apply bind_Err_inv in H as [H|(? & [] & _ & H)];
        [apply external_Err_inv in H as ->; done|].
      apply bind_Err_inv in H as [H|(? & ? & _ & H)]; [apply get_inv in H as [_ [=]]|].
      destruct (reverse _); [apply fail_inv in H as [_ [= ->]]; done|].
      destruct (_ >? _); [apply fail_inv in H as [_ [= ->]]; done|].
      apply bind_Err_inv in H as [H|(? & [] & _ & H)];
        [apply modify_inv in H as [_ [=]] | apply ret_inv in H as [_ [=]]]. }
    eapply Write_Ok_inv in Hwr as [Hin6 Hout6]; [|exact Hout5].
    apply IH in H; [exact H| |].
    + rewrite Hin6, Hin5, Hup3, Hin2. cbn. rewrite <- Hin1, Hup in Hfuel.
      cbn in Hfuel. lia.
    + rewrite Hin6, Hin5, Hend3, Hin2. cbn. by rewrite Hin1.
  - apply Next_Err_inv in Hnext as (_ & -> & ->).
    destruct (decide _); [apply ret_inv in H as [_ [=]]|].
    apply fail_inv in H as [_ [= ->]]. by rewrite Hin1.
Qed.

(** Without faults the writer takes what it is given. *)
Lemma WriteHeader_runs h s :
  io_faults s = [] ->
  exists s',
    Tar.WriteHeader h s = (s', Ok tt) /\ io_faults s' = [] /\ tin s' = tin s
    /\ written (tout s') = written (tout s) ++ [ {| entry_header := h; entry_data := [] |} ].
Proof.
  intros Hf. eexists. unfold Tar.WriteHeader.
  rewrite (bind_Ok _ _ s s tt) by (by apply external_no_faults).
  split; [reflexivity|]. done.
Qed.

Lemma Write_runs b s w h :
  io_faults s = [] ->
  written (tout s) = w ++ [ {| entry_header := h; entry_data := [] |} ] ->
  len b <= Size h ->
  exists s',
    Tar.Write b s = (s', Ok (len b)) /\ io_faults s' = [] /\ tin s' = tin s
    /\ written (tout s') = w ++ [ {| entry_header := h; entry_data := b |} ].
Proof.
  intros Hf Hw Hlen. eexists. unfold Tar.Write.
  rewrite (bind_Ok _ _ s s tt) by (by apply external_no_faults).
  rewrite (bind_Ok _ _ s s s) by done.
  rewrite Hw, reverse_snoc. cbn.
  destruct (Z.gtb_spec (len (@nil byte) + len b) (Size h)) as [Hgt|_];
    [unfold len in Hgt, Hlen; simpl in Hgt; lia|].
  unfold bind, modify, ret. cbn. rewrite reverse_involutive.
  split; [reflexivity|]. done.
Qed.

(** Reading a well-formed entry into a buffer that holds it. *)
Lemma ReadAtLeast_runs buf min s :
  len (unread (tin s)) = min -> min <= len buf ->
  exists s' buf',
    ReadAtLeast buf min s = (s', Ok (min, buf', None))
    /\ slice_to min buf' = unread (tin s).
Proof.
  intros Hd Hfit. unfold ReadAtLeast.
  destruct (Z.ltb_spec (len buf) min); [lia|].
  pose proof (len_nonneg (unread (tin s))) as Hnn.
  destruct (Z.ltb_spec 0 min) as [Hpos|Hzero].
  - unfold bind, Tar.Read. cbn.
    replace (Z.min (len buf) (len (unread (tin s)))) with min by lia.
    assert (take (Z.to_nat min) (unread (tin s)) = unread (tin s)) as Htake
      by (apply take_ge; unfold len in Hd; lia).
    rewrite Htake, Hd.
    destruct (Z.geb_spec min min); [|lia].
    eexists _, _. split; [reflexivity|].
    unfold slice_to. apply take_app_length'. unfold len in Hd. lia.
  - assert (min = 0) as Hm by lia. rewrite Hm in *.
    eexists _, _. split; [reflexivity|].
    unfold slice_to. cbn. unfold len in Hd.
    destruct (unread (tin s)); [done | simpl in Hd; lia].
Qed.

(** A well-formed stream in a buffer that holds every entry, without faults:
    the loop copies all of it and returns nil. *)
Lemma doRepackCatchpoint_loop_runs entries :
  forall fuel buf io,
    upcoming (tin io) = entries -> io_faults io = [] ->
    default EOF (stream_end (tin io)) = EOF ->
    Forall (fun e => entry_well_formed e /\ Size (entry_header e) <= len buf) entries ->
    (length entries < fuel)%nat ->
    exists io',
      doRepackCatchpoint_loop fuel buf io = (io', Ok tt)
      /\ written (tout io') = written (tout io) ++ entries.
Proof.
  induction entries as [|e rest IH]; intros fuel buf io Hup Hf Hend Hall Hfuel;
    (destruct fuel as [|fuel]; [simpl in Hfuel; lia|]);
    cbn [doRepackCatchpoint_loop];
    rewrite (bind_Ok _ _ io io tt) by (by apply external_no_faults).
  - unfold bind, try, Tar.Next. rewrite Hup, Hend. cbn.
    eexists. split; [reflexivity|]. by rewrite app_nil_r.
  - apply Forall_cons in Hall as [[Hwf Hfit] Hall].
    set (s2 := {| tin := {| upcoming := rest; unread := entry_data e;
                            stream_end := stream_end (tin io) |};
                  tout := tout io; io_faults := io_faults io |}).
    rewrite (bind_Ok _ _ io s2 (Ok (entry_header e)))
      by (unfold try, Tar.Next; by rewrite Hup).
    destruct (ReadAtLeast_runs buf (Size (entry_header e)) s2 Hwf Hfit)
      as (s3 & buf' & Hread & Hslice).
    pose proof (ReadAtLeast_Ok_inv _ _ _ _ _ _ _ Hread)
      as (Hout3 & Hf3 & Hup3 & Hend3 & Hlen & _).
    rewrite (bind_Ok _ _ _ _ _ Hread).
    rewrite (bind_Ok _ _ s3 s3 tt) by done.
    rewrite Z.eqb_refl. cbn [negb].
    destruct (WriteHeader_runs (entry_header e) s3) as (s5 & Hwh & Hf5 & Hin5 & Hout5);
      [by rewrite Hf3|].
    rewrite (bind_Ok _ _ _ _ _ Hwh).
    destruct (Write_runs (slice_to (Size (entry_header e)) buf') s5 _ _ Hf5 Hout5)
      as (s6 & Hwr & Hf6 & Hin6 & Hout6).
    { rewrite Hslice. cbn. unfold entry_well_formed in Hwf. lia. }
    rewrite (bind_Ok _ _ _ _ _ Hwr).
    destruct (IH fuel buf' s6) as (io' & Hloop & Hw).
    + by rewrite Hin6, Hin5, Hup3.
    + exact Hf6.
    + by rewrite Hin6, Hin5, Hend3.
    + rewrite Hlen. exact Hall.
    + simpl in Hfuel. lia.
    + exists io'. split; [exact Hloop|].
      rewrite Hw, Hout6, Hout3, Hslice. cbn. rewrite <- app_assoc. cbn.
      by destruct e.
Qed.

Lemma len_replicate {A} (n : Z) (x : A) : 0 <= n -> len (replicate (Z.to_nat n) x) = n.
Proof. intros Hn. unfold len. rewrite length_replicate. lia. Qed.

(** C5.  [doRepackCatchpoint] writes the encoded header as the first entry,
    named [content.msgpack], and then a copy of each input entry in order,
    header and contents: a run that returns nil has written exactly that,
    and has read of every entry as many bytes as the entry declares.  When
    the number of bytes read of some entry differs from its declared size the
    call returns an error.  A well-formed stream that fits the buffer, read
    without a fault, is repacked whole: the output is the header entry
    followed by the input entries as they were. *)
Theorem doRepackCatchpoint_correct :
  forall (Encode : CatchpointFileHeader -> list byte)
         (header : CatchpointFileHeader) (biggestChunkLen : Z) (io : RepackIO),
    0 <= biggestChunkLen < 2 ^ 63 ->
    (forall io' u,
        doRepackCatchpoint Encode header biggestChunkLen io = (io', Ok u) ->
        written (tout io')
        = written (tout io) ++ content_entry Encode header :: (copied <$> upcoming (tin io))
        /\ Forall (fun e => bytes_read biggestChunkLen e = Size (entry_header e))
                  (upcoming (tin io)))
    /\ ((exists e, e ∈ upcoming (tin io)
                   /\ bytes_read biggestChunkLen e <> Size (entry_header e)) ->
        is_panic (default EOF (stream_end (tin io))) = false ->
        exists io' err,
          doRepackCatchpoint Encode header biggestChunkLen io = (io', Err err)
          /\ is_panic err = false)
    /\ (io_faults io = [] -> stream_end (tin io) = None ->
        Forall (fun e => entry_well_formed e /\ Size (entry_header e) <= biggestChunkLen)
               (upcoming (tin io)) ->
        exists io',
          doRepackCatchpoint Encode header biggestChunkLen io = (io', Ok tt)
          /\ written (tout io')
             = written (tout io) ++ content_entry Encode header :: upcoming (tin io)).
Proof.
  intros Encode header biggestChunkLen io Hbig.
  assert (Hbuf : len (replicate (Z.to_nat biggestChunkLen) Byte.x00) = biggestChunkLen)
    by (apply len_replicate; lia).
  assert (Hsuccess : forall io' u,
    doRepackCatchpoint Encode header biggestChunkLen io = (io', Ok u) ->
    written (tout io')
    = written (tout io) ++ content_entry Encode header :: (copied <$> upcoming (tin io))
    /\ Forall (fun e => bytes_read biggestChunkLen e = Size (entry_header e))
              (upcoming (tin io))).
  { intros io' u H. unfold doRepackCatchpoint in H.
    apply bind_Ok_inv in H as (s1 & [] & Hwh & H).
    apply WriteHeader_Ok_inv in Hwh as [Hin1 Hout1].
    apply bind_Ok_inv in H as (s2 & k & Hwr & H).
    eapply Write_Ok_inv in Hwr as [Hin2 Hout2]; [|exact Hout1].
    destruct (Z.gtb_spec biggestChunkLen (2 ^ 63 - 1)); [lia|].
    apply bind_Ok_inv in H as (s3 & s3' & Hget & H).
    apply get_inv in Hget as [-> [= <-]].
    apply doRepackCatchpoint_loop_Ok in H as (Hw & Hall & _).
    rewrite Hin2, Hin1 in Hw, Hall. rewrite Hbuf in Hall.
    split.
    - rewrite Hw, Hout2, <- app_assoc. reflexivity.
    - eapply Forall_impl; [exact Hall|]. by intros e [He _]. }
  split; [exact Hsuccess|]. split.
  - intros (e & Hin & Hne) Hend.
    destruct (doRepackCatchpoint Encode header biggestChunkLen io) as [io' [u|err]] eqn:Hrun.
    { destruct (Hsuccess _ _ eq_refl) as [_ Hall].
      rewrite Forall_forall in Hall. by apply Hall in Hin. }
    exists io', err. split; [reflexivity|].
    unfold doRepackCatchpoint in Hrun.
    apply bind_Err_inv in Hrun as [H|(s1 & [] & Hwh & H)].
    { unfold Tar.WriteHeader in H.
      apply bind_Err_inv in H as [H|(? & [] & _ & H)];
        [apply external_Err_inv in H as ->; done | apply modify_inv in H as [_ [=]]]. }
    apply WriteHeader_Ok_inv in Hwh as [Hin1 Hout1].
    apply bind_Err_inv in H as [H|(s2 & k & Hwr & H)].
    { unfold Tar.Write in H.
      apply bind_Err_inv in H as [H|(? & [] & _ & H)];
        [apply external_Err_inv in H as ->; done|].
      apply bind_Err_inv in H as [H|(? & ? & _ & H)]; [apply get_inv in H as [_ [=]]|].
      destruct (reverse _); [apply fail_inv in H as [_ [= ->]]; done|].
      destruct (_ >? _); [apply fail_inv in H as [_ [= ->]]; done|].
      apply bind_Err_inv in H as [H|(? & [] & _ & H)];
        [apply modify_inv in H as [_ [=]] | apply ret_inv in H as [_ [=]]]. }
    eapply Write_Ok_inv in Hwr as [Hin2 Hout2]; [|exact Hout1].
    destruct (Z.gtb_spec biggestChunkLen (2 ^ 63 - 1)); [lia|].
    apply bind_Err_inv in H as [H|(s3 & s3' & Hget & H)]; [apply get_inv in H as [_ [=]]|].
    apply get_inv in Hget as [-> [= <-]].
    eapply doRepackCatchpoint_loop_finishes; [| |exact H]; [lia|].
    by rewrite Hin2, Hin1.
  - intros Hf Hend Hall. unfold doRepackCatchpoint.
    destruct (WriteHeader_runs
                {| Name := CatchpointContentFileName; Mode := 384;
                   Size := len (Encode header) |} io Hf)
      as (s1 & Hwh & Hf1 & Hin1 & Hout1).
    rewrite (bind_Ok _ _ _ _ _ Hwh).
    destruct (Write_runs (Encode header) s1 _ _ Hf1 Hout1) as (s2 & Hwr & Hf2 & Hin2 & Hout2);
      [cbn; lia|].
    rewrite (bind_Ok _ _ _ _ _ Hwr).
    destruct (Z.gtb_spec biggestChunkLen (2 ^ 63 - 1)); [lia|].
    rewrite (bind_Ok _ _ s2 s2 s2) by done.
    destruct (doRepackCatchpoint_loop_runs (upcoming (tin io))
                (S (length (upcoming (tin s2))))
                (replicate (Z.to_nat biggestChunkLen) Byte.x00) s2)
      as (io' & Hloop & Hw).
    + by rewrite Hin2, Hin1.
    + exact Hf2.
    + by rewrite Hin2, Hin1, Hend.
    + by rewrite Hbuf.
    + rewrite Hin2, Hin1. lia.
    + exists io'. split; [exact Hloop|].
      rewrite Hw, Hout2, <- app_assoc. reflexivity.
Qed.

(** The theorem at a stage-1 stream of two entries and a buffer of four
    bytes: the archive is the header entry and the two entries. *)
Lemma doRepackCatchpoint_correct_witness :
  exists io',
    doRepackCatchpoint Example.Encode Example.header 4 Example.stage1_stream = (io', Ok tt)
    /\ written (tout io')
       = [content_entry Example.Encode Example.header;
          Example.sp_entry; Example.balances_entry].
Proof.
  assert (0 <= 4 < 2 ^ 63) as Hbig by lia.
  apply (proj2 (proj2 (doRepackCatchpoint_correct
                         Example.Encode Example.header 4 Example.stage1_stream Hbig)));
    [reflexivity | reflexivity |].
  repeat constructor; cbn; lia.
Defined.

(** The theorem at a tracker whose interval is 0. *)
Lemma interval_zero_schedules_nothing_witness :
  produceCommittingTask 0 500 0 Example.dcr (set_tracker (Example.with_interval 0) Example.sys)
  = (set_tracker (Example.with_interval 0) Example.sys, Ok (Example.dcr, true))
  /\ ct_calculateCatchpointRounds 0 (Example.with_interval 0 Example.ct) Example.dcr
     = Returns [].
Proof.
  pose proof (interval_zero_schedules_nothing
                (set_tracker (Example.with_interval 0) Example.sys) eq_refl) as [H1 H2].
  split; [apply H1 | apply H2].
Defined.

(** ** What an external call leaves alone *)

Lemma external_Sys_frame op (s s' : Sys) r :
  external op s = (s', r) ->
  tracker s' = tracker s /\ db s' = db s /\ files s' = files s
  /\ logs s' = logs s /\ trieCalls s' = trieCalls s.
Proof.
  unfold external. destruct (faults s) as [|[] rest]; intros [= <- _]; done.
Qed.

Lemma RootHash_frame RootHashOf (s s' : Sys) r :
  RootHash RootHashOf s = (s', r) ->
  tracker s' = tracker s /\ db s' = db s /\ files s' = files s
  /\ logs s' = logs s /\ trieCalls s' = trieCalls s.
Proof.
  unfold RootHash, merkletrie.with_trie, bind, get.
  destruct (balancesTrie (tracker s)); [|intros [= <- _]; done].
  destruct (external "Trie.RootHash" s) as [s1 [[]|e]] eqn:Hext;
    apply external_Sys_frame in Hext; intros [= <- _]; done.
Qed.

Lemma RootHash_runs RootHashOf (s : Sys) :
  trie_ready s -> exists s' root, RootHash RootHashOf s = (s', Ok root).
Proof.
  intros [Hf [t Ht]]. unfold RootHash, merkletrie.with_trie.
  rewrite (bind_Ok _ _ s s s) by done. rewrite Ht.
  rewrite (bind_Ok _ _ s s tt) by (by apply external_no_faults).
  eexists _, _. reflexivity.
Qed.

Lemma merkletrie_Commit_Ok_inv s s' u :
  merkletrie.Commit s = (s', Ok u) ->
  trieCalls s' = trieCalls s ++ [CallCommit] /\ logs s' = logs s.
Proof.
  unfold merkletrie.Commit, merkletrie.with_trie. intros H.
  apply bind_Ok_inv in H as (s0 & s0' & Hget & H). apply get_inv in Hget as [-> [= ->]].
  destruct (balancesTrie (tracker s)) as [t|]; [|apply fail_inv in H as [_ [=]]].
  apply bind_Ok_inv in H as (s1 & [] & Hext & H).
  apply bind_Ok_inv in H as (s2 & [] & Hm1 & H). apply modify_inv in Hm1 as [-> _].
  apply modify_inv in H as [-> _]. cbn.
  apply external_Sys_frame in Hext as (_ & _ & _ & -> & ->). done.
Qed.

(** ** The trie maintainer *)

(** [Forall] over a list that is written out. *)
Ltac forall_list :=
  repeat first [apply List.Forall_nil | apply List.Forall_cons]; try done.

Lemma trie_steps_refl s n : trie_steps s n s n [].
Proof.
  unfold trie_steps. rewrite app_nil_r. split_and!; [done | forall_list | rewrite filter_nil; unfold len; simpl; lia |].
  exists []. rewrite app_nil_r. split_and!; [done | forall_list | done].
Qed.

Lemma trie_steps_trans s n s1 n1 s2 n2 c1 c2 :
  trie_steps s n s1 n1 c1 -> trie_steps s1 n1 s2 n2 c2 ->
  trie_steps s n s2 n2 (c1 ++ c2).
Proof.
  intros (Hc1 & Hn1 & Hcount1 & l1 & Hl1 & Hlev1 & Hargs1)
         (Hc2 & Hn2 & Hcount2 & l2 & Hl2 & Hlev2 & Hargs2).
  unfold trie_steps. split_and!.
  - by rewrite Hc2, Hc1, app_assoc.
  - by apply Forall_app.
  - rewrite filter_app, len_app. lia.
  - exists (l1 ++ l2). split_and!.
    + by rewrite Hl2, Hl1, app_assoc.
    + by apply Forall_app.
    + by rewrite filter_app, !fmap_app, Hargs1, Hargs2.
Qed.

(** The trie calls themselves. *)
Lemma merkletrie_Delete_Ok_inv d s s' b :
  merkletrie.Delete d s = (s', Ok b) ->
  trieCalls s' = trieCalls s ++ [CallDelete d b] /\ logs s' = logs s.
Proof.
  unfold merkletrie.Delete, merkletrie.with_trie. intros H.
  apply bind_Ok_inv in H as (s0 & s0' & Hget & H). apply get_inv in Hget as [-> [= ->]].
  destruct (balancesTrie (tracker s)) as [t|]; [|apply fail_inv in H as [_ [=]]].
  apply bind_Ok_inv in H as (s1 & [] & Hext & H).
  apply bind_Ok_inv in H as (s2 & [] & Hm1 & H). apply modify_inv in Hm1 as [-> _].
  apply bind_Ok_inv in H as (s3 & [] & Hm2 & H). apply modify_inv in Hm2 as [-> _].
  apply ret_inv in H as [-> [= ->]]. cbn.
  apply external_Ok_inv in Hext as [->|(rest & _ & ->)]; done.
Qed.

Lemma merkletrie_Add_Ok_inv d s s' b :
  merkletrie.Add d s = (s', Ok b) ->
  trieCalls s' = trieCalls s ++ [CallAdd d b] /\ logs s' = logs s.
Proof.
  unfold merkletrie.Add, merkletrie.with_trie. intros H.
  apply bind_Ok_inv in H as (s0 & s0' & Hget & H). apply get_inv in Hget as [-> [= ->]].
  destruct (balancesTrie (tracker s)) as [t|]; [|apply fail_inv in H as [_ [=]]].
  apply bind_Ok_inv in H as (s1 & [] & Hext & H).
  apply bind_Ok_inv in H as (s2 & [] & Hm1 & H). apply modify_inv in Hm1 as [-> _].
  apply bind_Ok_inv in H as (s3 & [] & Hm2 & H). apply modify_inv in Hm2 as [-> _].
  apply ret_inv in H as [-> [= ->]]. cbn.
  apply external_Ok_inv in Hext as [->|(rest & _ & ->)]; done.
Qed.

Lemma trie_delete_Ok_inv d msg n s s' n' :
  trie_delete d msg n s = (s', Ok n') ->
  exists b, trie_steps s n s' n' [CallDelete d b].
Proof.
  unfold trie_delete. intros H.
  apply bind_Ok_inv in H as (s1 & r & Htry & H). apply try_Ok_inv in Htry as [Hdel _].
  destruct r as [[]|e]; [| |apply fail_inv in H as [_ [=]]].
  - apply ret_inv in H as [-> [= ->]].
    apply merkletrie_Delete_Ok_inv in Hdel as [Hc Hl].
    exists true. unfold trie_steps. split_and!; [done | forall_list | reflexivity |].
    exists []. rewrite app_nil_r. split_and!; [done | forall_list | done].
  - apply bind_Ok_inv in H as (s2 & [] & Hlog & H).
    apply modify_inv in Hlog as [-> _]. apply ret_inv in H as [-> [= ->]].
    apply merkletrie_Delete_Ok_inv in Hdel as [Hc Hl].
    exists false. unfold trie_steps. split_and!; [done | forall_list | unfold len; simpl; lia |].
    eexists [_]. cbn. rewrite Hl. split_and!; [done | forall_list | done].
Qed.

Lemma trie_add_Ok_inv d msg n s s' n' :
  trie_add d msg n s = (s', Ok n') ->
  exists b, trie_steps s n s' n' [CallAdd d b].
Proof.
  unfold trie_add. intros H.
  apply bind_Ok_inv in H as (s1 & r & Htry & H). apply try_Ok_inv in Htry as [Hadd _].
  destruct r as [[]|e]; [| |apply fail_inv in H as [_ [=]]].
  - apply ret_inv in H as [-> [= ->]].
    apply merkletrie_Add_Ok_inv in Hadd as [Hc Hl].
    exists true. unfold trie_steps. split_and!; [done | forall_list | reflexivity |].
    exists []. rewrite app_nil_r. split_and!; [done | forall_list | done].
  - apply bind_Ok_inv in H as (s2 & [] & Hlog & H).
    apply modify_inv in Hlog as [-> _]. apply ret_inv in H as [-> [= ->]].
    apply merkletrie_Add_Ok_inv in Hadd as [Hc Hl].
    exists false. unfold trie_steps. split_and!; [done | forall_list | unfold len; simpl; lia |].
    eexists [_]. cbn. rewrite Hl. split_and!; [done | forall_list | done].
Qed.

Lemma for_count_Ok_inv {A} (body : A -> Z -> ST Sys Z) (ops : A -> list TrieOp) :
  (forall x n s s' n',
      body x n s = (s', Ok n') ->
      exists calls, trie_steps s n s' n' calls /\ omap call_op calls = ops x) ->
  forall xs n s s' n',
    for_count xs body n s = (s', Ok n') ->
    exists calls, trie_steps s n s' n' calls /\ omap call_op calls = concat (ops <$> xs).
Proof.
  intros Hbody. induction xs as [|x xs IH]; intros n s s' n' H; cbn in H.
  - apply ret_inv in H as [-> [= ->]]. exists []. split; [apply trie_steps_refl | done].
  - apply bind_Ok_inv in H as (s1 & n1 & Hx & H).
    apply Hbody in Hx as (c1 & Hs1 & Hops1).
    apply IH in H as (c2 & Hs2 & Hops2).
    exists (c1 ++ c2). split; [by eapply trie_steps_trans|].
    rewrite omap_app, Hops1, Hops2. done.
Qed.

Lemma changed_count calls :
  (0 + len (filter (fun c => call_changed c = true) calls) >? 0) = existsb call_changed calls.
Proof.
  induction calls as [|c calls IH]; [done|].
  rewrite filter_cons. cbn [existsb].
  destruct (call_changed c) eqn:Hc.
  - rewrite decide_True by done. cbn.
    pose proof (len_nonneg (filter (fun c => call_changed c = true) calls)).
    unfold len in *. rewrite length_cons. apply Z.gtb_lt. lia.
  - rewrite decide_False by done. exact IH.
Qed.

Section TrieMaintainerFacts.

Context {Address BaseAccountData ResourcesData : Type}.
Variable BaseAccountData_IsEmpty : BaseAccountData -> bool.
Variable ResourcesData_IsEmpty : ResourcesData -> bool.
Variable UpdateRound : ResourcesData -> Z.
Variable AccountHashBuilderV6 : Address -> BaseAccountData -> Digest.
Variable ResourcesHashBuilderV6 : ResourcesData -> Address -> Z -> Z -> res Digest.
Variable KvHashBuilderV6 : string -> list byte -> Digest.
Variable RootHashOf : gset Digest -> Digest.

Lemma update_account_Ok_inv delta n s s' n' :
  update_account BaseAccountData_IsEmpty AccountHashBuilderV6 delta n s = (s', Ok n') ->
  exists calls,
    trie_steps s n s' n' calls
    /\ omap call_op calls = account_ops BaseAccountData_IsEmpty AccountHashBuilderV6 delta.
Proof.
  unfold update_account, account_ops. intros H.
  apply bind_Ok_inv in H as (s1 & n1 & Hold & H).
  assert (exists c1, trie_steps s n s1 n1 c1
            /\ omap call_op c1
               = if BaseAccountData_IsEmpty (oldAcct delta) then []
                 else [OpDelete (AccountHashBuilderV6 (acct_address delta) (oldAcct delta))])
    as (c1 & Hs1 & Hops1).
  { destruct (BaseAccountData_IsEmpty (oldAcct delta)); cbn in Hold.
    - apply ret_inv in Hold as [-> [= ->]]. exists []. split; [apply trie_steps_refl|done].
    - apply trie_delete_Ok_inv in Hold as (b & Hs). eauto. }
  assert (exists c2, trie_steps s1 n1 s' n' c2
            /\ omap call_op c2
               = if BaseAccountData_IsEmpty (newAcct delta) then []
                 else [OpAdd (AccountHashBuilderV6 (acct_address delta) (newAcct delta))])
    as (c2 & Hs2 & Hops2).
  { destruct (BaseAccountData_IsEmpty (newAcct delta)); cbn in H.
    - apply ret_inv in H as [-> [= ->]]. exists []. split; [apply trie_steps_refl|done].
    - apply trie_add_Ok_inv in H as (b & Hs). eauto. }
  exists (c1 ++ c2). split; [by eapply trie_steps_trans|].
  by rewrite omap_app, Hops1, Hops2.
Qed.

Lemma update_resource_Ok_inv delta n s s' n' :
  update_resource ResourcesData_IsEmpty UpdateRound ResourcesHashBuilderV6 delta n s
  = (s', Ok n') ->
  exists calls,
    trie_steps s n s' n' calls
    /\ omap call_op calls
       = resource_ops ResourcesData_IsEmpty UpdateRound ResourcesHashBuilderV6 delta.
Proof.
  unfold update_resource, resource_ops. intros H.
  apply bind_Ok_inv in H as (s1 & n1 & Hold & H).
  assert (exists c1, trie_steps s n s1 n1 c1
            /\ omap call_op c1
               = if ResourcesData_IsEmpty (oldResource_Data delta) then []
                 else [OpDelete (hash_or_zero
                         (ResourcesHashBuilderV6 (oldResource_Data delta) (res_address delta)
                            (oldResource_Aidx delta)
                            (UpdateRound (oldResource_Data delta))))])
    as (c1 & Hs1 & Hops1).
  { destruct (ResourcesData_IsEmpty (oldResource_Data delta)); cbn in Hold.
    - apply ret_inv in Hold as [-> [= ->]]. exists []. split; [apply trie_steps_refl|done].
    - destruct (ResourcesHashBuilderV6 (oldResource_Data delta) (res_address delta)
                  (oldResource_Aidx delta) (UpdateRound (oldResource_Data delta)))
        as [d|e] eqn:Hb; try rewrite Hb in Hold;
        [|apply fail_inv in Hold as [_ [=]]].
      apply trie_delete_Ok_inv in Hold as (b & Hs). eauto. }
  assert (exists c2, trie_steps s1 n1 s' n' c2
            /\ omap call_op c2
               = if ResourcesData_IsEmpty (newResource delta) then []
                 else [OpAdd (hash_or_zero
                         (ResourcesHashBuilderV6 (newResource delta) (res_address delta)
                            (oldResource_Aidx delta) (UpdateRound (newResource delta))))])
    as (c2 & Hs2 & Hops2).
  { destruct (ResourcesData_IsEmpty (newResource delta)); cbn in H.
    - apply ret_inv in H as [-> [= ->]]. exists []. split; [apply trie_steps_refl|done].
    - destruct (ResourcesHashBuilderV6 (newResource delta) (res_address delta)
                  (oldResource_Aidx delta) (UpdateRound (newResource delta)))
        as [d|e] eqn:Hb; try rewrite Hb in H;
        [|apply fail_inv in H as [_ [=]]].
      apply trie_add_Ok_inv in H as (b & Hs). eauto. }
  exists (c1 ++ c2). split; [by eapply trie_steps_trans|].
  by rewrite omap_app, Hops1, Hops2.
Qed.

Lemma update_kv_Ok_inv kv n s s' n' :
  update_kv KvHashBuilderV6 kv n s = (s', Ok n') ->
  exists calls,
    trie_steps s n s' n' calls /\ omap call_op calls = kv_ops KvHashBuilderV6 kv.
Proof.
  unfold update_kv, kv_ops. destruct kv as [key mv]. cbn [fst snd].
  destruct (oldData mv) as [old|] eqn:Hold, (data mv) as [new|] eqn:Hnew; intros H.
  - rewrite bool_decide_true in H by eauto. cbn [andb] in H.
    destruct (decide (old = new)) as [->|Hne].
    + rewrite bool_decide_true in H by done.
      apply bind_Ok_inv in H as (s1 & [n1 c] & Hr & H).
      apply ret_inv in Hr as [-> [= -> ->]]. apply ret_inv in H as [-> [= ->]].
      exists []. split; [apply trie_steps_refl|done].
    + rewrite bool_decide_false in H by congruence.
      apply bind_Ok_inv in H as (s1 & [n1 c] & Hr & H).
      apply bind_Ok_inv in Hr as (s2 & n2 & Hdel & Hr).
      apply ret_inv in Hr as [-> [= -> ->]].
      apply trie_delete_Ok_inv in Hdel as (b1 & Hs1).
      apply trie_add_Ok_inv in H as (b2 & Hs2).
      eexists. split; [by eapply trie_steps_trans|done].
  - rewrite bool_decide_false in H by (intros [? ?]; discriminate). cbn [andb] in H.
    apply bind_Ok_inv in H as (s1 & [n1 c] & Hr & H).
    apply bind_Ok_inv in Hr as (s2 & n2 & Hdel & Hr).
    apply ret_inv in Hr as [-> [= -> ->]]. apply ret_inv in H as [-> [= ->]].
    apply trie_delete_Ok_inv in Hdel as (b1 & Hs1). eauto.
  - apply bind_Ok_inv in H as (s1 & [n1 c] & Hr & H).
    apply ret_inv in Hr as [-> [= -> ->]].
    apply trie_add_Ok_inv in H as (b2 & Hs2). eauto.
  - apply ret_inv in H as [-> [= ->]]. exists []. split; [apply trie_steps_refl|done].
Qed.

End TrieMaintainerFacts.

(** Without faults and with a trie in place every trie call returns. *)
Lemma merkletrie_Delete_runs d s :
  trie_ready s -> exists s' b, merkletrie.Delete d s = (s', Ok b) /\ trie_ready s'.
Proof.
  intros [Hf [t Ht]]. unfold merkletrie.Delete, merkletrie.with_trie.
  rewrite (bind_Ok _ _ s s s) by done. rewrite Ht.
  rewrite (bind_Ok _ _ s s tt) by (by apply external_no_faults).
  eexists _, _. split; [reflexivity|]. split; [exact Hf | by eexists].
Qed.

Lemma merkletrie_Add_runs d s :
  trie_ready s -> exists s' b, merkletrie.Add d s = (s', Ok b) /\ trie_ready s'.
Proof.
  intros [Hf [t Ht]]. unfold merkletrie.Add, merkletrie.with_trie.
  rewrite (bind_Ok _ _ s s s) by done. rewrite Ht.
  rewrite (bind_Ok _ _ s s tt) by (by apply external_no_faults).
  eexists _, _. split; [reflexivity|]. split; [exact Hf | by eexists].
Qed.

Lemma merkletrie_Commit_runs s :
  trie_ready s -> exists s', merkletrie.Commit s = (s', Ok tt) /\ trie_ready s'.
Proof.
  intros [Hf [t Ht]]. unfold merkletrie.Commit, merkletrie.with_trie.
  rewrite (bind_Ok _ _ s s s) by done. rewrite Ht.
  rewrite (bind_Ok _ _ s s tt) by (by apply external_no_faults).
  eexists. split; [reflexivity|]. split; [exact Hf | by eexists].
Qed.

Lemma logf_ready level format args s :
  trie_ready s -> trie_ready (set_logs (fun l => l ++ [ {| log_level := level;
                                                            log_format := format;
                                                            log_args := args |} ]) s).
Proof. intros [Hf Ht]. split; done. Qed.

Lemma trie_delete_runs d msg n s :
  trie_ready s -> exists s' n', trie_delete d msg n s = (s', Ok n') /\ trie_ready s'.
Proof.
  intros Hr. destruct (merkletrie_Delete_runs d s Hr) as (s1 & b & Hdel & Hr1).
  unfold trie_delete. rewrite (bind_Ok _ _ _ _ _ (try_Ok _ _ _ _ Hdel)).
  destruct b.
  - eexists _, _. split; [reflexivity | exact Hr1].
  - eexists _, _. split; [reflexivity | by apply logf_ready].
Qed.

Lemma trie_add_runs d msg n s :
  trie_ready s -> exists s' n', trie_add d msg n s = (s', Ok n') /\ trie_ready s'.
Proof.
  intros Hr. destruct (merkletrie_Add_runs d s Hr) as (s1 & b & Hadd & Hr1).
  unfold trie_add. rewrite (bind_Ok _ _ _ _ _ (try_Ok _ _ _ _ Hadd)).
  destruct b.
  - eexists _, _. split; [reflexivity | exact Hr1].
  - eexists _, _. split; [reflexivity | by apply logf_ready].
Qed.

Lemma for_count_runs {A} (body : A -> Z -> ST Sys Z) (P : A -> Prop) :
  (forall x n s, P x -> trie_ready s ->
                 exists s' n', body x n s = (s', Ok n') /\ trie_ready s') ->
  forall xs n s, Forall P xs -> trie_ready s ->
                 exists s' n', for_count xs body n s = (s', Ok n') /\ trie_ready s'.
Proof.
  intros Hbody. induction xs as [|x xs IH]; intros n s Hall Hr; cbn.
  - eexists _, _. split; [reflexivity | exact Hr].
  - apply Forall_cons in Hall as [Hx Hall].
    destruct (Hbody x n s Hx Hr) as (s1 & n1 & Hrun & Hr1).
    rewrite (bind_Ok _ _ _ _ _ Hrun). by apply IH.
Qed.

Section TrieMaintainerTheorem.

Context {Address BaseAccountData ResourcesData : Type}.
Variable BaseAccountData_IsEmpty : BaseAccountData -> bool.
Variable ResourcesData_IsEmpty : ResourcesData -> bool.
Variable UpdateRound : ResourcesData -> Z.
Variable AccountHashBuilderV6 : Address -> BaseAccountData -> Digest.
Variable ResourcesHashBuilderV6 : ResourcesData -> Address -> Z -> Z -> res Digest.
Variable KvHashBuilderV6 : string -> list byte -> Digest.
Variable RootHashOf : gset Digest -> Digest.

Lemma update_account_runs delta n s :
  trie_ready s ->
  exists s' n',
    update_account BaseAccountData_IsEmpty AccountHashBuilderV6 delta n s = (s', Ok n')
    /\ trie_ready s'.
Proof.
  intros Hr. unfold update_account.
  assert (exists s1 n1,
            (if negb (BaseAccountData_IsEmpty (oldAcct delta))
             then trie_delete (AccountHashBuilderV6 (acct_address delta) (oldAcct delta))
                    "failed to delete hash '%s' from merkle trie for account %v" n
             else ret n) s = (s1, Ok n1) /\ trie_ready s1) as (s1 & n1 & Hold & Hr1).
  { destruct (BaseAccountData_IsEmpty (oldAcct delta)); cbn.
    - eexists _, _. split; [reflexivity | exact Hr].
    - by apply trie_delete_runs. }
  rewrite (bind_Ok _ _ _ _ _ Hold).
  destruct (BaseAccountData_IsEmpty (newAcct delta)); cbn.
  - eexists _, _. split; [reflexivity | exact Hr1].
  - by apply trie_add_runs.
Qed.

Lemma update_resource_runs delta n s :
  resource_hashable ResourcesData_IsEmpty UpdateRound ResourcesHashBuilderV6 delta ->
  trie_ready s ->
  exists s' n',
    update_resource ResourcesData_IsEmpty UpdateRound ResourcesHashBuilderV6 delta n s
    = (s', Ok n')
    /\ trie_ready s'.
Proof.
  intros [Hhold Hhnew] Hr. unfold update_resource.
  assert (exists s1 n1,
            (if negb (ResourcesData_IsEmpty (oldResource_Data delta))
             then match ResourcesHashBuilderV6 (oldResource_Data delta) (res_address delta)
                          (oldResource_Aidx delta) (UpdateRound (oldResource_Data delta)) with
                  | Ok deleteHash =>
                      trie_delete deleteHash
                        "failed to delete resource hash '%s' from merkle trie for account %v" n
                  | Err e => fail e
                  end
             else ret n) s = (s1, Ok n1) /\ trie_ready s1) as (s1 & n1 & Hold & Hr1).
  { destruct (ResourcesData_IsEmpty (oldResource_Data delta)); cbn.
    - eexists _, _. split; [reflexivity | exact Hr].
    - destruct (Hhold eq_refl) as [d ->]. by apply trie_delete_runs. }
  rewrite (bind_Ok _ _ _ _ _ Hold).
  destruct (ResourcesData_IsEmpty (newResource delta)); cbn.
  - eexists _, _. split; [reflexivity | exact Hr1].
  - destruct (Hhnew eq_refl) as [d ->]. by apply trie_add_runs.
Qed.

Lemma update_kv_runs kv n s :
  trie_ready s ->
  exists s' n', update_kv KvHashBuilderV6 kv n s = (s', Ok n') /\ trie_ready s'.
Proof.
  intros Hr. unfold update_kv. destruct kv as [key mv].
  destruct (oldData mv) as [old|] eqn:Hold, (data mv) as [new|] eqn:Hnew.
  - destruct (bool_decide (is_Some (Some new)) && bool_decide (Some old = Some new)).
    + rewrite (bind_Ok _ _ s s (n, true)) by done.
      eexists _, _. split; [reflexivity | exact Hr].
    + destruct (trie_delete_runs (KvHashBuilderV6 key old)
                  "failed to delete kv hash '%s' from merkle trie for key %v" n s Hr)
        as (s1 & n1 & Hdel & Hr1).
      rewrite (bind_Ok _ _ s s1 (n1, false)) by (by rewrite (bind_Ok _ _ _ _ _ Hdel)).
      by apply trie_add_runs.
  - rewrite bool_decide_false by (intros [? ?]; discriminate). cbn [andb].
    destruct (trie_delete_runs (KvHashBuilderV6 key old)
                "failed to delete kv hash '%s' from merkle trie for key %v" n s Hr)
      as (s1 & n1 & Hdel & Hr1).
    rewrite (bind_Ok _ _ s s1 (n1, false)) by (by rewrite (bind_Ok _ _ _ _ _ Hdel)).
    eexists _, _. split; [reflexivity | exact Hr1].
  - rewrite (bind_Ok _ _ s s (n, false)) by done. by apply trie_add_runs.
  - eexists _, _. split; [reflexivity | exact Hr].
Qed.

(** The run of the three loops. *)
Lemma accountsUpdateBalances_loops accountsDeltas resourcesDeltas kvDeltas s s1 n1 s2 n2 s3 n3 :
  for_count accountsDeltas (update_account BaseAccountData_IsEmpty AccountHashBuilderV6) 0 s
  = (s1, Ok n1) ->
  for_count resourcesDeltas
    (update_resource ResourcesData_IsEmpty UpdateRound ResourcesHashBuilderV6) n1 s1
  = (s2, Ok n2) ->
  for_count kvDeltas (update_kv KvHashBuilderV6) n2 s2 = (s3, Ok n3) ->
  exists calls,
    trie_steps s 0 s3 n3 calls
    /\ omap call_op calls
       = expected_ops BaseAccountData_IsEmpty ResourcesData_IsEmpty UpdateRound
           AccountHashBuilderV6 ResourcesHashBuilderV6 KvHashBuilderV6
           accountsDeltas resourcesDeltas kvDeltas.
Proof.
  intros Ha Hr Hk.
  eapply for_count_Ok_inv in Ha as (c1 & Hs1 & Ho1);
    [|intros; by eapply update_account_Ok_inv].
  eapply for_count_Ok_inv in Hr as (c2 & Hs2 & Ho2);
    [|intros; by eapply update_resource_Ok_inv].
  eapply for_count_Ok_inv in Hk as (c3 & Hs3 & Ho3);
    [|intros; by eapply update_kv_Ok_inv].
  exists (c1 ++ c2 ++ c3). split.
  - eapply trie_steps_trans; [exact Hs1|]. eapply trie_steps_trans; [exact Hs2 | exact Hs3].
  - unfold expected_ops. by rewrite !omap_app, Ho1, Ho2, Ho3.
Qed.

(** C6 (as amended).  When catchpoint tracking is enabled
    ([catchpointInterval <> 0]) and [accountsUpdateBalances] returns nil, it
    has called [Delete] with the old hash of each entry whose old value is not
    empty and [Add] with the new hash of each entry whose new value is not
    empty, in the order of the deltas; a KV delta whose old and new payloads
    are byte-equal, or both absent, made no call; each call that returned
    false left an error line in the log; and [Commit] was invoked, once and
    after all of them, iff one of the calls changed the trie.  A false return
    does not make the call fail: while the trie, its committer and the hash
    builders report no error, the call returns nil.  When catchpoint tracking
    is disabled the call returns nil and touches nothing. *)
Theorem accountsUpdateBalances_correct :
  forall accountsDeltas resourcesDeltas kvDeltas oldBase newBase (s : Sys),
    let run :=
      accountsUpdateBalances BaseAccountData_IsEmpty ResourcesData_IsEmpty UpdateRound
        AccountHashBuilderV6 ResourcesHashBuilderV6 KvHashBuilderV6 RootHashOf
        accountsDeltas resourcesDeltas kvDeltas oldBase newBase in
    let expected :=
      expected_ops BaseAccountData_IsEmpty ResourcesData_IsEmpty UpdateRound
        AccountHashBuilderV6 ResourcesHashBuilderV6 KvHashBuilderV6
        accountsDeltas resourcesDeltas kvDeltas in
    (catchpointEnabled (tracker s) = false -> run s = (s, Ok tt))
    /\ (catchpointEnabled (tracker s) = true ->
        (forall s', run s = (s', Ok tt) -> balances_updated s s' expected)
        /\ (trie_ready s ->
            Forall (resource_hashable ResourcesData_IsEmpty UpdateRound
                                      ResourcesHashBuilderV6) resourcesDeltas ->
            exists s', run s = (s', Ok tt))).
Proof.
  intros accountsDeltas resourcesDeltas kvDeltas oldBase newBase s run expected.
  subst run. unfold accountsUpdateBalances. split.
  { intros Hoff. rewrite (bind_Ok _ _ s s s) by done. by rewrite Hoff. }
  intros Hon. split.
  - intros s' H.
    apply bind_Ok_inv in H as (s0 & s0' & Hget & H). apply get_inv in Hget as [-> [= ->]].
    rewrite Hon in H. cbn [negb] in H.
    apply bind_Ok_inv in H as (s1 & n1 & Ha & H).
    apply bind_Ok_inv in H as (s2 & n2 & Hr & H).
    apply bind_Ok_inv in H as (s3 & n3 & Hk & H).
    destruct (accountsUpdateBalances_loops _ _ _ _ _ _ _ _ _ _ Ha Hr Hk)
      as (calls & (Hcalls & Hnocommit & Hcount & oplogs & Hlogs & Hlev & Hargs) & Hops).
    apply bind_Ok_inv in H as (s4 & commitErr & Hc & H).
    apply bind_Ok_inv in H as (s5 & [] & Htel & H).
    destruct commitErr as [[]|e]; [|apply fail_inv in H as [_ [=]]].
    apply ret_inv in H as [-> _].
    rewrite Hcount, changed_count in Hc.
    assert (trieCalls s4
            = trieCalls s3 ++ (if existsb call_changed calls then [CallCommit] else [])
            /\ logs s4 = logs s3) as [Hc4 Hl4].
    { destruct (existsb call_changed calls).
      - apply try_Ok_inv in Hc as [Hc _]. by apply merkletrie_Commit_Ok_inv in Hc.
      - apply ret_inv in Hc as [-> _]. by rewrite app_nil_r. }
    assert (exists telemetry, trieCalls s5 = trieCalls s4
                              /\ logs s5 = logs s4 ++ telemetry
                              /\ (length telemetry <= 1)%nat) as (tel & Hc5 & Hl5 & Htl).
    { destruct (telemetryEnabled s).
      - apply bind_Ok_inv in Htel as (s6 & root & Hroot & Htel).
        apply try_Ok_inv in Hroot as [Hroot _].
        apply RootHash_frame in Hroot as (_ & _ & _ & Hl6 & Hc6).
        destruct root as [root|e]; apply modify_inv in Htel as [-> _]; cbn;
          rewrite Hl6, Hc6; eexists [_]; (split_and!; [done | done | simpl; lia]).
      - apply ret_inv in Htel as [-> _]. exists []. rewrite app_nil_r.
        split_and!; [done | done | simpl; lia]. }
    exists calls, oplogs, tel. split_and!; try done.
    + by rewrite Hc5, Hc4, Hcalls, app_assoc.
    + by rewrite Hl5, Hl4, Hlogs, app_assoc.
  - intros Hready Hhash.
    rewrite (bind_Ok _ _ s s s) by done. rewrite Hon. cbn [negb].
    destruct (for_count_runs
                (update_account BaseAccountData_IsEmpty AccountHashBuilderV6)
                (fun _ => True)
                (fun x n s _ => update_account_runs x n s)
                accountsDeltas 0 s) as (s1 & n1 & Ha & Hr1);
      [by apply Forall_true | exact Hready |].
    rewrite (bind_Ok _ _ _ _ _ Ha).
    destruct (for_count_runs
                (update_resource ResourcesData_IsEmpty UpdateRound ResourcesHashBuilderV6)
                _ (fun x n s => update_resource_runs x n s)
                resourcesDeltas n1 s1 Hhash Hr1) as (s2 & n2 & Hr & Hr2).
    rewrite (bind_Ok _ _ _ _ _ Hr).
    destruct (for_count_runs (update_kv KvHashBuilderV6) (fun _ => True)
                (fun x n s _ => update_kv_runs x n s)
                kvDeltas n2 s2) as (s3 & n3 & Hk & Hr3);
      [by apply Forall_true | exact Hr2 |].
    rewrite (bind_Ok _ _ _ _ _ Hk).
    assert (exists s4, (if n3 >? 0 then try merkletrie.Commit else ret (Ok tt)) s3
                       = (s4, Ok (Ok tt)) /\ trie_ready s4) as (s4 & Hc & Hr4).
    { destruct (n3 >? 0).
      - destruct (merkletrie_Commit_runs s3 Hr3) as (s4 & Hc & Hr4).
        exists s4. split; [by apply try_Ok | exact Hr4].
      - by exists s3. }
    rewrite (bind_Ok _ _ _ _ _ Hc).
    destruct (telemetryEnabled s).
    + destruct (RootHash_runs RootHashOf s4 Hr4) as (s5 & root & Hroot).
      rewrite (bind_Ok _ _ s4 _ tt)
        by (rewrite (bind_Ok _ _ _ _ _ (try_Ok _ _ _ _ Hroot)); reflexivity).
      eexists. reflexivity.
    + rewrite (bind_Ok _ _ s4 s4 tt) by done. eexists. reflexivity.
Qed.

End TrieMaintainerTheorem.

(** The theorem at a tracker with interval 100, an account that changes, a
    key that is created and a key that came back to its value: the old
    account hash is deleted, the new one added, the created key added, and
    the unchanged key skipped. *)
Lemma accountsUpdateBalances_correct_witness :
  exists s',
    accountsUpdateBalances Example.IsEmpty Example.IsEmpty Example.UpdateRound
      Example.AccountHash Example.ResourceHash Example.KvHash Example.RootHashOf
      [Example.account_delta] [] [Example.kv_created; Example.kv_unchanged] 80 81
      Example.sys
    = (s', Ok tt)
    /\ balances_updated Example.sys s' [OpDelete 7001; OpAdd 7002; OpAdd 2001].
Proof.
  destruct (accountsUpdateBalances_correct
              Example.IsEmpty Example.IsEmpty Example.UpdateRound
              Example.AccountHash Example.ResourceHash Example.KvHash Example.RootHashOf
              [Example.account_delta] [] [Example.kv_created; Example.kv_unchanged] 80 81
              Example.sys) as [_ Hon].
  destruct (Hon eq_refl) as [Hupdated Hruns].
  destruct Hruns as [s' Hrun].
  - split; [reflexivity | by eexists].
  - apply List.Forall_nil.
  - exists s'. split; [exact Hrun|]. apply (Hupdated s' Hrun).
Defined.

(** With [catchpointInterval = 0] the call returns nil at once: the account
    delta asks for a delete and an add, and no call is made on the trie. *)
Lemma accountsUpdateBalances_disabled :
  let s0 := set_tracker (Example.with_interval 0) Example.sys in
  let expected :=
    expected_ops Example.IsEmpty Example.IsEmpty Example.UpdateRound
      Example.AccountHash Example.ResourceHash Example.KvHash
      [Example.account_delta] [] [] in
  trie_ready s0
  /\ accountsUpdateBalances Example.IsEmpty Example.IsEmpty Example.UpdateRound
       Example.AccountHash Example.ResourceHash Example.KvHash Example.RootHashOf
       [Example.account_delta] [] [] 80 81 s0
     = (s0, Ok tt)
  /\ expected = [OpDelete 7001; OpAdd 7002]
  /\ ~ balances_updated s0 s0 expected.
Proof.
  cbv zeta. split_and!.
  - split; [reflexivity | by eexists].
  - reflexivity.
  - reflexivity.
  - intros (calls & oplogs & tel & Hcalls & _ & Hops & _).
    cbn in Hcalls. destruct calls as [|c calls]; [discriminate Hops | discriminate Hcalls].
Qed.

(** ** Calls on the database and the file system *)

Lemma same_but_faults_refl s : same_but_faults s s.
Proof. by unfold same_but_faults. Qed.

Lemma same_but_faults_trans s1 s2 s3 :
  same_but_faults s1 s2 -> same_but_faults s2 s3 -> same_but_faults s1 s3.
Proof.
  unfold same_but_faults.
  intros (-> & -> & -> & -> & -> & ->) (-> & -> & -> & -> & -> & ->). done.
Qed.

Lemma external_same op (s s' : Sys) r : external op s = (s', r) -> same_but_faults s s'.
Proof.
  unfold external, same_but_faults.
  destruct (faults s) as [|[] rest]; intros [= <- _]; done.
Qed.

(** The calls of the shape "ask the environment, then update". *)
Lemma external_modify_inv op (f : Sys -> Sys) (s s' : Sys) r :
  (external op;; modify f) s = (s', r) ->
  (exists s1, same_but_faults s s1 /\ s' = f s1 /\ r = Ok tt)
  \/ (same_but_faults s s' /\ r = Err (ErrFault op)).
Proof.
  unfold bind. destruct (external op s) as [s1 [[]|e]] eqn:Hext.
  - intros H. apply modify_inv in H as [-> ->]. left. exists s1.
    split; [by eapply external_same | done].
  - intros [= <- <-]. right. split; [by eapply external_same|].
    by apply external_Err_inv in Hext as ->.
Qed.

Lemma Stat_inv path (s s' : Sys) r :
  os.Stat path s = (s', r) ->
  same_but_faults s s'
  /\ match r with
     | Ok f => files s !! path = Some f
     | Err e => e = ErrFault "os.Stat" \/ (e = ErrNotExist /\ files s !! path = None)
     end.
Proof.
  unfold os.Stat, bind, get. destruct (external "os.Stat" s) as [s1 [[]|e]] eqn:Hext.
  - pose proof (external_same _ _ _ _ Hext) as Hsame.
    destruct Hsame as (Ht & Hd & Hf & Hrest). rewrite Hf.
    destruct (files s !! path) as [f|] eqn:Hfile; intros [= <- <-];
      (split; [by eapply external_same | auto]).
  - intros [= <- <-]. split; [by eapply external_same|].
    left. by apply external_Err_inv in Hext.
Qed.

Lemma OpenFile_inv path (s s' : Sys) r :
  os.OpenFile path s = (s', r) ->
  same_but_faults s s'
  /\ match r with
     | Ok f => files s !! path = Some f
     | Err e => e = ErrFault "os.OpenFile" \/ (e = ErrNotExist /\ files s !! path = None)
     end.
Proof.
  unfold os.OpenFile, bind, get. destruct (external "os.OpenFile" s) as [s1 [[]|e]] eqn:Hext.
  - pose proof (external_same _ _ _ _ Hext) as Hsame.
    destruct Hsame as (Ht & Hd & Hf & Hrest). rewrite Hf.
    destruct (files s !! path) as [f|] eqn:Hfile; intros [= <- <-];
      (split; [by eapply external_same | auto]).
  - intros [= <- <-]. split; [by eapply external_same|].
    left. by apply external_Err_inv in Hext.
Qed.

(** A transaction commits the writes of its body or none of them. *)
Lemma Transaction_Ok_inv {A} (fn : ST Sys A) s s' a :
  Transaction fn s = (s', Ok a) ->
  exists s1, fn s = (s1, Ok a) /\ same_but_faults s1 s'.
Proof.
  unfold Transaction. destruct (fn s) as [s1 [a1|e]]; [|discriminate].
  destruct (external "Transaction.Commit" s1) as [s2 [[]|e]] eqn:Hext; [|discriminate].
  intros [= <- <-]. exists s1. split; [done | by eapply external_same].
Qed.

Lemma Transaction_Err_inv {A} (fn : ST Sys A) s s' e :
  Transaction fn s = (s', Err e) ->
  db s' = db s
  /\ exists s1 r, fn s = (s1, r)
                  /\ tracker s' = tracker s1 /\ files s' = files s1
                  /\ logs s' = logs s1 /\ trieCalls s' = trieCalls s1.
Proof.
  unfold Transaction. destruct (fn s) as [s1 [a1|e1]] eqn:Hfn.
  - destruct (external "Transaction.Commit" s1) as [s2 [[]|e2]] eqn:Hext; [discriminate|].
    intros [= <- <-]. split; [done|]. exists s1, (Ok a1). split; [done|].
    apply external_same in Hext as (? & ? & ? & ? & ? & ?). cbn. done.
  - intros [= <- <-]. split; [done|]. exists s1, (Err e1). done.
Qed.

(** ** Recording a catchpoint file *)

Lemma set_catchpointFiles_id d :
  d = trackerdb.set_catchpointFiles (fun _ => trackerdb.catchpointFiles d) d.
Proof. by destruct d. Qed.

Lemma registry_step_refl s : registry_step s s.
Proof.
  unfold registry_step, files_only_removed. split_and!; try done.
  eexists. apply set_catchpointFiles_id.
Qed.

Lemma registry_step_trans s1 s2 s3 :
  registry_step s1 s2 -> registry_step s2 s3 -> registry_step s1 s3.
Proof.
  unfold registry_step, files_only_removed.
  intros (Ht1 & Hc1 & Hf1 & m1 & Hd1) (Ht2 & Hc2 & Hf2 & m2 & Hd2).
  split_and!; [congruence | congruence | auto |].
  exists m2. rewrite Hd2, Hd1. done.
Qed.

Lemma same_but_faults_registry_step s s' : same_but_faults s s' -> registry_step s s'.
Proof.
  intros (Ht & Hd & Hf & _ & Hc & _). unfold registry_step, files_only_removed.
  split_and!; [done | done | by rewrite Hf |].
  eexists. rewrite Hd. apply set_catchpointFiles_id.
Qed.

Lemma logf_registry_step level format args s s' r :
  logf level format args s = (s', r) -> registry_step s s' /\ r = Ok tt.
Proof.
  intros H. apply modify_inv in H as [-> ->]. split; [|done].
  unfold registry_step, files_only_removed. cbn. split_and!; try done.
  eexists. apply set_catchpointFiles_id.
Qed.

Lemma StoreCatchpoint_inv round fileName catchpoint fileSize s s' r :
  catchpointStore.StoreCatchpoint round fileName catchpoint fileSize s = (s', r) ->
  registry_step s s' /\ logs s' = logs s /\ files s' = files s
  /\ (r = Ok tt ->
      trackerdb.catchpointFiles (db s')
      = if decide (fileName = "") then delete round (trackerdb.catchpointFiles (db s))
        else <[round := (fileName, fileSize)]> (trackerdb.catchpointFiles (db s))).
Proof.
  unfold catchpointStore.StoreCatchpoint. intros H.
  destruct (decide (fileName = "")).
  - apply external_modify_inv in H as [(s1 & Hsame & -> & ->)|[Hsame ->]].
    + destruct Hsame as (Ht & Hd & Hf & Hl & Hc & _).
      unfold registry_step, files_only_removed. cbn. rewrite Hd.
      split_and!; try done; [by rewrite Hf | by eexists].
    + split_and!; [by apply same_but_faults_registry_step | apply Hsame | apply Hsame
                   | discriminate].
  - apply external_modify_inv in H as [(s1 & Hsame & -> & ->)|[Hsame ->]].
    + destruct Hsame as (Ht & Hd & Hf & Hl & Hc & _).
      unfold registry_step, files_only_removed. cbn. rewrite Hd.
      split_and!; try done; [by rewrite Hf | by eexists].
    + split_and!; [by apply same_but_faults_registry_step | apply Hsame | apply Hsame
                   | discriminate].
Qed.

Lemma RemoveSingleCatchpointFileFromDisk_inv dir file s s' r :
  RemoveSingleCatchpointFileFromDisk dir file s = (s', r) ->
  registry_step s s' /\ db s' = db s /\ logs s' = logs s
  /\ (r = Ok tt -> files s' = delete (filepath_Join dir file) (files s)).
Proof.
  unfold RemoveSingleCatchpointFileFromDisk. intros H.
  apply external_modify_inv in H as [(s1 & Hsame & -> & ->)|[Hsame ->]].
  - destruct Hsame as (Ht & Hd & Hf & Hl & Hc & _).
    unfold registry_step, files_only_removed. cbn. rewrite Hf.
    split_and!; try done.
    + intros path f Hp. apply lookup_delete_Some in Hp as [_ Hp]. done.
    + rewrite Hd. eexists. apply set_catchpointFiles_id.
  - split_and!; [by apply same_but_faults_registry_step | apply Hsame | apply Hsame
                 | discriminate].
Qed.

Lemma GetOldestCatchpointFiles_inv fileCount filesToKeep s s' r :
  catchpointStore.GetOldestCatchpointFiles fileCount filesToKeep s = (s', r) ->
  same_but_faults s s'.
Proof.
  unfold catchpointStore.GetOldestCatchpointFiles, bind, get, ret.
  destruct (external "GetOldestCatchpointFiles" s) as [s1 [[]|e]] eqn:Hext;
    intros [= <- _]; by eapply external_same.
Qed.

(** Removing the oldest files and their rows. *)
Lemma remove_oldest_registry_step dir (filesToDelete : list (Z * string)) :
  forall s s' r,
    for_each filesToDelete (fun '(round, fileToDelete) =>
      RemoveSingleCatchpointFileFromDisk dir fileToDelete;;
      let* stored := try (catchpointStore.StoreCatchpoint round "" "" 0) in
      match stored with
      | Err _ => fail (Errorf "unable to delete old catchpoint entry '%s' : %v")
      | Ok _ => ret tt
      end) s = (s', r) ->
    registry_step s s'.
Proof.
  induction filesToDelete as [|[round file] rest IH]; intros s s' r H; cbn in H.
  - apply ret_inv in H as [-> _]. apply registry_step_refl.
  - unfold bind at 1 in H.
    destruct (bind (RemoveSingleCatchpointFileFromDisk dir file) _ s) as [s3 [[]|e]] eqn:Hbody.
    + apply IH in H. eapply registry_step_trans; [|exact H]. clear H IH.
      apply bind_Ok_inv in Hbody as (s1 & [] & Hrm & Hbody).
      apply RemoveSingleCatchpointFileFromDisk_inv in Hrm as (Hstep1 & _).
      apply bind_Ok_inv in Hbody as (s2 & stored & Hst & Hbody).
      assert (registry_step s1 s2) as Hstep2.
      { unfold try in Hst.
        destruct (catchpointStore.StoreCatchpoint round "" "" 0 s1) as [s2' [[]|e]] eqn:Hs;
          apply StoreCatchpoint_inv in Hs as (Hstep & _);
          [|destruct (is_panic e)]; injection Hst as <- _; exact Hstep. }
      destruct stored; [apply ret_inv in Hbody as [-> _] | apply fail_inv in Hbody as [-> _]];
        by eapply registry_step_trans.
    + injection H as <- _.
      apply bind_Err_inv in Hbody as [Hrm|(s1 & [] & Hrm & Hbody)].
      { by apply RemoveSingleCatchpointFileFromDisk_inv in Hrm as (Hstep1 & _). }
      apply RemoveSingleCatchpointFileFromDisk_inv in Hrm as (Hstep1 & _).
      eapply registry_step_trans; [exact Hstep1|].
      apply bind_Err_inv in Hbody as [Hst|(s2 & stored & Hst & Hbody)].
      { apply try_Err_inv in Hst as [Hst _].
        by apply StoreCatchpoint_inv in Hst as (Hstep & _). }
      assert (registry_step s1 s2) as Hstep2.
      { unfold try in Hst.
        destruct (catchpointStore.StoreCatchpoint round "" "" 0 s1) as [s2' [[]|e']] eqn:Hs;
          apply StoreCatchpoint_inv in Hs as (Hstep & _);
          [|destruct (is_panic e')]; injection Hst as <- _; exact Hstep. }
      destruct stored; [apply ret_inv in Hbody as [-> _] | apply fail_inv in Hbody as [-> _]];
        done.
Qed.

(** A relation between the states before and after that holds of each part
    of a sequence holds of the sequence. *)
Lemma bind_frame {S A B} (P : S -> S -> Prop) (m : ST S A) (k : A -> ST S B) s s' r :
  (forall x y z, P x y -> P y z -> P x z) ->
  (forall s1 r1, m s = (s1, r1) -> P s s1) ->
  (forall a s1 s2 r2, k a s1 = (s2, r2) -> P s1 s2) ->
  bind m k s = (s', r) -> P s s'.
Proof.
  intros Htrans Hm Hk. unfold bind. destruct (m s) as [s1 [a|e]] eqn:Hms.
  - intros H. eapply Htrans; [by eapply Hm | by eapply Hk].
  - intros [= <- _]. by eapply Hm.
Qed.

Lemma try_frame {S A} (P : S -> S -> Prop) (m : ST S A) s s' r :
  (forall s1 r1, m s = (s1, r1) -> P s s1) ->
  try m s = (s', r) -> P s s'.
Proof.
  intros Hm. unfold try. destruct (m s) as [s1 [a|e]] eqn:Hms.
  - intros [= <- _]. by eapply Hm.
  - destruct (is_panic e); intros [= <- _]; by eapply Hm.
Qed.

(** [recordCatchpointFile] changes the registry and removes files, and
    nothing else. *)
Lemma recordCatchpointFile_registry_step round rel fileSize s s' r :
  recordCatchpointFile round rel fileSize s = (s', r) -> registry_step s s'.
Proof.
  unfold recordCatchpointFile. intros H.
  apply bind_Ok_inv' in H as (Hget & H). clear Hget.
  eapply (bind_frame registry_step); [exact registry_step_trans | | | exact H].
  - intros s1 r1 H1. destruct (negb _).
    + eapply (bind_frame registry_step); [exact registry_step_trans | | | exact H1].
      * intros s2 r2 H2. eapply (try_frame registry_step); [|exact H2].
        intros s3 r3 H3. by apply StoreCatchpoint_inv in H3 as (Hstep & _).
      * intros [[]|e] s2 s3 r3 H3.
        -- apply ret_inv in H3 as [Heq _]. rewrite Heq. apply registry_step_refl.
        -- eapply (bind_frame registry_step); [exact registry_step_trans | | | exact H3].
           ++ intros s4 r4 H4. by apply logf_registry_step in H4 as [Hstep _].
           ++ intros u s4 s5 r5 H5. apply fail_inv in H5 as [Heq _]. rewrite Heq. apply registry_step_refl.
    + eapply (bind_frame registry_step); [exact registry_step_trans | | | exact H1].
      * intros s2 r2 H2. eapply (try_frame registry_step); [|exact H2].
        intros s3 r3 H3.
        by apply RemoveSingleCatchpointFileFromDisk_inv in H3 as (Hstep & _).
      * intros [[]|e] s2 s3 r3 H3.
        -- apply ret_inv in H3 as [Heq _]. rewrite Heq. apply registry_step_refl.
        -- eapply (bind_frame registry_step); [exact registry_step_trans | | | exact H3].
           ++ intros s4 r4 H4. by apply logf_registry_step in H4 as [Hstep _].
           ++ intros u s4 s5 r5 H5. apply fail_inv in H5 as [Heq _]. rewrite Heq. apply registry_step_refl.
  - intros u s1 s2 r2 H2. destruct (_ =? -1).
    + apply ret_inv in H2 as [Heq _]. rewrite Heq. apply registry_step_refl.
    + eapply (bind_frame registry_step); [exact registry_step_trans | | | exact H2].
      * intros s3 r3 H3. eapply (try_frame registry_step); [|exact H3].
        intros s4 r4 H4. apply GetOldestCatchpointFiles_inv in H4.
        by apply same_but_faults_registry_step.
      * intros [filesToDelete|e] s3 s4 r4 H4.
        -- by eapply remove_oldest_registry_step.
        -- apply fail_inv in H4 as [Heq _]. rewrite Heq. apply registry_step_refl.
Qed.

Lemma filepath_Join_nonempty a b : a <> "" -> filepath_Join a b <> "".
Proof.
  intros Ha. unfold filepath_Join.
  destruct (decide (b = "")); [done|]. destruct (decide (a = "")); [done|].
  destruct a; [done|]. discriminate.
Qed.

(** With an unlimited history a file is recorded and that is all. *)
Lemma recordCatchpointFile_unlimited round rel fileSize s s' u :
  catchpointFileHistoryLength (tracker s) = -1 -> rel <> "" ->
  recordCatchpointFile round rel fileSize s = (s', Ok u) ->
  trackerdb.catchpointFiles (db s')
  = <[round := (rel, fileSize)]> (trackerdb.catchpointFiles (db s))
  /\ files s' = files s /\ logs s' = logs s.
Proof.
  intros Hh Hrel H. unfold recordCatchpointFile in H.
  apply bind_Ok_inv' in H as (_ & H). rewrite Hh in H. cbn in H.
  apply bind_Ok_inv in H as (s1 & [] & Hst & H). apply ret_inv in H as [-> _].
  apply bind_Ok_inv in Hst as (s2 & stored & Hst & Hm).
  apply try_Ok_inv in Hst as [Hst _].
  destruct stored as [[]|e].
  - apply ret_inv in Hm as [-> _].
    apply StoreCatchpoint_inv in Hst as (_ & Hl & Hf & Hreg).
    rewrite Hreg by done. by rewrite decide_False.
  - apply bind_Ok_inv in Hm as (? & [] & _ & Hm). apply fail_inv in Hm as [_ [=]].
Qed.

(** ** Repacking into the archive *)

Lemma doRepackCatchpoint_Ok_written Encode header biggestChunkLen io io' u :
  doRepackCatchpoint Encode header biggestChunkLen io = (io', Ok u) ->
  written (tout io')
  = written (tout io) ++ content_entry Encode header :: (copied <$> upcoming (tin io)).
Proof.
  intros H. unfold doRepackCatchpoint in H.
  apply bind_Ok_inv in H as (s1 & [] & Hwh & H).
  apply WriteHeader_Ok_inv in Hwh as [Hin1 Hout1].
  apply bind_Ok_inv in H as (s2 & k & Hwr & H).
  eapply Write_Ok_inv in Hwr as [Hin2 Hout2]; [|exact Hout1].
  destruct (_ >? _); [apply fail_inv in H as [_ [=]]|].
  apply bind_Ok_inv in H as (s3 & s3' & Hget & H).
  apply get_inv in Hget as [-> [= ->]].
  apply doRepackCatchpoint_loop_Ok in H as (Hw & _ & _).
  rewrite Hin2, Hin1 in Hw. rewrite Hw, Hout2, <- app_assoc. reflexivity.
Qed.

(** A repacking that returned nil read the data file and left the archive:
    the header entry, then the entries of the data file. *)
Lemma repackCatchpoint_Ok_inv Encode header biggestChunkLen dataPath outPath s s' u :
  repackCatchpoint Encode header biggestChunkLen dataPath outPath s = (s', Ok u) ->
  exists fin,
    files s !! dataPath = Some fin
    /\ tracker s' = tracker s /\ db s' = db s /\ logs s' = logs s
    /\ trieCalls s' = trieCalls s
    /\ files s'
       = <[outPath := {| file_entries :=
                           content_entry Encode header :: (copied <$> file_entries fin);
                         file_end := None |}]> (files s).
Proof.
  unfold repackCatchpoint. intros H.
  apply bind_Ok_inv in H as (s1 & fin & Hopen & H).
  apply OpenFile_inv in Hopen as [Hsame1 Hfin].
  apply bind_Ok_inv in H as (s2 & [] & He2 & H). apply external_same in He2 as Hsame2.
  apply bind_Ok_inv in H as (s3 & [] & He3 & H). apply external_same in He3 as Hsame3.
  apply bind_Ok_inv in H as (s4 & [] & Hrun & H).
  apply bind_Ok_inv in H as (s5 & [] & He5 & H). apply external_same in He5 as Hsame5.
  apply bind_Ok_inv in H as (s6 & [] & He6 & H). apply external_same in He6 as Hsame6.
  apply bind_Ok_inv in H as (s7 & [] & He7 & H). apply external_same in He7 as Hsame7.
  apply external_same in H as Hsame8.
  pose proof (same_but_faults_trans _ _ _ Hsame1 (same_but_faults_trans _ _ _ Hsame2 Hsame3))
    as (Ht3 & Hd3 & Hf3 & Hl3 & Hc3 & _).
  pose proof (same_but_faults_trans _ _ _ Hsame5
                (same_but_faults_trans _ _ _ Hsame6
                   (same_but_faults_trans _ _ _ Hsame7 Hsame8)))
    as (Ht8 & Hd8 & Hf8 & Hl8 & Hc8 & _).
  destruct (doRepackCatchpoint Encode header biggestChunkLen _) as [io' [[]|e]] eqn:Hio;
    [|discriminate].
  apply doRepackCatchpoint_Ok_written in Hio. cbn in Hio.
  injection Hrun as <-. cbn in *.
  exists fin. rewrite Ht8, Hd8, Hl8, Hc8, Hf8, Ht3, Hd3, Hl3, Hc3, Hf3, Hio.
  split_and!; done.
Qed.

(** ** The second stage *)

Section StageTwoFacts.

Variable Consensus : string -> ConsensusParams.
Variable Encode : CatchpointFileHeader -> list byte.
Variable MakeLabel : CatchpointLabelMaker -> string.
Variable MakeCatchpointFilePath : Z -> string.
Variable FileSize : File -> Z.

Let createCatchpoint' :=
  createCatchpoint Consensus Encode MakeLabel MakeCatchpointFilePath FileSize.

(** What a [createCatchpoint] that returned nil has done. *)
Lemma createCatchpoint_Ok_inv accountsRound round dataInfo blockHash blockProto s s' u :
  createCatchpoint' accountsRound round dataInfo blockHash blockProto s = (s', Ok u) ->
  exists maker version,
    selected_maker (Consensus blockProto) round blockHash dataInfo = Some maker
    /\ selected_version (Consensus blockProto) = Some version
    /\ tracker s' = set_lastCatchpointLabel (MakeLabel maker) (tracker s)
    /\ trieCalls s' = trieCalls s
    /\ ((* the label only *)
        ((enableGeneratingCatchpointFiles (tracker s) = false
          \/ files s !! data_file_path (tracker s) accountsRound = None)
         /\ label_written (MakeLabel maker) s s')
        \/
        (* the label and the archive *)
        (enableGeneratingCatchpointFiles (tracker s) = true
         /\ exists fin s3 s4 s5 s6,
             files s !! data_file_path (tracker s) accountsRound = Some fin
             /\ label_written (MakeLabel maker) s s3
             /\ tracker s4 = tracker s3 /\ db s4 = db s3 /\ trieCalls s4 = trieCalls s3
             /\ files s4
                = <[archive_path MakeCatchpointFilePath (tracker s) round :=
                      {| file_entries :=
                           content_entry Encode
                             (archive_header version (MakeLabel maker) accountsRound round
                                             dataInfo blockHash)
                           :: (copied <$> file_entries fin);
                         file_end := None |}]> (files s)
             /\ same_but_faults s4 s5
             /\ (exists fileInfo,
                    files s4 !! archive_path MakeCatchpointFilePath (tracker s) round
                    = Some fileInfo
                    /\ recordCatchpointFile round
                      (archive_rel_path MakeCatchpointFilePath round) (FileSize fileInfo) s5
                    = (s6, Ok tt))
             /\ tracker s' = tracker s6 /\ files s' = files s6 /\ trieCalls s' = trieCalls s6
             /\ db s' = trackerdb.set_unfinishedCatchpoints (delete round) (db s6))).
Proof.
  unfold createCatchpoint', createCatchpoint. intros H.
  apply bind_Ok_inv in H as (s0 & [labelMaker version] & Hsel & H).
  assert (s0 = s
          /\ selected_maker (Consensus blockProto) round blockHash dataInfo = Some labelMaker
          /\ selected_version (Consensus blockProto) = Some version) as (-> & Hmaker & Hversion).
  { unfold selected_maker, selected_version.
    destruct (EnableCatchpointsWithOnlineAccounts (Consensus blockProto)),
             (EnableCatchpointsWithSPContexts (Consensus blockProto)); cbn in Hsel;
      first [ by apply ret_inv in Hsel as [-> [= -> ->]]
            | apply fail_inv in Hsel as [_ Hr]; discriminate Hr ]. }
  exists labelMaker, version. split; [exact Hmaker|]. split; [exact Hversion|].
  apply bind_Ok_inv in H as (s1 & [] & Hlog & H). apply modify_inv in Hlog as [-> _].
  apply bind_Ok_inv in H as (s2 & [] & Hws & H).
  apply external_modify_inv in Hws as [(s2' & Hsame & -> & _)|[_ [=]]].
  apply bind_Ok_inv in H as (s3 & [] & Hset & H). apply modify_inv in Hset as [-> _].
  apply bind_Ok_inv' in H as (_ & H).
  set (s3 := set_tracker _ _) in H.
  assert (Hlabel : label_written (MakeLabel labelMaker) s s3).
  { destruct Hsame as (Ht & Hd & Hf & _ & Hc & _). cbn in Ht, Hd, Hf, Hc.
    unfold label_written. subst s3. cbn. by rewrite Ht, Hd, Hf, Hc. }
  pose proof Hlabel as (Ht3 & Hd3 & Hf3 & Hc3).
  assert (Hgen : enableGeneratingCatchpointFiles (tracker s3)
                 = enableGeneratingCatchpointFiles (tracker s)) by (by rewrite Ht3).
  assert (Htmp : tmpDir (tracker s3) = tmpDir (tracker s)) by (by rewrite Ht3).
  assert (Hdbdir : dbDirectory (tracker s3) = dbDirectory (tracker s)) by (by rewrite Ht3).
  rewrite Hgen, Htmp, Hdbdir in H.
  destruct (enableGeneratingCatchpointFiles (tracker s)) eqn:Hen; cbn [negb] in H.
  2:{ apply ret_inv in H as [-> _]. split_and!; [exact Ht3 | exact Hc3 |]. left. auto. }
  apply bind_Ok_inv in H as (s4 & stat & Hstat & H).
  apply try_Ok_inv in Hstat as [Hstat _].
  apply Stat_inv in Hstat as [Hsame4 Hfile].
  fold (data_file_path (tracker s) accountsRound) in Hfile.
  rewrite Hf3 in Hfile.
  destruct stat as [fin|e].
  2:{ destruct Hfile as [->|[-> Hnone]]; cbn in H.
      - apply fail_inv in H as [_ [=]].
      - apply ret_inv in H as [-> _].
        destruct Hsame4 as (Ht4 & Hd4 & Hf4 & _ & Hc4 & _).
        split_and!; [by rewrite Ht4 | by rewrite Hc4 |]. left. split; [auto|].
        unfold label_written. by rewrite Ht4, Hd4, Hf4, Hc4. }
  apply bind_Ok_inv in H as (s5 & [] & Hmk & H). apply external_same in Hmk as Hsame5.
  apply bind_Ok_inv in H as (s6 & [] & Hrepack & H).
  apply repackCatchpoint_Ok_inv in Hrepack as (fin' & Hfin' & Ht6 & Hd6 & Hl6 & Hc6 & Hf6).
  apply bind_Ok_inv in H as (s7 & fileInfo & Hstat7 & H).
  apply Stat_inv in Hstat7 as [Hsame7 Hinfo].
  apply bind_Ok_inv in H as (s8 & [] & Htx & H). apply modify_inv in H as [-> _].
  apply Transaction_Ok_inv in Htx as (s9 & Hbody & Hsame9).
  apply bind_Ok_inv in Hbody as (s10 & [] & Hmk10 & Hbody).
  apply external_same in Hmk10 as Hsame10.
  apply bind_Ok_inv in Hbody as (s11 & [] & Hrec & Hdel).
  apply external_modify_inv in Hdel as [(s12 & Hsame12 & -> & _)|[_ [=]]].
  pose proof (same_but_faults_trans _ _ _ Hsame4 Hsame5) as (Ht5 & Hd5 & Hf5 & _ & Hc5 & _).
  rewrite Hf5, Hf3 in Hfin'. unfold data_file_path in Hfile.
  rewrite Hfile in Hfin'. injection Hfin' as <-.
  destruct Hsame12 as (Ht12 & Hd12 & Hf12 & _ & Hc12 & _).
  destruct Hsame9 as (Ht9 & Hd9 & Hf9 & _ & Hc9 & _). cbn in Ht9, Hd9, Hf9, Hc9.
  cbn. rewrite Ht9, Hc9.
  pose proof (recordCatchpointFile_registry_step _ _ _ _ _ _ Hrec) as (Ht11 & Hc11 & _ & _).
  destruct Hsame10 as (Ht10 & Hd10 & Hf10 & Hl10 & Hc10 & Htel10).
  destruct Hsame7 as (Ht7 & Hd7 & Hf7 & Hl7 & Hc7 & Htel7).
  split_and!.
  - by rewrite Ht12, Ht11, Ht10, Ht7, Ht6, Ht5.
  - by rewrite Hc12, Hc11, Hc10, Hc7, Hc6, Hc5.
  - right. split; [done|].
    exists fin, s3, s6, s10, s11. split_and!; try done.
    + by rewrite Ht6, Ht5.
    + by rewrite Hd6, Hd5.
    + by rewrite Hc6, Hc5.
    + rewrite Hf6, Hf5, Hf3. reflexivity.
    + unfold same_but_faults.
      rewrite Ht10, Ht7, Hd10, Hd7, Hf10, Hf7, Hl10, Hl7, Hc10, Hc7, Htel10, Htel7. done.
    + exists fileInfo. split; [exact Hinfo | exact Hrec].
    + by rewrite Hf9, Hf12.
    + by rewrite Hd9, Hd12.
Qed.

Lemma markers_kept_refl s : markers_kept s s.
Proof. by unfold markers_kept. Qed.

Lemma markers_kept_trans s1 s2 s3 :
  markers_kept s1 s2 -> markers_kept s2 s3 -> markers_kept s1 s3.
Proof. unfold markers_kept. intros [-> ->] [-> ->]. done. Qed.

Lemma same_db_markers_kept s s' : db s' = db s -> markers_kept s s'.
Proof. unfold markers_kept. by intros ->. Qed.

(** Repacking does not write to the database, however it ends. *)
Lemma repackCatchpoint_db header biggestChunkLen dataPath outPath s s' r :
  repackCatchpoint Encode header biggestChunkLen dataPath outPath s = (s', r) ->
  db s' = db s.
Proof.
  unfold repackCatchpoint. intros H.
  eapply (bind_frame (fun x y => db y = db x)); [congruence | | | exact H].
  { intros s1 r1 H1. by apply OpenFile_inv in H1 as [(_ & Hd & _) _]. }
  intros fin s1 s2 r2 H2.
  eapply (bind_frame (fun x y => db y = db x)); [congruence | | | exact H2].
  { intros s3 r3 H3. by apply external_same in H3 as (_ & Hd & _). }
  intros [] s3 s4 r4 H4.
  eapply (bind_frame (fun x y => db y = db x)); [congruence | | | exact H4].
  { intros s5 r5 H5. by apply external_same in H5 as (_ & Hd & _). }
  intros [] s5 s6 r6 H6.
  eapply (bind_frame (fun x y => db y = db x)); [congruence | | | exact H6].
  { intros s7 r7 H7.
    cbv beta zeta in H7.
    match type of H7 with
    | context [doRepackCatchpoint ?a ?b ?c ?d] =>
        destruct (doRepackCatchpoint a b c d) as [io' r']
    end.
    by injection H7 as <- _. }
  intros [] s7 s8 r8 H8.
  eapply (bind_frame (fun x y => db y = db x)); [congruence | | | exact H8].
  { intros s9 r9 H9. by apply external_same in H9 as (_ & Hd & _). }
  intros [] s9 s10 r10 H10.
  eapply (bind_frame (fun x y => db y = db x)); [congruence | | | exact H10].
  { intros s11 r11 H11. by apply external_same in H11 as (_ & Hd & _). }
  intros [] s11 s12 r12 H12.
  eapply (bind_frame (fun x y => db y = db x)); [congruence | | | exact H12].
  { intros s13 r13 H13. by apply external_same in H13 as (_ & Hd & _). }
  intros [] s13 s14 r14 H14. by apply external_same in H14 as (_ & Hd & _).
Qed.

(** A [createCatchpoint] that failed left the unfinished markers and the
    registry as they were: what the final transaction wrote is rolled
    back. *)
Lemma createCatchpoint_Err_inv accountsRound round dataInfo blockHash blockProto s s' e :
  createCatchpoint' accountsRound round dataInfo blockHash blockProto s = (s', Err e) ->
  markers_kept s s'.
Proof.
  unfold createCatchpoint', createCatchpoint. intros H.
  apply bind_Err_inv in H as [H|(s0 & [labelMaker version] & Hsel & H)].
  { destruct (EnableCatchpointsWithOnlineAccounts _), (EnableCatchpointsWithSPContexts _);
      cbn in H;
      first [ apply fail_inv in H as [-> _]; apply markers_kept_refl
            | apply ret_inv in H as [_ Hr]; discriminate Hr ]. }
  assert (s0 = s) as ->.
  { destruct (EnableCatchpointsWithOnlineAccounts _), (EnableCatchpointsWithSPContexts _);
      cbn in Hsel;
      first [ by apply ret_inv in Hsel as [-> _]
            | apply fail_inv in Hsel as [_ Hr]; discriminate Hr ]. }
  apply bind_Err_inv in H as [H|(s1 & [] & Hlog & H)];
    [apply modify_inv in H as [_ Hr]; discriminate Hr|].
  apply modify_inv in Hlog as [-> _].
  apply bind_Err_inv in H as [H|(s2 & [] & Hws & H)].
  { apply external_modify_inv in H as [(? & _ & _ & Hr)|[(_ & Hd & _) _]];
      [discriminate Hr | by apply same_db_markers_kept]. }
  apply external_modify_inv in Hws as [(s2' & (_ & Hd2 & _) & -> & _)|[_ Hr]];
    [|discriminate Hr].
  apply bind_Err_inv in H as [H|(s3 & [] & Hset & H)];
    [apply modify_inv in H as [_ Hr]; discriminate Hr|].
  apply modify_inv in Hset as [-> _].
  apply bind_Ok_inv' in H as (_ & H).
  set (s3 := set_tracker _ _) in H.
  assert (Hk3 : markers_kept s s3).
  { unfold markers_kept. subst s3. cbn. by rewrite Hd2. }
  destruct (negb _); [apply ret_inv in H as [_ Hr]; discriminate Hr|].
  apply bind_Err_inv in H as [H|(s4 & stat & Hstat & H)].
  { apply try_Err_inv in H as [H Hp]. apply Stat_inv in H as [_ [->|[-> _]]]; discriminate Hp. }
  apply try_Ok_inv in Hstat as [Hstat _]. apply Stat_inv in Hstat as [(_ & Hd4 & _) _].
  assert (Hk4 : markers_kept s s4)
    by (eapply markers_kept_trans; [exact Hk3 | by apply same_db_markers_kept]).
  destruct stat as [fin|e0].
  2:{ destruct (os.IsNotExist e0);
        [apply ret_inv in H as [_ Hr]; discriminate Hr | by apply fail_inv in H as [-> _]]. }
  apply bind_Err_inv in H as [H|(s5 & [] & Hmk & H)].
  { apply external_same in H as (_ & Hd & _).
    eapply markers_kept_trans; [exact Hk4 | by apply same_db_markers_kept]. }
  apply external_same in Hmk as (_ & Hd5 & _).
  apply bind_Err_inv in H as [H|(s6 & [] & Hrepack & H)].
  { apply repackCatchpoint_db in H.
    eapply markers_kept_trans; [exact Hk4|]. apply same_db_markers_kept. congruence. }
  apply repackCatchpoint_db in Hrepack.
  apply bind_Err_inv in H as [H|(s7 & fileInfo & Hstat7 & H)].
  { apply Stat_inv in H as [(_ & Hd & _) _].
    eapply markers_kept_trans; [exact Hk4|]. apply same_db_markers_kept. congruence. }
  apply Stat_inv in Hstat7 as [(_ & Hd7 & _) _].
  apply bind_Err_inv in H as [H|(s8 & [] & _ & H)];
    [|apply modify_inv in H as [_ Hr]; discriminate Hr].
  apply Transaction_Err_inv in H as [Hd _].
  eapply markers_kept_trans; [exact Hk4|]. apply same_db_markers_kept. congruence.
Qed.


Let finishCatchpoint' :=
  finishCatchpoint Consensus Encode MakeLabel MakeCatchpointFilePath FileSize.

(** [finishCatchpoint] logs, looks the first-stage record up, and then
    either deletes the marker or runs [createCatchpoint]. *)
Lemma finishCatchpoint_inv round blockHash blockProto catchpointLookback s s' r :
  finishCatchpoint' round blockHash blockProto catchpointLookback s = (s', r) ->
  let accountsRound := Go.u64_sub round catchpointLookback in
  exists s1,
    tracker s1 = tracker s /\ db s1 = db s /\ files s1 = files s
    /\ trieCalls s1 = trieCalls s
    /\ (sys_faults s = [] -> sys_faults s1 = [])
    /\ ((r = Err (ErrFault "SelectCatchpointFirstStageInfo") /\ same_but_faults s1 s'
         /\ sys_faults s <> [])
        \/ match trackerdb.firstStageInfo (db s) !! accountsRound with
           | None => catchpointStore.DeleteUnfinishedCatchpoint round s1 = (s', r)
           | Some dataInfo =>
               createCatchpoint' accountsRound round dataInfo blockHash blockProto s1
               = (s', r)
           end).
Proof.
  unfold finishCatchpoint', finishCatchpoint. intros H. cbv zeta in *.
  set (accountsRound := Go.u64_sub round catchpointLookback) in *.
  unfold bind at 1 in H. unfold logf at 1, modify at 1 in H. cbv beta iota in H.
  set (s0 := set_logs _ s) in H.
  unfold catchpointStore.SelectCatchpointFirstStageInfo in H.
  unfold bind at 1 in H.
  destruct ((external "SelectCatchpointFirstStageInfo";;
             gets (fun s => trackerdb.firstStageInfo (db s) !! accountsRound)) s0)
    as [s1 [found|e]] eqn:Hsel.
  - apply bind_Ok_inv in Hsel as (s2 & [] & Hext & Hg).
    apply gets_inv in Hg as [-> [= ->]].
    pose proof (external_same _ _ _ _ Hext) as (Ht & Hd & Hf & _ & Hc & _).
    exists s2. rewrite Ht, Hd, Hf, Hc. split_and!; [done|done|done|done| |].
    + intros Hnf. unfold external in Hext. cbn in Hext. rewrite Hnf in Hext.
      by injection Hext as <-.
    + right. rewrite Hd in H. change (db s0) with (db s) in H.
      destruct (trackerdb.firstStageInfo (db s) !! accountsRound); exact H.
  - injection H as <- <-.
    apply bind_Err_inv in Hsel as [Hext|(s2 & [] & _ & Hg)];
      [|apply gets_inv in Hg as [_ Hr]; discriminate Hr].
    exists s0. split_and!; try done.
    left. split_and!.
    + by apply external_Err_inv in Hext as ->.
    + by eapply external_same.
    + intros Hnf. unfold external in Hext. cbn in Hext. rewrite Hnf in Hext.
      discriminate Hext.
Qed.

(** The paths of [finishCatchpoint].  Let [accountsRound] be
    [round - catchpointLookback].  When the
    database holds no first-stage record for [accountsRound],
    [finishCatchpoint] leaves the tracker (so the label), the files, the
    stored label and the registry as they were; when it returns nil the
    marker of [round] is deleted, and it returns nil whenever no database
    call fails.  When the record exists the call is a call of
    [createCatchpoint] (unless the lookup itself failed); if that call fails,
    the markers and the registry are as before; if it returns nil with file
    generation enabled and the first-stage data file present, the marker of
    [round] is deleted and the registry has gone through
    [recordCatchpointFile] in the same transaction: with an unlimited
    history the registry gains exactly the row of [round], and the archive
    is on disk.  If it returns nil with file generation disabled or the data
    file absent, the label of the selected maker has been written to the
    tracker and to the database and nothing else has changed: the markers,
    that of [round] included, the registry and the files are as before. *)
Theorem finishCatchpoint_correct :
  forall round blockHash blockProto catchpointLookback (s s' : Sys) r,
    finishCatchpoint' round blockHash blockProto catchpointLookback s = (s', r) ->
    let accountsRound := Go.u64_sub round catchpointLookback in
    (trackerdb.firstStageInfo (db s) !! accountsRound = None ->
     tracker s' = tracker s /\ files s' = files s
     /\ trackerdb.catchpointStateString (db s') = trackerdb.catchpointStateString (db s)
     /\ trackerdb.catchpointFiles (db s') = trackerdb.catchpointFiles (db s)
     /\ (forall u, r = Ok u ->
         db s' = trackerdb.set_unfinishedCatchpoints (delete round) (db s))
     /\ (forall e, r = Err e -> db s' = db s)
     /\ (sys_faults s = [] -> r = Ok tt))
    /\ (forall dataInfo,
          trackerdb.firstStageInfo (db s) !! accountsRound = Some dataInfo ->
          (r = Err (ErrFault "SelectCatchpointFirstStageInfo")
           \/ exists s1,
               tracker s1 = tracker s /\ db s1 = db s /\ files s1 = files s
               /\ createCatchpoint' accountsRound round dataInfo blockHash blockProto s1
                  = (s', r))
          /\ (forall e, r = Err e -> markers_kept s s')
          /\ (forall u, r = Ok u ->
              enableGeneratingCatchpointFiles (tracker s) = true ->
              forall fin,
                files s !! data_file_path (tracker s) accountsRound = Some fin ->
                trackerdb.unfinishedCatchpoints (db s')
                = delete round (trackerdb.unfinishedCatchpoints (db s))
                /\ (catchpointFileHistoryLength (tracker s) = -1 ->
                    exists f,
                      files s' !! archive_path MakeCatchpointFilePath (tracker s) round
                      = Some f
                      /\ trackerdb.catchpointFiles (db s')
                         = <[round := (archive_rel_path MakeCatchpointFilePath round,
                                       FileSize f)]>
                             (trackerdb.catchpointFiles (db s))))
          /\ (forall u, r = Ok u ->
              enableGeneratingCatchpointFiles (tracker s) = false
              \/ files s !! data_file_path (tracker s) accountsRound = None ->
              markers_kept s s'
              /\ exists maker,
                  selected_maker (Consensus blockProto) round blockHash dataInfo = Some maker
                  /\ label_written (MakeLabel maker) s s')).
Proof.
  intros round blockHash blockProto catchpointLookback s s' r H accountsRound.
  apply finishCatchpoint_inv in H as (s1 & Ht1 & Hd1 & Hf1 & Hc1 & Hnf1 & H).
  fold accountsRound in H. split.
  - intros Hnone. rewrite Hnone in H.
    destruct H as [(-> & (Ht & Hd & Hf & _) & Hfaulty)|H].
    { rewrite Ht, Hd, Hf, Ht1, Hd1, Hf1. split_and!; done. }
    unfold catchpointStore.DeleteUnfinishedCatchpoint in H.
    pose proof H as H'.
    apply external_modify_inv in H as [(s2 & (Ht & Hd & Hf & _) & -> & ->)|[(Ht & Hd & Hf & _) ->]].
    + cbn. rewrite Ht, Hd, Hf, Ht1, Hd1, Hf1. split_and!; done.
    + rewrite Ht, Hd, Hf, Ht1, Hd1, Hf1. split_and!; try done.
      intros Hnf. apply Hnf1 in Hnf. unfold bind, external in H'. cbn in H'.
      rewrite Hnf in H'. discriminate H'.
  - intros dataInfo Hsome. rewrite Hsome in H.
    destruct H as [(-> & (Ht & Hd & Hf & _) & _)|H].
    { split_and!; [by left| |done|done].
      intros e _. apply same_db_markers_kept. congruence. }
    split_and!.
    + right. by exists s1.
    + intros e ->. apply createCatchpoint_Err_inv in H.
      destruct H as [Hu Hr]. unfold markers_kept. by rewrite Hu, Hr, Hd1.
    + intros u -> Hgen fin Hfin.
      apply createCatchpoint_Ok_inv in H
        as (maker & version & Hmaker & Hversion & Htr & Hcalls & Hpaths).
      rewrite Ht1 in Hpaths.
      destruct Hpaths as [[[Hoff|Hmissing] _]|(_ & fin' & s3 & s4 & s5 & s6 & Hfin' & Hlabel
                                              & Ht4 & Hd4 & Hc4 & Hf4 & Hsame5 & (fileInfo & Hinfo & Hrec)
                                              & Ht' & Hf' & Hc' & Hd')].
      { congruence. }
      { rewrite Hf1 in Hmissing. congruence. }
      destruct Hlabel as (Ht3 & Hd3 & Hf3 & Hc3).
      destruct Hsame5 as (Ht5 & Hd5 & Hf5 & _).
      pose proof (recordCatchpointFile_registry_step _ _ _ _ _ _ Hrec)
        as (Ht6 & _ & _ & m & Hd6).
      split.
      * rewrite Hd', Hd6, Hd5, Hd4, Hd3, Hd1. done.
      * intros Hhist.
        apply recordCatchpointFile_unlimited in Hrec as (Hreg & Hfiles6 & _).
        -- exists fileInfo. split.
           ++ by rewrite Hf', Hfiles6, Hf5.
           ++ rewrite Hd'. cbn. by rewrite Hreg, Hd5, Hd4, Hd3, Hd1.
        -- rewrite Ht5, Ht4, Ht3, Ht1. exact Hhist.
        -- apply filepath_Join_nonempty. done.
    + intros u -> Hlabel_only.
      apply createCatchpoint_Ok_inv in H
        as (maker & version & Hmaker & _ & _ & _ & Hpaths).
      rewrite Ht1, Hf1 in Hpaths.
      destruct Hpaths as [[_ (Ht & Hd & Hf & Hc)]|(Hgen & fin & ? & ? & ? & ? & Hfin & _)];
        [|destruct Hlabel_only; congruence].
      split.
      * unfold markers_kept. by rewrite Hd, Hd1.
      * exists maker. split; [exact Hmaker|].
        unfold label_written. by rewrite Ht, Hd, Hf, Hc, Ht1, Hd1, Hf1, Hc1.
Qed.

End StageTwoFacts.


(** ** The first stage *)

(** A sequence ended in its first part, or went through it. *)
Lemma bind_inv {S A B} (m : ST S A) (k : A -> ST S B) s s' r :
  bind m k s = (s', r) ->
  (exists e, m s = (s', Err e) /\ r = Err e)
  \/ exists s1 a, m s = (s1, Ok a) /\ k a s1 = (s', r).
Proof.
  unfold bind. destruct (m s) as [s1 [a|e]]; intros H; [eauto|].
  injection H as <- <-. eauto.
Qed.

Lemma runs_ret {A} (a : A) : runs (ret a).
Proof. intros s Hs. by exists s, a. Qed.

Lemma runs_get : runs get.
Proof. intros s Hs. by exists s, s. Qed.

Lemma runs_gets {A} (f : Sys -> A) : runs (gets f).
Proof. intros s Hs. by exists s, (f s). Qed.

Lemma runs_external op : runs (external op).
Proof. intros s Hs. exists s, tt. by rewrite external_no_faults. Qed.

Lemma runs_modify (f : Sys -> Sys) :
  (forall s, sys_faults (f s) = sys_faults s) -> runs (modify f).
Proof. intros Hf s Hs. exists (f s), tt. split; [done|]. by rewrite Hf. Qed.

Lemma runs_logf level format args : runs (logf level format args).
Proof. by apply runs_modify. Qed.

Lemma runs_bind {A B} (m : ST Sys A) (k : A -> ST Sys B) :
  runs m -> (forall a, runs (k a)) -> runs (bind m k).
Proof.
  intros Hm Hk s Hs. destruct (Hm s Hs) as (s1 & a & Hrun & Hs1).
  rewrite (bind_Ok _ _ _ _ _ Hrun). by apply Hk.
Qed.

Lemma runs_try {A} (m : ST Sys A) : runs m -> runs (try m).
Proof.
  intros Hm s Hs. destruct (Hm s Hs) as (s1 & a & Hrun & Hs1).
  exists s1, (Ok a). split; [by apply try_Ok | done].
Qed.

Lemma runs_Snapshot {A} (m : ST Sys A) : runs m -> runs (Snapshot m).
Proof. intros Hm. unfold Snapshot. apply runs_bind; [apply runs_external | done]. Qed.

Lemma runs_Transaction {A} (m : ST Sys A) : runs m -> runs (Transaction m).
Proof.
  intros Hm s Hs. destruct (Hm s Hs) as (s1 & a & Hrun & Hs1).
  exists s1, a. unfold Transaction. rewrite Hrun.
  by rewrite external_no_faults by exact Hs1.
Qed.

Section StageOneFacts.

Variable Consensus : string -> ConsensusParams.
Variable RootHashOf : gset Digest -> Digest.
Variable EncodeAndHash : list byte -> Digest * list byte.
Variable calculateVerificationHash : list byte -> Digest.
Variable writerChunks : trackerdb.Store -> list TarEntry.
Variable writerTotals : trackerdb.Store -> Z * Z * Z * Z.

Let finishFirstStage' :=
  finishFirstStage Consensus RootHashOf EncodeAndHash calculateVerificationHash
    writerChunks writerTotals.
Let finishFirstStageAfterCrash' :=
  finishFirstStageAfterCrash Consensus RootHashOf EncodeAndHash calculateVerificationHash
    writerChunks writerTotals.

Local Abbreviation db_kept := (fun x y : Sys => db y = db x).

Lemma db_kept_trans (x y z : Sys) : db y = db x -> db z = db y -> db z = db x.
Proof. congruence. Qed.

Lemma external_db op (s s' : Sys) r : external op s = (s', r) -> db s' = db s.
Proof. intros H. by apply external_same in H as (_ & Hd & _). Qed.

Lemma getSPVerificationData_db s s' r :
  getSPVerificationData EncodeAndHash s = (s', r) -> db s' = db s.
Proof.
  unfold getSPVerificationData, Snapshot. intros H.
  eapply (bind_frame db_kept); [exact db_kept_trans | | | exact H]; cbv beta.
  { intros s1 r1. apply external_db. }
  intros [] s1 s2 r2 H2.
  eapply (bind_frame db_kept); [exact db_kept_trans | | | exact H2]; cbv beta.
  { intros s3 r3. apply external_db. }
  intros [] s3 s4 r4 H4. apply bind_Ok_inv' in H4 as [_ H4].
  destruct (EncodeAndHash _). by apply ret_inv in H4 as [-> _].
Qed.

Lemma generateCatchpointData_db accountsRound encodedSPData s s' r :
  generateCatchpointData writerChunks writerTotals accountsRound encodedSPData s = (s', r) ->
  db s' = db s.
Proof.
  unfold generateCatchpointData. intros H.
  apply bind_inv in H as [(e & H & _)|(s1 & [] & Hlog & H)];
    [apply modify_inv in H as [_ Hr]; discriminate Hr|].
  apply modify_inv in Hlog as [-> _].
  apply bind_Ok_inv' in H as [_ H].
  apply bind_inv in H as [(e & H & _)|(s2 & written & Hw & H)].
  { eapply (try_frame db_kept) in H; [exact H|]. intros s3 r3. apply external_db. }
  eapply (try_frame db_kept) in Hw; [|intros s3 r3; apply external_db].
  cbv beta in Hw. cbn in Hw.
  destruct written as [[]|e].
  - destruct (writerTotals _) as [[[a b] c] d].
    apply bind_inv in H as [(e & H & _)|(s3 & [] & Hm & H)];
      [apply modify_inv in H as [_ Hr]; discriminate Hr|].
    apply modify_inv in Hm as [-> _]. apply ret_inv in H as [-> _]. done.
  - apply bind_inv in H as [(e' & H & _)|(s3 & [] & Hm & H)];
      [apply modify_inv in H as [_ Hr]; discriminate Hr|].
    apply modify_inv in Hm as [-> _].
    apply bind_inv in H as [(e' & H & _)|(s4 & [] & Hm & H)];
      [apply modify_inv in H as [_ Hr]; discriminate Hr|].
    apply modify_inv in Hm as [-> _]. apply fail_inv in H as [-> _]. done.
Qed.

(** The body of the transaction: a successful [recordFirstStageInfo]
    stores a record for the round and changes nothing else in the
    database. *)
Lemma recordFirstStageInfo_Ok_inv accountsRound a b c d n big h1 h2 h3 s s' u :
  recordFirstStageInfo RootHashOf accountsRound a b c d n big h1 h2 h3 s = (s', Ok u) ->
  exists info, db s' = trackerdb.set_firstStageInfo (insert accountsRound info) (db s).
Proof.
  unfold recordFirstStageInfo. intros H.
  apply bind_Ok_inv in H as (s1 & [] & H1 & H). apply external_db in H1.
  apply bind_Ok_inv in H as (s2 & [] & H2 & H). apply external_db in H2.
  apply bind_Ok_inv in H as (s3 & totals & H3 & H). apply gets_inv in H3 as [-> _].
  apply bind_Ok_inv in H as (s4 & [] & H4 & H). apply external_db in H4.
  apply bind_Ok_inv' in H as [_ H].
  apply bind_Ok_inv in H as (s5 & [] & H5 & H).
  assert (db s5 = db s4) as Hd5.
  { destruct (balancesTrie (tracker s4)).
    - by apply ret_inv in H5 as [-> _].
    - apply bind_Ok_inv in H5 as (s6 & trie & H6 & H5).
      apply modify_inv in H5 as [-> _]. cbn.
      unfold merkletrie.MakeTrie in H6.
      apply bind_Ok_inv in H6 as (s7 & [] & H7 & H6). apply external_db in H7.
      apply gets_inv in H6 as [-> _]. done. }
  apply bind_Ok_inv in H as (s6 & root & H6 & H).
  apply RootHash_frame in H6 as (_ & Hd6 & _).
  apply bind_Ok_inv in H as (s7 & [] & H7 & H). apply external_db in H7.
  apply bind_Ok_inv in H as (s8 & [] & H8 & H). apply modify_inv in H as [-> _].
  unfold catchpointStore.InsertOrReplaceCatchpointFirstStageInfo in H8.
  apply external_modify_inv in H8 as [(s9 & (_ & Hd9 & _) & -> & _)|[_ Hr]];
    [|discriminate Hr].
  eexists. cbn. rewrite Hd9, H7, Hd6, Hd5, H4, H2, H1. reflexivity.
Qed.

(** What [finishFirstStage] does before its transaction does not write to
    the database, and the transaction commits both writes or none. *)
Lemma finishFirstStage_db dbRound blockProto s s' r :
  finishFirstStage' dbRound blockProto s = (s', r) ->
  match r with
  | Ok _ => exists info, db s' = first_stage_recorded dbRound info (db s)
  | Err _ => db s' = db s
  end.
Proof.
  unfold finishFirstStage', finishFirstStage. intros H.
  assert (Hgoal : forall s0, db s0 = db s ->
            match r with
            | Ok _ => exists info, db s' = first_stage_recorded dbRound info (db s0)
            | Err _ => db s' = db s0
            end ->
            match r with
            | Ok _ => exists info, db s' = first_stage_recorded dbRound info (db s)
            | Err _ => db s' = db s
            end).
  { intros s0 Hs0. by rewrite Hs0. }
  apply bind_inv in H as [(e & H & _)|(s1 & [] & Hlog & H)];
    [apply modify_inv in H as [_ Hr]; discriminate Hr|].
  apply modify_inv in Hlog as [-> _].
  apply bind_inv in H as [(e & H & ->)|(s2 & [spData spHash] & Hsp & H)].
  { destruct (EnableCatchpointsWithSPContexts _).
    - apply bind_Err_inv in H as [H|(s2 & [d h] & _ & H)];
        [by apply getSPVerificationData_db in H
        |apply ret_inv in H as [_ Hr]; discriminate Hr].
    - apply ret_inv in H as [_ Hr]; discriminate Hr. }
  assert (db s2 = db s) as Hd2.
  { destruct (EnableCatchpointsWithSPContexts _).
    - apply bind_Ok_inv in Hsp as (s3 & [d h] & Hsp & Hret).
      apply ret_inv in Hret as [-> _]. by apply getSPVerificationData_db in Hsp.
    - by apply ret_inv in Hsp as [-> _]. }
  clear Hsp.
  apply bind_inv in H as [(e & H & ->)|(s3 & [onlineHash paramsHash] & Honline & H)].
  { apply (Hgoal s2 Hd2).
    destruct (EnableCatchpointsWithOnlineAccounts _);
      [|apply ret_inv in H as [_ Hr]; discriminate Hr].
    unfold Snapshot in H.
    eapply (bind_frame db_kept); [exact db_kept_trans | | | exact H]; cbv beta.
    { intros s4 r4. apply external_db. }
    intros [] s4 s5 r5 H5.
    eapply (bind_frame db_kept); [exact db_kept_trans | | | exact H5]; cbv beta.
    { intros s6 r6. apply external_db. }
    intros [] s6 s7 r7 H7.
    eapply (bind_frame db_kept); [exact db_kept_trans | | | exact H7]; cbv beta.
    { intros s8 r8 H8. by apply gets_inv in H8 as [-> _]. }
    intros x s8 s9 r9 H9.
    eapply (bind_frame db_kept); [exact db_kept_trans | | | exact H9]; cbv beta.
    { intros s10 r10. apply external_db. }
    intros [] s10 s11 r11 H11.
    eapply (bind_frame db_kept); [exact db_kept_trans | | | exact H11]; cbv beta.
    { intros s12 r12 H12. by apply gets_inv in H12 as [-> _]. }
    intros y s12 s13 r13 H13. by apply ret_inv in H13 as [-> _]. }
  assert (db s3 = db s) as Hd3.
  { rewrite <- Hd2.
    destruct (EnableCatchpointsWithOnlineAccounts _);
      [|by apply ret_inv in Honline as [-> _]].
    unfold Snapshot in Honline.
    eapply (bind_frame db_kept); [exact db_kept_trans | | | exact Honline]; cbv beta.
    { intros s4 r4. apply external_db. }
    intros [] s4 s5 r5 H5.
    eapply (bind_frame db_kept); [exact db_kept_trans | | | exact H5]; cbv beta.
    { intros s6 r6. apply external_db. }
    intros [] s6 s7 r7 H7.
    eapply (bind_frame db_kept); [exact db_kept_trans | | | exact H7]; cbv beta.
    { intros s8 r8 H8. by apply gets_inv in H8 as [-> _]. }
    intros x s8 s9 r9 H9.
    eapply (bind_frame db_kept); [exact db_kept_trans | | | exact H9]; cbv beta.
    { intros s10 r10. apply external_db. }
    intros [] s10 s11 r11 H11.
    eapply (bind_frame db_kept); [exact db_kept_trans | | | exact H11]; cbv beta.
    { intros s12 r12 H12. by apply gets_inv in H12 as [-> _]. }
    intros y s12 s13 r13 H13. by apply ret_inv in H13 as [-> _]. }
  clear Honline Hd2 s2.
  apply bind_Ok_inv' in H as [_ H].
  assert (Hgen : forall s4 r4,
            (if enableGeneratingCatchpointFiles (tracker s3)
             then
               let* generated := try (generateCatchpointData writerChunks writerTotals
                                        dbRound spData) in
               modify (set_tracker (set_catchpointDataWriting 0));;
               match generated with
               | Err e => fail e
               | Ok totals => ret totals
               end
             else ret (0, 0, 0, 0, 0, 0)) s3 = (s4, r4) -> db s4 = db s).
  { intros s4 r4 H4. rewrite <- Hd3.
    destruct (enableGeneratingCatchpointFiles (tracker s3));
      [|by apply ret_inv in H4 as [-> _]].
    eapply (bind_frame db_kept); [exact db_kept_trans | | | exact H4]; cbv beta.
    { intros s5 r5 H5. eapply (try_frame db_kept); [|exact H5].
      intros s6 r6. apply generateCatchpointData_db. }
    intros generated s5 s6 r6 H6.
    eapply (bind_frame db_kept); [exact db_kept_trans | | | exact H6]; cbv beta.
    { intros s7 r7 H7. by apply modify_inv in H7 as [-> _]. }
    intros [] s7 s8 r8 H8. destruct generated.
    - by apply ret_inv in H8 as [-> _].
    - by apply fail_inv in H8 as [-> _]. }
  apply bind_inv in H as [(e & H & ->)|(s4 & [[[[[a b] c] d] n] big] & Hg & H)].
  { by apply Hgen in H. }
  apply Hgen in Hg. clear Hgen.
  apply (Hgoal s4 Hg). clear Hgoal.
  destruct r as [u|e].
  - apply Transaction_Ok_inv in H as (s5 & Hbody & (_ & Hd5 & _)).
    apply bind_Ok_inv in Hbody as (s6 & [] & H6 & Hbody). apply external_db in H6.
    apply bind_Ok_inv in Hbody as (s7 & [] & Hrec & Hwrite).
    apply recordFirstStageInfo_Ok_inv in Hrec as [info Hrec].
    unfold catchpointStore.WriteCatchpointStateUint64 in Hwrite.
    apply external_modify_inv in Hwrite as [(s8 & (_ & Hd8 & _) & -> & _)|[_ Hr]];
      [|discriminate Hr].
    exists info. rewrite Hd5. cbn. rewrite Hd8, Hrec, H6. reflexivity.
  - by apply Transaction_Err_inv in H as [Hd _].
Qed.

Lemma recordFirstStageInfo_runs accountsRound a b c d n big h1 h2 h3 :
  runs (recordFirstStageInfo RootHashOf accountsRound a b c d n big h1 h2 h3).
Proof.
  intros s Hs. unfold recordFirstStageInfo.
  rewrite (bind_Ok _ _ s s tt) by (by apply external_no_faults).
  rewrite (bind_Ok _ _ s s tt) by (by apply external_no_faults).
  rewrite (bind_Ok _ _ s s (trackerdb.accountsTotals (db s))) by done.
  rewrite (bind_Ok _ _ s s tt) by (by apply external_no_faults).
  rewrite (bind_Ok _ _ s s s) by done.
  destruct (balancesTrie (tracker s)) as [t|] eqn:Htrie.
  - rewrite (bind_Ok _ _ s s tt) by done.
    destruct (RootHash_runs RootHashOf s) as (s1 & root & Hroot); [by split; eauto|].
    pose proof (RootHash_frame _ _ _ _ Hroot) as Hframe.
    assert (sys_faults s1 = []) as Hs1.
    { unfold RootHash, merkletrie.with_trie in Hroot.
      rewrite (bind_Ok _ _ s s s) in Hroot by done. rewrite Htrie in Hroot.
      rewrite (bind_Ok _ _ s s tt) in Hroot by (by apply external_no_faults).
      by apply ret_inv in Hroot as [-> _]. }
    rewrite (bind_Ok _ _ _ _ _ Hroot).
    rewrite (bind_Ok _ _ s1 s1 tt) by (by apply external_no_faults).
    unfold catchpointStore.InsertOrReplaceCatchpointFirstStageInfo.
    rewrite (bind_Ok (external _;; modify _) _ s1 _ tt)
      by (rewrite (bind_Ok _ _ s1 s1 tt) by (by apply external_no_faults); reflexivity).
    eexists _, tt. split; [reflexivity|]. exact Hs1.
  - set (t := {| trie_elems := trackerdb.merkleTrie (db s) |}).
    set (s0 := set_tracker (set_balancesTrie (Some t)) s).
    rewrite (bind_Ok _ _ s s0 tt).
    2:{ unfold merkletrie.MakeTrie.
        rewrite (bind_Ok _ _ s s t); [done|].
        rewrite (bind_Ok _ _ s s tt) by (by apply external_no_faults). done. }
    assert (sys_faults s0 = []) as Hs0 by done.
    destruct (RootHash_runs RootHashOf s0) as (s1 & root & Hroot);
      [by split; [|eexists]|].
    assert (sys_faults s1 = []) as Hs1.
    { unfold RootHash, merkletrie.with_trie in Hroot.
      rewrite (bind_Ok _ _ s0 s0 s0) in Hroot by done. cbn in Hroot.
      rewrite (bind_Ok _ _ s0 s0 tt) in Hroot by (by apply external_no_faults).
      by apply ret_inv in Hroot as [-> _]. }
    rewrite (bind_Ok _ _ _ _ _ Hroot).
    rewrite (bind_Ok _ _ s1 s1 tt) by (by apply external_no_faults).
    unfold catchpointStore.InsertOrReplaceCatchpointFirstStageInfo.
    rewrite (bind_Ok (external _;; modify _) _ s1 _ tt)
      by (rewrite (bind_Ok _ _ s1 s1 tt) by (by apply external_no_faults); reflexivity).
    eexists _, tt. split; [reflexivity|]. exact Hs1.
Qed.

Lemma generateCatchpointData_runs accountsRound encodedSPData :
  runs (generateCatchpointData writerChunks writerTotals accountsRound encodedSPData).
Proof.
  unfold generateCatchpointData.
  apply runs_bind; [apply runs_logf|]. intros [].
  apply runs_bind; [apply runs_get|]. intros s0.
  intros s Hs.
  rewrite (bind_Ok _ _ s s (Ok tt))
    by (apply try_Ok; by apply external_no_faults).
  destruct (writerTotals (db s0)) as [[[a b] c] d].
  eexists _, _. split; [reflexivity|]. exact Hs.
Qed.

(** [finishFirstStage] returns nil whenever no call to the environment
    fails. *)
Lemma finishFirstStage_runs dbRound blockProto :
  runs (finishFirstStage' dbRound blockProto).
Proof.
  unfold finishFirstStage', finishFirstStage.
  apply runs_bind; [apply runs_logf|]. intros [].
  apply runs_bind.
  { destruct (EnableCatchpointsWithSPContexts _); [|apply runs_ret].
    apply runs_bind; [|intros [d h]; apply runs_ret].
    unfold getSPVerificationData. apply runs_Snapshot.
    apply runs_bind; [apply runs_external|]. intros [].
    apply runs_bind; [apply runs_get|]. intros s0.
    destruct (EncodeAndHash _). apply runs_ret. }
  intros [spData spHash].
  apply runs_bind.
  { destruct (EnableCatchpointsWithOnlineAccounts _); [|apply runs_ret].
    apply runs_Snapshot.
    apply runs_bind; [apply runs_external|]. intros [].
    apply runs_bind; [apply runs_gets|]. intros x.
    apply runs_bind; [apply runs_external|]. intros [].
    apply runs_bind; [apply runs_gets|]. intros y. apply runs_ret. }
  intros [onlineHash paramsHash].
  apply runs_bind; [apply runs_get|]. intros s0.
  apply runs_bind.
  { destruct (enableGeneratingCatchpointFiles (tracker s0)); [|apply runs_ret].
    intros s Hs.
    destruct (generateCatchpointData_runs dbRound spData s Hs) as (s1 & totals & Hrun & Hs1).
    rewrite (bind_Ok _ _ s s1 (Ok totals)) by (by apply try_Ok).
    eexists _, _. split; [reflexivity|]. exact Hs1. }
  intros [[[[[a b] c] d] n] big].
  apply runs_Transaction.
  apply runs_bind; [apply runs_external|]. intros [].
  apply runs_bind; [apply recordFirstStageInfo_runs|]. intros [].
  unfold catchpointStore.WriteCatchpointStateUint64.
  apply runs_bind; [apply runs_external|]. intros []. by apply runs_modify.
Qed.

Lemma first_stage_recorded_flag dbRound info d :
  writing_first_stage (first_stage_recorded dbRound info d) = 0.
Proof.
  unfold writing_first_stage, first_stage_recorded. cbn. by rewrite lookup_insert_eq.
Qed.

Lemma first_stage_recorded_row dbRound info d :
  trackerdb.firstStageInfo (first_stage_recorded dbRound info d) !! dbRound = Some info.
Proof. unfold first_stage_recorded. cbn. by rewrite lookup_insert_eq. Qed.

(** [finishFirstStageAfterCrash] reads the flag; it stops there when the
    flag is 0, and otherwise removes the data file and runs
    [finishFirstStage]. *)
Lemma finishFirstStageAfterCrash_inv dbRound blockProto s s' r :
  finishFirstStageAfterCrash' dbRound blockProto s = (s', r) ->
  (same_but_faults s s' /\ r = Err (ErrFault "ReadCatchpointStateUint64"))
  \/ (writing_first_stage (db s) = 0 /\ same_but_faults s s' /\ r = Ok tt)
  \/ (writing_first_stage (db s) <> 0
      /\ ((same_but_faults s s' /\ r = Err (ErrFault "os.Remove"))
          \/ exists s0,
              same_but_faults s s0
              /\ finishFirstStage' dbRound blockProto
                   (set_files (delete (stale_data_file (tracker s) dbRound)) s0)
                 = (s', r))).
Proof.
  unfold finishFirstStageAfterCrash', finishFirstStageAfterCrash. intros H.
  apply bind_inv in H as [(e & H & ->)|(s1 & v & Hread & H)].
  { left. unfold catchpointStore.ReadCatchpointStateUint64 in H.
    apply bind_Err_inv in H as [H|(s1 & [] & _ & H)];
      [|apply gets_inv in H as [_ Hr]; discriminate Hr].
    split; [by eapply external_same|].
    by apply external_Err_inv in H as ->. }
  right. unfold catchpointStore.ReadCatchpointStateUint64 in Hread.
  apply bind_Ok_inv in Hread as (s2 & [] & Hext & Hgets).
  apply gets_inv in Hgets as [-> [= ->]].
  apply external_same in Hext as Hsame. pose proof Hsame as (Ht & Hd & _).
  rewrite Hd in H. fold (writing_first_stage (db s)) in H.
  destruct (Z.eqb_spec (writing_first_stage (db s)) 0) as [Hzero|Hflag].
  { left. apply ret_inv in H as [-> ->]. done. }
  right. split; [done|].
  apply bind_Ok_inv' in H as [_ H].
  apply bind_inv in H as [(e & H & ->)|(s3 & [] & Hrm & H)].
  - left. unfold RemoveSingleCatchpointFileFromDisk in H.
    apply external_modify_inv in H as [(s3 & _ & _ & Hr)|[Hsame' ->]]; [discriminate Hr|].
    split; [by eapply same_but_faults_trans|done].
  - right. unfold RemoveSingleCatchpointFileFromDisk in Hrm.
    apply external_modify_inv in Hrm as [(s4 & Hsame4 & -> & _)|[_ Hr]]; [|discriminate Hr].
    exists s4. split; [by eapply same_but_faults_trans|].
    rewrite Ht in H. exact H.
Qed.

(** C3.  A [finishFirstStage] that returns nil leaves the database as it
    was but for the first-stage record of the round, which is stored, and the
    [WritingFirstStageInfo] state, which is 0; one that returns an error
    leaves the database as it was: the two writes are in one transaction.  It
    returns nil whenever no call to the environment fails.
    [finishFirstStageAfterCrash] does nothing when the persisted flag is 0;
    when it is non-zero it deletes the data file of the round and runs
    [finishFirstStage] once (unless reading the flag or removing the file
    fails), and when that returns nil the flag is 0 and the record is
    stored. *)
Theorem finishFirstStage_correct :
  forall dbRound blockProto (s : Sys),
    (forall s' r,
       finishFirstStage' dbRound blockProto s = (s', r) ->
       match r with
       | Ok _ => exists info, db s' = first_stage_recorded dbRound info (db s)
       | Err _ => db s' = db s
       end)
    /\ (sys_faults s = [] ->
        exists s', finishFirstStage' dbRound blockProto s = (s', Ok tt))
    /\ (forall s' r,
          finishFirstStageAfterCrash' dbRound blockProto s = (s', r) ->
          (same_but_faults s s' /\ r = Err (ErrFault "ReadCatchpointStateUint64"))
          \/ (writing_first_stage (db s) = 0 /\ same_but_faults s s' /\ r = Ok tt)
          \/ (writing_first_stage (db s) <> 0
              /\ ((same_but_faults s s' /\ r = Err (ErrFault "os.Remove"))
                  \/ exists s0,
                      same_but_faults s s0
                      /\ finishFirstStage' dbRound blockProto
                           (set_files (delete (stale_data_file (tracker s) dbRound)) s0)
                         = (s', r)
                      /\ match r with
                         | Ok _ =>
                             writing_first_stage (db s') = 0
                             /\ is_Some (trackerdb.firstStageInfo (db s') !! dbRound)
                         | Err _ => db s' = db s
                         end)))
    /\ (sys_faults s = [] ->
        exists s',
          finishFirstStageAfterCrash' dbRound blockProto s = (s', Ok tt)
          /\ writing_first_stage (db s') = 0
          /\ (writing_first_stage (db s) = 0 -> s' = s)
          /\ (writing_first_stage (db s) <> 0 ->
              is_Some (trackerdb.firstStageInfo (db s') !! dbRound)
              /\ finishFirstStage' dbRound blockProto
                   (set_files (delete (stale_data_file (tracker s) dbRound)) s)
                 = (s', Ok tt))).
Proof.
  intros dbRound blockProto s. split_and!.
  - intros s' r. apply finishFirstStage_db.
  - intros Hs. destruct (finishFirstStage_runs dbRound blockProto s Hs) as (s' & [] & H & _).
    by exists s'.
  - intros s' r H.
    apply finishFirstStageAfterCrash_inv in H as [H|[H|(Hflag & [H|(s0 & Hsame & H)])]];
      [by left | by right; left | by right; right; split; [|left] |].
    right. right. split; [done|]. right. exists s0. split_and!; [done..|].
    apply finishFirstStage_db in H. cbn in H. destruct Hsame as (_ & Hd & _).
    rewrite Hd in H. destruct r as [u|e]; [|done].
    destruct H as [info ->]. rewrite first_stage_recorded_flag, first_stage_recorded_row.
    by split.
  - intros Hs.
    unfold finishFirstStageAfterCrash', finishFirstStageAfterCrash,
      catchpointStore.ReadCatchpointStateUint64.
    rewrite (bind_Ok _ _ s s (writing_first_stage (db s)))
      by (rewrite (bind_Ok _ _ s s tt) by (by apply external_no_faults); done).
    destruct (Z.eqb_spec (writing_first_stage (db s)) 0) as [Hzero|Hflag].
    { exists s. split_and!; done. }
    rewrite (bind_Ok _ _ s s s) by done.
    unfold RemoveSingleCatchpointFileFromDisk.
    set (s1 := set_files (delete (stale_data_file (tracker s) dbRound)) s).
    rewrite (bind_Ok _ _ s s1 tt)
      by (rewrite (bind_Ok _ _ s s tt) by (by apply external_no_faults); done).
    destruct (finishFirstStage_runs dbRound blockProto s1) as (s' & [] & H & _); [done|].
    exists s'. split; [exact H|].
    pose proof (finishFirstStage_db _ _ _ _ _ H) as [info Hdb]. cbn in Hdb.
    rewrite Hdb, first_stage_recorded_flag, first_stage_recorded_row.
    split_and!; try done.
Qed.

End StageOneFacts.

Lemma finishFirstStage_correct_witness :
  exists s',
    finishFirstStageAfterCrash Example.Consensus Example.RootHashOf Example.EncodeAndHash
      Example.calculateVerificationHash Example.writerChunks Example.writerTotals
      80 "v7" Example.sys_interrupted
    = (s', Ok tt)
    /\ writing_first_stage (db Example.sys_interrupted) = 1
    /\ writing_first_stage (db s') = 0
    /\ is_Some (trackerdb.firstStageInfo (db s') !! 80).
Proof.
  destruct (finishFirstStage_correct
              Example.Consensus Example.RootHashOf Example.EncodeAndHash
              Example.calculateVerificationHash Example.writerChunks Example.writerTotals
              80 "v7" Example.sys_interrupted)
    as (_ & _ & _ & Hboot).
  destruct (Hboot eq_refl) as (s' & Hrun & Hflag & _ & Hreplay).
  exists s'. split; [exact Hrun|]. split; [reflexivity|]. split; [exact Hflag|].
  apply Hreplay. discriminate.
Defined.

Lemma finishCatchpoint_correct_witness :
  exists s',
    finishCatchpoint Example.Consensus Example.Encode Example.MakeLabel
      Example.MakeCatchpointFilePath Example.FileSize 400 7 "v8" 320 Example.sys400
    = (s', Ok tt)
    /\ trackerdb.unfinishedCatchpoints (db s')
       = delete 400 (trackerdb.unfinishedCatchpoints (db Example.sys400))
    /\ exists f,
        files s' !! "cold/catchpoints/400.catchpoint" = Some f
        /\ trackerdb.catchpointFiles (db s')
           = <[400 := ("catchpoints/400.catchpoint", Example.FileSize f)]>
               (trackerdb.catchpointFiles (db Example.sys400)).
Proof.
  set (run := finishCatchpoint Example.Consensus Example.Encode Example.MakeLabel
                Example.MakeCatchpointFilePath Example.FileSize 400 7 "v8" 320
                Example.sys400).
  assert (Hrun : run = (run.1, Ok tt)) by (vm_compute; reflexivity).
  destruct (finishCatchpoint_correct
              Example.Consensus Example.Encode Example.MakeLabel
              Example.MakeCatchpointFilePath Example.FileSize
              400 7 "v8" 320 Example.sys400 _ _ Hrun)
    as [_ Hrecord].
  destruct (Hrecord Example.dataInfo eq_refl) as (_ & _ & Hok & _).
  destruct (Hok tt eq_refl eq_refl Example.data_file eq_refl) as [Hmarker Harchive].
  exists run.1. split; [exact Hrun|]. split; [exact Hmarker|].
  exact (Harchive eq_refl).
Defined.

(** C7, on a node that does not generate catchpoint files
    ([enableGeneratingCatchpointFiles] is false).  The first-stage record of
    round 80 is there and round 400 is marked unfinished.
    [finishCatchpoint 400] with the lookback 320 finds the record, writes the
    label and returns nil, and the marker of round 400 is still in the
    database: [createCatchpoint] returns right after the label, before the
    transaction that deletes the marker. *)
Theorem finishCatchpoint_labels_only :
  enableGeneratingCatchpointFiles (tracker Example.sys400_labels_only) = false
  /\ trackerdb.unfinishedCatchpoints (db Example.sys400_labels_only) !! 400 = Some 7
  /\ sys_faults Example.sys400_labels_only = []
  /\ trackerdb.firstStageInfo (db Example.sys400_labels_only) !! Go.u64_sub 400 320
     = Some Example.dataInfo
  /\ exists s',
      finishCatchpoint Example.Consensus Example.Encode Example.MakeLabel
        Example.MakeCatchpointFilePath Example.FileSize 400 7 "v8" 320
        Example.sys400_labels_only
      = (s', Ok tt)
      /\ lastCatchpointLabel (tracker s') = "400#V8"
      /\ trackerdb.unfinishedCatchpoints (db s') !! 400 = Some 7
      /\ trackerdb.catchpointFiles (db s') !! 400 = None
      /\ files s' !! "cold/catchpoints/400.catchpoint" = None.
Proof.
  split_and!; try reflexivity.
  set (run := finishCatchpoint Example.Consensus Example.Encode Example.MakeLabel
                Example.MakeCatchpointFilePath Example.FileSize 400 7 "v8" 320
                Example.sys400_labels_only).
  exists run.1. split_and!; vm_compute; reflexivity.
Qed.

(** ** Serving a catchpoint file *)

Lemma rows_only_removed_refl s : rows_only_removed s s.
Proof. by intros round row. Qed.

Lemma rows_only_removed_trans s1 s2 s3 :
  rows_only_removed s1 s2 -> rows_only_removed s2 s3 -> rows_only_removed s1 s3.
Proof. intros H12 H23 round row H. by apply H12, H23. Qed.

Lemma same_db_rows_only_removed s s' : db s' = db s -> rows_only_removed s s'.
Proof. intros Hd round row. by rewrite Hd. Qed.

(** [StoreCatchpoint] with an empty file name removes the row of the round,
    or fails and removes nothing. *)
Lemma StoreCatchpoint_rows round catchpoint fileSize s s' r :
  catchpointStore.StoreCatchpoint round "" catchpoint fileSize s = (s', r) ->
  rows_only_removed s s'
  /\ (forall u, r = Ok u -> trackerdb.catchpointFiles (db s') !! round = None).
Proof.
  unfold catchpointStore.StoreCatchpoint. intros H.
  destruct (decide (@eq string "" "")) as [_|Hne]; [|done].
  apply external_modify_inv in H as [(s1 & (_ & Hd & _) & -> & ->)|[(_ & Hd & _) ->]].
  - cbn. rewrite Hd. split.
    + intros k row Hk. cbn in Hk. rewrite Hd in Hk.
      by apply lookup_delete_Some in Hk as [_ Hk].
    + intros _ _. apply lookup_delete_eq.
  - split; [by apply same_db_rows_only_removed | discriminate].
Qed.

Lemma remove_oldest_rows dir (filesToDelete : list (Z * string)) :
  forall s s' r,
    for_each filesToDelete (fun '(round, fileToDelete) =>
      RemoveSingleCatchpointFileFromDisk dir fileToDelete;;
      let* stored := try (catchpointStore.StoreCatchpoint round "" "" 0) in
      match stored with
      | Err _ => fail (Errorf "unable to delete old catchpoint entry '%s' : %v")
      | Ok _ => ret tt
      end) s = (s', r) ->
    rows_only_removed s s'.
Proof.
  induction filesToDelete as [|[round file] rest IH]; intros s s' r H; cbn in H.
  - apply ret_inv in H as [-> _]. apply rows_only_removed_refl.
  - eapply (bind_frame rows_only_removed);
      [exact rows_only_removed_trans | | | exact H]; cbv beta.
    + intros s1 r1 H1.
      eapply (bind_frame rows_only_removed);
        [exact rows_only_removed_trans | | | exact H1]; cbv beta.
      * intros s2 r2 H2. apply same_db_rows_only_removed.
        by apply RemoveSingleCatchpointFileFromDisk_inv in H2 as (_ & Hd & _).
      * intros [] s2 s3 r3 H3.
        eapply (bind_frame rows_only_removed);
          [exact rows_only_removed_trans | | | exact H3]; cbv beta.
        -- intros s4 r4 H4. eapply (try_frame rows_only_removed); [|exact H4].
           intros s5 r5 H5. by apply StoreCatchpoint_rows in H5 as [Hrows _].
        -- intros [[]|e] s4 s5 r5 H5.
           ++ apply ret_inv in H5 as [-> _]. apply rows_only_removed_refl.
           ++ apply fail_inv in H5 as [-> _]. apply rows_only_removed_refl.
    + intros [] s1 s2 r2 H2. by eapply IH.
Qed.

(** With a history other than 0, a [recordCatchpointFile] with an empty
    file name that returns nil has removed the row of the round. *)
Lemma recordCatchpointFile_deletes_row round fileSize s s' u :
  catchpointFileHistoryLength (tracker s) <> 0 ->
  recordCatchpointFile round "" fileSize s = (s', Ok u) ->
  trackerdb.catchpointFiles (db s') !! round = None.
Proof.
  intros Hh H. unfold recordCatchpointFile in H.
  apply bind_Ok_inv' in H as (_ & H).
  apply Z.eqb_neq in Hh. rewrite Hh in H. cbn [negb] in H.
  apply bind_Ok_inv in H as (s1 & [] & Hst & H).
  apply bind_Ok_inv in Hst as (s2 & stored & Hst & Hm).
  apply try_Ok_inv in Hst as [Hst _].
  destruct stored as [[]|e].
  2:{ apply bind_Ok_inv in Hm as (s3 & [] & _ & Hm). apply fail_inv in Hm as [_ Hr].
      discriminate Hr. }
  apply ret_inv in Hm as [-> _].
  apply StoreCatchpoint_rows in Hst as [_ Hrow]. specialize (Hrow tt eq_refl).
  assert (rows_only_removed s2 s') as Hrows.
  { destruct (_ =? -1).
    - apply ret_inv in H as [-> _]. apply rows_only_removed_refl.
    - eapply (bind_frame rows_only_removed);
        [exact rows_only_removed_trans | | | exact H]; cbv beta.
      + intros s3 r3 H3. eapply (try_frame rows_only_removed); [|exact H3].
        intros s4 r4 H4. apply GetOldestCatchpointFiles_inv in H4 as (_ & Hd & _).
        by apply same_db_rows_only_removed.
      + intros [filesToDelete|e] s3 s4 r4 H4.
        * by eapply remove_oldest_rows.
        * apply fail_inv in H4 as [-> _]. apply rows_only_removed_refl. }
  destruct (trackerdb.catchpointFiles (db s') !! round) as [row|] eqn:Hrow'; [|done].
  apply Hrows in Hrow'. congruence.
Qed.

(** *** The errors of [recordCatchpointFile] *)

Lemma fails_bind {A B} (m : ST Sys A) (k : A -> ST Sys B) :
  fails_by_failure m -> (forall a, fails_by_failure (k a)) -> fails_by_failure (bind m k).
Proof.
  intros Hm Hk s s' e H.
  apply bind_Err_inv in H as [H|(s1 & a & _ & H)]; [by eapply Hm | by eapply Hk].
Qed.

Lemma fails_try {A} (m : ST Sys A) : fails_by_failure m -> fails_by_failure (try m).
Proof. intros Hm s s' e H. apply try_Err_inv in H as [H _]. by eapply Hm. Qed.

Lemma fails_ret {A} (a : A) : fails_by_failure (ret a).
Proof. intros s s' e H. apply ret_inv in H as [_ Hr]. discriminate Hr. Qed.

Lemma fails_get : fails_by_failure get.
Proof. intros s s' e H. apply get_inv in H as [_ Hr]. discriminate Hr. Qed.

Lemma fails_modify (f : Sys -> Sys) : fails_by_failure (modify f).
Proof. intros s s' e H. apply modify_inv in H as [_ Hr]. discriminate Hr. Qed.

Lemma fails_external op : fails_by_failure (external op).
Proof. intros s s' e H. by apply external_Err_inv in H as ->. Qed.

Lemma fails_fail {A} e : is_failure e -> fails_by_failure (@fail Sys A e).
Proof. intros He s s' e' H. by apply fail_inv in H as [_ [= <-]]. Qed.

Lemma fails_for_each {A} (xs : list A) (body : A -> ST Sys unit) :
  (forall x, fails_by_failure (body x)) -> fails_by_failure (for_each xs body).
Proof.
  intros Hbody. induction xs as [|x rest IH]; cbn; [apply fails_ret|].
  apply fails_bind; [apply Hbody | intros []; exact IH].
Qed.

Lemma fails_RemoveSingleCatchpointFileFromDisk dir file :
  fails_by_failure (RemoveSingleCatchpointFileFromDisk dir file).
Proof.
  apply fails_bind; [apply fails_external | intros []; apply fails_modify].
Qed.

Lemma fails_StoreCatchpoint round fileName catchpoint fileSize :
  fails_by_failure (catchpointStore.StoreCatchpoint round fileName catchpoint fileSize).
Proof.
  apply fails_bind; [apply fails_external | intros []].
  destruct (decide _); apply fails_modify.
Qed.

Lemma fails_try_bind {A B} (m : ST Sys A) (k : res A -> ST Sys B) :
  fails_by_failure m ->
  (forall a, fails_by_failure (k (Ok a))) ->
  (forall e, is_failure e -> fails_by_failure (k (Err e))) ->
  fails_by_failure (bind (try m) k).
Proof.
  intros Hm Hok Herr s s' e H.
  apply bind_Err_inv in H as [H|(s1 & [a|e0] & Htry & H)].
  - apply try_Err_inv in H as [H _]. by eapply Hm.
  - by eapply Hok.
  - apply try_Ok_inv in Htry as [Htry _]. eapply Herr; [|exact H]. by eapply Hm.
Qed.

Lemma fails_logf_fail {A} level format args e :
  is_failure e -> fails_by_failure (logf level format args;; @fail Sys A e).
Proof.
  intros He. apply fails_bind; [apply fails_modify | intros []; by apply fails_fail].
Qed.

Lemma fails_recordCatchpointFile round rel fileSize :
  fails_by_failure (recordCatchpointFile round rel fileSize).
Proof.
  unfold recordCatchpointFile.
  apply fails_bind; [apply fails_get | intros s0].
  apply fails_bind.
  - destruct (negb _).
    + apply fails_try_bind; [apply fails_StoreCatchpoint | intros []; apply fails_ret |].
      intros e He. by apply fails_logf_fail.
    + apply fails_try_bind;
        [apply fails_RemoveSingleCatchpointFileFromDisk | intros []; apply fails_ret |].
      intros e He. by apply fails_logf_fail.
  - intros []. destruct (_ =? -1); [apply fails_ret|].
    apply fails_try_bind.
    + unfold catchpointStore.GetOldestCatchpointFiles.
      apply fails_bind; [apply fails_external | intros []].
      apply fails_bind; [apply fails_get | intros s1]. apply fails_ret.
    + intros filesToDelete. apply fails_for_each. intros [round' file].
      apply fails_bind; [apply fails_RemoveSingleCatchpointFileFromDisk | intros []].
      apply fails_try_bind; [apply fails_StoreCatchpoint | intros []; apply fails_ret |].
      intros e He. by apply fails_fail.
    + intros e He. by apply fails_fail.
Qed.

(** *** [recordCatchpointFile] when nothing fails *)

Lemma runs_try_bind {A B} (m : ST Sys A) (k : res A -> ST Sys B) :
  runs m -> (forall a, runs (k (Ok a))) -> runs (bind (try m) k).
Proof.
  intros Hm Hk s Hs. destruct (Hm s Hs) as (s1 & a & Hrun & Hs1).
  rewrite (bind_Ok _ _ s s1 (Ok a)) by (by apply try_Ok). by apply Hk.
Qed.

Lemma runs_for_each {A} (xs : list A) (body : A -> ST Sys unit) :
  (forall x, runs (body x)) -> runs (for_each xs body).
Proof.
  intros Hbody. induction xs as [|x rest IH]; cbn; [apply runs_ret|].
  apply runs_bind; [apply Hbody | intros []; exact IH].
Qed.

Lemma runs_RemoveSingleCatchpointFileFromDisk dir file :
  runs (RemoveSingleCatchpointFileFromDisk dir file).
Proof.
  apply runs_bind; [apply runs_external | intros []; by apply runs_modify].
Qed.

Lemma runs_StoreCatchpoint round fileName catchpoint fileSize :
  runs (catchpointStore.StoreCatchpoint round fileName catchpoint fileSize).
Proof.
  apply runs_bind; [apply runs_external | intros []].
  destruct (decide _); by apply runs_modify.
Qed.

Lemma runs_recordCatchpointFile round rel fileSize :
  runs (recordCatchpointFile round rel fileSize).
Proof.
  unfold recordCatchpointFile.
  apply runs_bind; [apply runs_get | intros s0].
  apply runs_bind.
  - destruct (negb _).
    + apply runs_try_bind; [apply runs_StoreCatchpoint | intros []; apply runs_ret].
    + apply runs_try_bind;
        [apply runs_RemoveSingleCatchpointFileFromDisk | intros []; apply runs_ret].
  - intros []. destruct (_ =? -1); [apply runs_ret|].
    apply runs_try_bind.
    + unfold catchpointStore.GetOldestCatchpointFiles.
      apply runs_bind; [apply runs_external | intros []].
      apply runs_bind; [apply runs_get | intros s1]. apply runs_ret.
    + intros filesToDelete. apply runs_for_each. intros [round' file].
      apply runs_bind; [apply runs_RemoveSingleCatchpointFileFromDisk | intros []].
      apply runs_try_bind; [apply runs_StoreCatchpoint | intros []; apply runs_ret].
Qed.

(** The lookup of [GetCatchpointStream]: the row of the round, or
    [sql.ErrNoRows] when there is none, or a failure. *)
Lemma lookup_catchpoint_inv round s s' r :
  Snapshot (external "MakeCatchpointReader";; catchpointStore.GetCatchpoint round) s
  = (s', r) ->
  same_but_faults s s'
  /\ match r with
     | Ok row => trackerdb.catchpointFiles (db s) !! round = Some row
     | Err e =>
         is_failure e
         \/ (e = ErrNoRows /\ trackerdb.catchpointFiles (db s) !! round = None)
     end.
Proof.
  unfold Snapshot, catchpointStore.GetCatchpoint. intros H.
  apply bind_inv in H as [(e & H & ->)|(s1 & [] & H1 & H)].
  { split; [by eapply external_same|]. left. by apply external_Err_inv in H as ->. }
  apply external_same in H1.
  apply bind_inv in H as [(e & H & ->)|(s2 & [] & H2 & H)].
  { split; [eapply same_but_faults_trans; [exact H1 | by eapply external_same]|].
    left. by apply external_Err_inv in H as ->. }
  apply external_same in H2.
  apply bind_inv in H as [(e & H & ->)|(s3 & [] & H3 & H)].
  { split; [eapply same_but_faults_trans; [exact H1|];
            eapply same_but_faults_trans; [exact H2 | by eapply external_same]|].
    left. by apply external_Err_inv in H as ->. }
  apply external_same in H3.
  pose proof (same_but_faults_trans _ _ _ H1 (same_but_faults_trans _ _ _ H2 H3)) as Hsame.
  apply bind_Ok_inv' in H as [_ H]. pose proof Hsame as (_ & Hd & _). rewrite Hd in H.
  destruct (trackerdb.catchpointFiles (db s) !! round) as [row|].
  - apply ret_inv in H as [-> ->]. done.
  - apply fail_inv in H as [-> ->]. split; [done|]. by right.
Qed.

Section ServingFacts.

Variable MakeCatchpointFilePath : Z -> string.
Variable FileSize : File -> Z.

Let GetCatchpointStream' := GetCatchpointStream MakeCatchpointFilePath FileSize.

(** The missing file on a node that keeps catchpoint files
    ([catchpointFileHistoryLength] is not 0).  The registry holds a row for
    the round and the file it names is not on disk.  Then
    [GetCatchpointStream] never returns a stream; whenever it returns
    [ErrNoEntry] the row of the round is gone from the registry and no row
    has been added; every other error it returns is a failure of a call to
    the environment; and when no such call fails it does return
    [ErrNoEntry]. *)
Theorem GetCatchpointStream_missing_file :
  forall round fileName fileSize (s : Sys),
    trackerdb.catchpointFiles (db s) !! round = Some (fileName, fileSize) ->
    fileName <> "" ->
    files s !! filepath_Join (dbDirectory (tracker s)) fileName = None ->
    catchpointFileHistoryLength (tracker s) <> 0 ->
    (forall s' r,
       GetCatchpointStream' round s = (s', r) ->
       (r = Err ErrNoEntry
        /\ trackerdb.catchpointFiles (db s') !! round = None
        /\ rows_only_removed s s')
       \/ exists e, r = Err e /\ is_failure e)
    /\ (sys_faults s = [] ->
        exists s', GetCatchpointStream' round s = (s', Err ErrNoEntry)).
Proof.
  intros round fileName fileSize s Hrow Hname Hmissing Hhistory. split.
  - intros s' r H. unfold GetCatchpointStream', GetCatchpointStream in H.
    apply bind_inv in H as [(e & H & ->)|(s1 & looked & Hlook & H)].
    { right. exists e. split; [done|].
      apply try_Err_inv in H as [H _].
      apply lookup_catchpoint_inv in H as [_ [H|[-> H]]]; [done | congruence]. }
    apply try_Ok_inv in Hlook as [Hlook _].
    apply lookup_catchpoint_inv in Hlook as [Hsame1 Hlooked].
    destruct looked as [row|e].
    2:{ destruct Hlooked as [He|[_ Hnone]]; [|congruence].
        right. destruct (decide (e = ErrNoRows)) as [->|_]; [done|].
        apply bind_inv in H as [(e' & H & ->)|(s2 & a & H2 & _)].
        - apply fail_inv in H as [_ [= ->]]. by eexists.
        - apply fail_inv in H2 as [_ Hr]. discriminate Hr. }
    rewrite Hrow in Hlooked. injection Hlooked as <-.
    apply bind_inv in H as [(e & H & ->)|(s2 & [name size'] & Hret & H)];
      [apply ret_inv in H as [_ Hr]; discriminate Hr|].
    apply ret_inv in Hret as [-> [= -> ->]].
    apply bind_Ok_inv' in H as [_ H].
    pose proof Hsame1 as (Ht1 & Hd1 & Hf1 & _).
    rewrite bool_decide_eq_false_2 in H by done. cbn [negb] in H.
    rewrite Ht1 in H.
    apply bind_inv in H as [(e & H & ->)|(s2 & opened & Hopen & H)].
    { apply try_Err_inv in H as [H Hp].
      apply OpenFile_inv in H as [_ [->|[-> _]]]; discriminate Hp. }
    apply try_Ok_inv in Hopen as [Hopen _].
    apply OpenFile_inv in Hopen as [Hsame2 Hopened]. rewrite Hf1 in Hopened.
    destruct opened as [file|openErr]; [congruence|].
    destruct Hopened as [->|[-> _]].
    { right. cbn in H. apply fail_inv in H as [_ ->]. by eexists. }
    unfold os.IsNotExist in H. rewrite bool_decide_eq_true_2 in H by done.
    apply bind_inv in H as [(e & H & ->)|(s3 & [] & Hext & H)].
    { right. exists e. split; [done|]. by apply external_Err_inv in H as ->. }
    apply external_same in Hext as Hsame3.
    pose proof (same_but_faults_trans _ _ _ Hsame1
                  (same_but_faults_trans _ _ _ Hsame2 Hsame3)) as (Ht3 & Hd3 & _).
    apply bind_inv in H as [(e & H & ->)|(s4 & recorded & Hrec & H)].
    { right. exists e. split; [done|]. apply try_Err_inv in H as [H _].
      by apply fails_recordCatchpointFile in H. }
    apply try_Ok_inv in Hrec as [Hrec _].
    destruct recorded as [[]|err2].
    + left. apply fail_inv in H as [-> ->]. split; [done|].
      pose proof (recordCatchpointFile_registry_step _ _ _ _ _ _ Hrec) as Hstep.
      split.
      * eapply recordCatchpointFile_deletes_row; [|exact Hrec]. by rewrite Ht3.
      * intros k row Hk. rewrite <- Hd3. revert k row Hk.
        change (rows_only_removed s3 s4).
        clear -Hrec. unfold recordCatchpointFile in Hrec.
        apply bind_Ok_inv' in Hrec as [_ Hrec].
        eapply (bind_frame rows_only_removed);
          [exact rows_only_removed_trans | | | exact Hrec]; cbv beta.
        -- intros s1 r1 H1. destruct (negb _).
           ++ eapply (bind_frame rows_only_removed);
                [exact rows_only_removed_trans | | | exact H1]; cbv beta.
              ** intros s2 r2 H2. eapply (try_frame rows_only_removed); [|exact H2].
                 intros s5 r5 H5. by apply StoreCatchpoint_rows in H5 as [Hrows _].
              ** intros [[]|e] s2 s5 r5 H5.
                 --- apply ret_inv in H5 as [-> _]. apply rows_only_removed_refl.
                 --- apply same_db_rows_only_removed.
                     apply bind_inv in H5 as [(e' & H5 & _)|(s6 & [] & H6 & H5)].
                     +++ by apply modify_inv in H5 as [-> _].
                     +++ apply modify_inv in H6 as [-> _].
                         by apply fail_inv in H5 as [-> _].
           ++ apply same_db_rows_only_removed.
              eapply (bind_frame (fun x y : Sys => db y = db x));
                [congruence | | | exact H1]; cbv beta.
              ** intros s2 r2 H2.
                 eapply (try_frame (fun x y : Sys => db y = db x)); [|exact H2].
                 intros s5 r5 H5.
                 by apply RemoveSingleCatchpointFileFromDisk_inv in H5 as (_ & Hd & _).
              ** intros [[]|e] s2 s5 r5 H5.
                 --- by apply ret_inv in H5 as [-> _].
                 --- apply bind_inv in H5 as [(e' & H5 & _)|(s6 & [] & H6 & H5)].
                     +++ by apply modify_inv in H5 as [-> _].
                     +++ apply modify_inv in H6 as [-> _].
                         by apply fail_inv in H5 as [-> _].
        -- intros [] s1 s2 r2 H2. destruct (_ =? -1).
           ++ apply ret_inv in H2 as [-> _]. apply rows_only_removed_refl.
           ++ eapply (bind_frame rows_only_removed);
                [exact rows_only_removed_trans | | | exact H2]; cbv beta.
              ** intros s5 r5 H5. eapply (try_frame rows_only_removed); [|exact H5].
                 intros s6 r6 H6. apply GetOldestCatchpointFiles_inv in H6 as (_ & Hd & _).
                 by apply same_db_rows_only_removed.
              ** intros [filesToDelete|e] s5 s6 r6 H6.
                 --- by eapply remove_oldest_rows.
                 --- apply fail_inv in H6 as [-> _]. apply rows_only_removed_refl.
    + right. exists err2.
      apply bind_inv in H as [(e' & H & _)|(s5 & [] & _ & H)];
        [apply modify_inv in H as [_ Hr]; discriminate Hr|].
      apply fail_inv in H as [_ ->]. split; [done|].
      by apply fails_recordCatchpointFile in Hrec.
  - intros Hs. unfold GetCatchpointStream', GetCatchpointStream.
    rewrite (bind_Ok _ _ s s (Ok (fileName, fileSize))).
    2:{ apply try_Ok. unfold Snapshot, catchpointStore.GetCatchpoint.
        rewrite (bind_Ok _ _ s s tt) by (by apply external_no_faults).
        rewrite (bind_Ok _ _ s s tt) by (by apply external_no_faults).
        rewrite (bind_Ok _ _ s s tt) by (by apply external_no_faults).
        rewrite (bind_Ok _ _ s s s) by done. by rewrite Hrow. }
    rewrite (bind_Ok _ _ s s (fileName, fileSize)) by done.
    rewrite (bind_Ok _ _ s s s) by done.
    rewrite bool_decide_eq_false_2 by done. cbn [negb].
    rewrite (bind_Ok _ _ s s (Err ErrNotExist)).
    2:{ unfold try, os.OpenFile.
        rewrite (bind_Ok _ _ s s tt) by (by apply external_no_faults).
        rewrite (bind_Ok _ _ s s s) by done. by rewrite Hmissing. }
    unfold os.IsNotExist. rewrite bool_decide_eq_true_2 by done.
    rewrite (bind_Ok _ _ s s tt) by (by apply external_no_faults).
    destruct (runs_recordCatchpointFile round "" 0 s Hs) as (s' & [] & Hrec & _).
    rewrite (bind_Ok _ _ s s' (Ok tt)) by (by apply try_Ok).
    by exists s'.
Qed.

End ServingFacts.

Lemma GetCatchpointStream_missing_file_witness :
  exists s',
    GetCatchpointStream Example.MakeCatchpointFilePath Example.FileSize 300
      (set_tracker (Example.with_history 2) Example.sys_registry)
    = (s', Err ErrNoEntry)
    /\ trackerdb.catchpointFiles (db s') !! 300 = None.
Proof.
  destruct (GetCatchpointStream_missing_file
              Example.MakeCatchpointFilePath Example.FileSize
              300 "catchpoints/300.catchpoint" 3
              (set_tracker (Example.with_history 2) Example.sys_registry))
    as [Hany Hruns]; [reflexivity | discriminate | reflexivity | discriminate |].
  destruct (Hruns eq_refl) as (s' & Hrun).
  exists s'. split; [exact Hrun|].
  destruct (Hany _ _ Hrun) as [(_ & Hgone & _)|(e & [= <-] & He)]; [exact Hgone | destruct He].
Defined.


(** C8, on a node that keeps no catchpoint file
    ([catchpointFileHistoryLength] is 0).  The registry lists a file for
    round 300 and the file is not on disk.  [GetCatchpointStream 300] returns
    [ErrNoEntry], and the row of round 300 is still in the registry: with a
    history of 0 [recordCatchpointFile] does not call [StoreCatchpoint] on
    the round it is given, it only drops the two oldest rows. *)
Theorem GetCatchpointStream_history_zero_keeps_row :
  catchpointFileHistoryLength (tracker Example.sys_registry) = 0
  /\ trackerdb.catchpointFiles (db Example.sys_registry) !! 300
     = Some ("catchpoints/300.catchpoint", 3)
  /\ files Example.sys_registry
       !! filepath_Join (dbDirectory (tracker Example.sys_registry))
                        "catchpoints/300.catchpoint"
     = None
  /\ sys_faults Example.sys_registry = []
  /\ exists s',
      GetCatchpointStream Example.MakeCatchpointFilePath Example.FileSize 300
        Example.sys_registry
      = (s', Err ErrNoEntry)
      /\ trackerdb.catchpointFiles (db s') !! 300
         = Some ("catchpoints/300.catchpoint", 3)
      /\ trackerdb.catchpointFiles (db s') !! 100 = None
      /\ trackerdb.catchpointFiles (db s') !! 200 = None.
Proof.
  split_and!; try reflexivity.
  set (run := GetCatchpointStream Example.MakeCatchpointFilePath Example.FileSize 300
                Example.sys_registry).
  exists run.1. split_and!; vm_compute; reflexivity.
Qed.

(** * The rest of the commit cycle *)

(** ** The catchpoint rounds of a commit range *)

(** Within the 64-bit range the tracker's [calculateCatchpointRounds] is
    [calculateCatchpointRounds] between [max(oldBase, lookback) + 1] and
    [oldBase + offset]. *)
Lemma ct_calculateCatchpointRounds_meets_spec :
  forall (ct : catchpointTracker) (dcc : DCR.deferredCommitRange),
    commit_range_in_range (catchpointInterval ct) dcc ->
    exists rounds fuel0,
      (forall fuel, (fuel0 <= fuel)%nat ->
                    ct_calculateCatchpointRounds fuel ct dcc = Returns rounds)
      /\ StronglySorted Z.lt rounds
      /\ (forall r, r ∈ rounds <-> isCatchpointRound (catchpointInterval ct) dcc r)
      /\ (forall r, r ∈ rounds ->
            Go.u64_sub (Go.u64_sub r (DCR.oldBase dcc)) 1 = r - DCR.oldBase dcc - 1
            /\ 0 <= r - DCR.oldBase dcc - 1 < DCR.offset dcc
            /\ Go.u64_sub r (DCR.catchpointLookback dcc) = r - DCR.catchpointLookback dcc
            /\ 1 <= r - DCR.catchpointLookback dcc).
Proof.
  intros ct dcc (Hk & Hbase & Hoff & Hlook & Hmax & Hlk & Hint).
  set (k := catchpointInterval ct) in *.
  set (lo := Z.max (DCR.oldBase dcc + 1) (DCR.catchpointLookback dcc + 1)).
  destruct (calculateCatchpointRounds_meets_spec lo (DCR.oldBase dcc + DCR.offset dcc) k)
    as (rounds & fuel0 & Hcalc & Hsorted & Hmem & _).
  { unfold Go.is_uint64. lia. }
  { unfold Go.is_uint64. lia. }
  { lia. }
  { lia. }
  { assert ((DCR.oldBase dcc + DCR.offset dcc) / k
            <= DCR.oldBase dcc + DCR.offset dcc); [|lia].
    apply Z.div_le_upper_bound; nia. }
  { (* a range of [offset] rounds holds at most [offset] multiples *)
    pose proof (ceil_multiple k lo Hk) as (Hceil & _).
    pose proof (floor_multiple k (DCR.oldBase dcc + DCR.offset dcc) Hk) as (Hfloor & _).
    nia. }
  assert (Hin : forall r, r ∈ rounds <-> isCatchpointRound k dcc r).
  { intros r. rewrite Hmem. unfold isCatchpointRound. lia. }
  exists rounds, fuel0. split_and!; [|done|done|].
  - intros fuel Hfuel. unfold ct_calculateCatchpointRounds. fold k.
    destruct (Z.eqb_spec k 0) as [?|_]; [lia|].
    unfold Go.u64_add.
    rewrite (uint64_small (DCR.oldBase dcc + 1)) by lia.
    rewrite (uint64_small (DCR.catchpointLookback dcc + 1)) by lia.
    rewrite (uint64_small (DCR.oldBase dcc + DCR.offset dcc)) by lia.
    rewrite <- (Hcalc fuel Hfuel). subst lo.
    destruct (Z.gtb_spec (DCR.catchpointLookback dcc + 1) (DCR.oldBase dcc + 1)).
    + by rewrite Z.max_r by lia.
    + by rewrite Z.max_l by lia.
  - intros r Hr. apply Hin in Hr as ((Hr1 & Hr2) & Hr3 & _).
    unfold Go.u64_sub.
    rewrite (uint64_small (r - DCR.oldBase dcc)) by lia.
    rewrite (uint64_small (r - DCR.oldBase dcc - 1)) by lia.
    rewrite (uint64_small (r - DCR.catchpointLookback dcc)) by lia.
    lia.
Qed.


(** On a tracker with an interval, for a commit range of fewer than [2^63]
    rounds whose sums with the interval stay below [2^64], the rounds that
    the tracker's [calculateCatchpointRounds] returns
    are, in increasing order, the multiples of the interval in
    [(oldBase, oldBase + offset]] that are past the lookback.  So for each of
    them the index [round - oldBase - 1], at which [commitRound] and
    [postCommitUnlocked] read the committed digests and versions, is below
    [offset], and [round - catchpointLookback], the accounts round of
    [finishCatchpoint], does not wrap around and is at least 1. *)
Theorem ct_calculateCatchpointRounds_rounds :
  forall (ct : catchpointTracker) (dcc : DCR.deferredCommitRange),
    commit_range_in_range (catchpointInterval ct) dcc ->
    exists rounds fuel0,
      (forall fuel, (fuel0 <= fuel)%nat ->
                    ct_calculateCatchpointRounds fuel ct dcc = Returns rounds)
      /\ StronglySorted Z.lt rounds
      /\ (forall r, r ∈ rounds <-> isCatchpointRound (catchpointInterval ct) dcc r)
      /\ (forall r, r ∈ rounds ->
            Go.u64_sub (Go.u64_sub r (DCR.oldBase dcc)) 1 = r - DCR.oldBase dcc - 1
            /\ 0 <= r - DCR.oldBase dcc - 1 < DCR.offset dcc
            /\ Go.u64_sub r (DCR.catchpointLookback dcc) = r - DCR.catchpointLookback dcc
            /\ 1 <= r - DCR.catchpointLookback dcc).
Proof. exact ct_calculateCatchpointRounds_meets_spec. Qed.

Lemma ct_calculateCatchpointRounds_rounds_witness :
  exists rounds fuel0,
    (forall fuel, (fuel0 <= fuel)%nat ->
                  ct_calculateCatchpointRounds fuel Example.ct Example.dcr = Returns rounds)
    /\ (forall r, r ∈ rounds <-> isCatchpointRound 100 Example.dcr r).
Proof.
  destruct (ct_calculateCatchpointRounds_rounds Example.ct Example.dcr)
    as (rounds & fuel0 & Hcalc & _ & Hmem & _).
  { unfold commit_range_in_range. cbn. lia. }
  by exists rounds, fuel0.
Defined.

(** ** The committing task *)

(** The first-stage decision with its three results named: whether the
    range holds a first-stage round, whether it holds more than one, and the
    new offset, which is the offset given or the one of the last first-stage
    round. *)
Lemma calculateFirstStageRounds_decision oldBase offset reenable interval lookback :
  firstStageRounds_in_range oldBase offset reenable interval lookback ->
  let isRound := isFirstStageRound oldBase offset reenable interval lookback in
  exists (has multiple : bool) (newOffset : Z),
    Scheduler.calculateFirstStageRounds oldBase offset reenable interval lookback
    = Returns (has, multiple, newOffset)
    /\ (has = true <-> reenable <> 0 /\ exists r, isRound r)
    /\ (multiple = true <->
        reenable <> 0 /\ exists r1 r2, r1 <> r2 /\ isRound r1 /\ isRound r2)
    /\ 0 <= newOffset <= offset
    /\ (has = true ->
        1 <= newOffset /\ isRound (oldBase + newOffset)
        /\ forall r, isRound r -> r <= oldBase + newOffset)
    /\ (has = false -> newOffset = offset).
Proof.
  intros Hrange isRound.
  destruct (Z.eq_dec reenable 0) as [->|Hne].
  { exists false, false, offset. destruct Hrange as (_ & Hoffset & _).
    split_and!; try done; try lia;
      (split; [discriminate | by intros [? _]]). }
  pose proof (calculateFirstStageRounds_exact _ _ _ _ _ Hrange Hne) as Hexact.
  destruct (calculateFirstStageRounds_meets_spec _ _ _ _ _ Hrange Hne)
    as (has & multiple & newOffset & Hcalc & Hhas & Hlast & Hmultiple).
  fold isRound in Hhas, Hlast, Hmultiple.
  cbv zeta in Hexact. rewrite Hcalc in Hexact.
  destruct Hrange as (HoldBase & Hoffset & _).
  exists has, multiple, newOffset. split; [done|].
  assert (has = true ->
          1 <= newOffset <= offset /\ isRound (oldBase + newOffset)
          /\ forall r, isRound r -> r <= oldBase + newOffset) as Hthen.
  { intros Htrue. destruct (Hlast Htrue) as (rlast & Hr & Hmax & ->).
    replace (oldBase + (rlast - oldBase)) with rlast by lia.
    split; [|done]. destruct Hr as (Hlo & Hhi & _). lia. }
  split_and!.
  - rewrite Hhas. split; [by intros ? | by intros [_ ?]].
  - rewrite Hmultiple. split; [by intros ? | by intros [_ ?]].
  - destruct has; [destruct (Hthen eq_refl) as [? _]; lia|].
    destruct (_ <=? _); simplify_eq; lia.
  - destruct has; [destruct (Hthen eq_refl) as [? _]; lia|].
    destruct (_ <=? _); simplify_eq; lia.
  - intros Htrue. destruct (Hthen Htrue) as ([? ?] & ? & ?). done.
  - intros ->. destruct (_ <=? _); simplify_eq; lia.
Qed.

(** [produceCommittingTask] on a tracker with a positive interval, for a
    range whose sums stay within the signed 64-bit range
    ([oldBase + offset + catchpointLookback + catchpointInterval < 2^63] and
    [reenableCatchpointsRound + catchpointInterval < 2^63]).  The range it
    leaves has the base and the lookback it was given and an offset that is
    not larger.  When the range holds a first-stage round the new offset is
    at least 1 and ends the range at the last first-stage round, otherwise it
    is the offset given.  While a data file is being written no task is
    returned, the three flags of the range are as given, and the slow-writing
    channel is closed if the range holds a first-stage round.  Otherwise the
    range is returned, [catchpointFirstStage] is set if the range holds a
    first-stage round, [enableGeneratingCatchpointFiles] is the tracker's,
    [catchpointSecondStage] says whether the narrowed range holds a
    catchpoint round, and the slow-writing channel is made anew (closed iff
    there are several first-stage rounds) when a first-stage round is
    scheduled on a tracker that generates files. *)
Theorem produceCommittingTask_task :
  forall (s : Sys) (committedRound dbRound : Z) (dcr : DCR.deferredCommitRange),
    let ct := tracker s in
    let isRound :=
      isFirstStageRound (DCR.oldBase dcr) (DCR.offset dcr) (reenableCatchpointsRound ct)
                        (catchpointInterval ct) (DCR.catchpointLookback dcr) in
    firstStageRounds_in_range (DCR.oldBase dcr) (DCR.offset dcr) (reenableCatchpointsRound ct)
                              (catchpointInterval ct) (DCR.catchpointLookback dcr) ->
    exists (fuel0 : nat) (has multiple : bool) (dcr' : DCR.deferredCommitRange) (s' : Sys),
      (forall fuel, (fuel0 <= fuel)%nat ->
         produceCommittingTask fuel committedRound dbRound dcr s
         = (s', Ok (dcr', negb (isWritingCatchpointDataFile ct))))
      /\ (has = true <-> reenableCatchpointsRound ct <> 0 /\ exists r, isRound r)
      /\ (multiple = true <->
          reenableCatchpointsRound ct <> 0
          /\ exists r1 r2, r1 <> r2 /\ isRound r1 /\ isRound r2)
      /\ DCR.oldBase dcr' = DCR.oldBase dcr
      /\ DCR.catchpointLookback dcr' = DCR.catchpointLookback dcr
      /\ 0 <= DCR.offset dcr' <= DCR.offset dcr
      /\ (has = true ->
          1 <= DCR.offset dcr'
          /\ isRound (DCR.oldBase dcr + DCR.offset dcr')
          /\ forall r, isRound r -> r <= DCR.oldBase dcr + DCR.offset dcr')
      /\ (has = false -> DCR.offset dcr' = DCR.offset dcr)
      /\ (isWritingCatchpointDataFile ct = true ->
          DCR.catchpointFirstStage dcr' = DCR.catchpointFirstStage dcr
          /\ DCR.enableGeneratingCatchpointFiles dcr'
             = DCR.enableGeneratingCatchpointFiles dcr
          /\ DCR.catchpointSecondStage dcr' = DCR.catchpointSecondStage dcr
          /\ s' = if has then set_tracker (set_catchpointDataSlowWriting true) s else s)
      /\ (isWritingCatchpointDataFile ct = false ->
          DCR.catchpointFirstStage dcr' = has || DCR.catchpointFirstStage dcr
          /\ DCR.enableGeneratingCatchpointFiles dcr' = enableGeneratingCatchpointFiles ct
          /\ (DCR.catchpointSecondStage dcr' = true <->
              exists r, isCatchpointRound (catchpointInterval ct) dcr' r)
          /\ s' = if has && enableGeneratingCatchpointFiles ct
                  then set_tracker (set_catchpointDataSlowWriting multiple) s
                  else s).
Proof.
  intros s committedRound dbRound dcr ct isRound Hrange.
  destruct (calculateFirstStageRounds_decision _ _ _ _ _ Hrange)
    as (has & multiple & newOffset & Hcalc & Hhas & Hmultiple & Hoffset & Hthen & Helse).
  fold isRound in Hhas, Hmultiple, Hthen.
  destruct Hrange as (HoldBase & _ & _ & Hinterval & Hlookback & Hsum & _).
  assert (Hstart : forall fuel,
            produceCommittingTask fuel committedRound dbRound dcr s
            = (let dcr1 :=
                 {| DCR.oldBase := DCR.oldBase dcr; DCR.offset := newOffset;
                    DCR.catchpointLookback := DCR.catchpointLookback dcr;
                    DCR.catchpointFirstStage := DCR.catchpointFirstStage dcr;
                    DCR.enableGeneratingCatchpointFiles :=
                      DCR.enableGeneratingCatchpointFiles dcr;
                    DCR.catchpointSecondStage := DCR.catchpointSecondStage dcr |} in
               if isWritingCatchpointDataFile ct then
                 ((if has then modify (set_tracker (set_catchpointDataSlowWriting true))
                   else ret tt);;
                  ret (dcr1, false))
               else
                 ((if has && enableGeneratingCatchpointFiles ct
                   then modify (set_tracker (set_catchpointDataSlowWriting multiple))
                   else ret tt);;
                  let dcr2 :=
                    {| DCR.oldBase := DCR.oldBase dcr; DCR.offset := newOffset;
                       DCR.catchpointLookback := DCR.catchpointLookback dcr;
                       DCR.catchpointFirstStage :=
                         if has then true else DCR.catchpointFirstStage dcr;
                       DCR.enableGeneratingCatchpointFiles :=
                         enableGeneratingCatchpointFiles ct;
                       DCR.catchpointSecondStage := DCR.catchpointSecondStage dcr |} in
                  let* rounds := of_outcome (ct_calculateCatchpointRounds fuel ct dcr2) in
                  ret ({| DCR.oldBase := DCR.oldBase dcr; DCR.offset := newOffset;
                          DCR.catchpointLookback := DCR.catchpointLookback dcr;
                          DCR.catchpointFirstStage :=
                            if has then true else DCR.catchpointFirstStage dcr;
                          DCR.enableGeneratingCatchpointFiles :=
                            enableGeneratingCatchpointFiles ct;
                          DCR.catchpointSecondStage := len rounds >? 0 |}, true))) s).
  { intros fuel. unfold produceCommittingTask.
    rewrite (bind_Ok _ _ s s s) by done. fold ct.
    destruct (Z.eqb_spec (catchpointInterval ct) 0) as [?|_]; [lia|].
    rewrite Hcalc. cbn [of_outcome].
    rewrite (bind_Ok _ _ s s (has, multiple, newOffset)) by done.
    reflexivity. }
  cbv zeta in Hstart.
  destruct (isWritingCatchpointDataFile ct) eqn:Hwriting.
  - exists 0%nat, has, multiple,
      {| DCR.oldBase := DCR.oldBase dcr; DCR.offset := newOffset;
         DCR.catchpointLookback := DCR.catchpointLookback dcr;
         DCR.catchpointFirstStage := DCR.catchpointFirstStage dcr;
         DCR.enableGeneratingCatchpointFiles := DCR.enableGeneratingCatchpointFiles dcr;
         DCR.catchpointSecondStage := DCR.catchpointSecondStage dcr |},
      (if has then set_tracker (set_catchpointDataSlowWriting true) s else s).
    cbn [DCR.oldBase DCR.offset DCR.catchpointLookback DCR.catchpointFirstStage
         DCR.enableGeneratingCatchpointFiles DCR.catchpointSecondStage negb].
    split_and!; [|done|done|done|done|lia|lia|exact Hthen|exact Helse|done|discriminate].
    intros fuel _. rewrite Hstart. by destruct has.
  - set (dcr2 := {| DCR.oldBase := DCR.oldBase dcr; DCR.offset := newOffset;
                    DCR.catchpointLookback := DCR.catchpointLookback dcr;
                    DCR.catchpointFirstStage :=
                      if has then true else DCR.catchpointFirstStage dcr;
                    DCR.enableGeneratingCatchpointFiles :=
                      enableGeneratingCatchpointFiles ct;
                    DCR.catchpointSecondStage := DCR.catchpointSecondStage dcr |}) in *.
    destruct (ct_calculateCatchpointRounds_meets_spec ct dcr2)
      as (rounds & fuel0 & Hrounds & _ & Hmem & _).
    { unfold commit_range_in_range. cbn. lia. }
    exists fuel0, has, multiple,
      {| DCR.oldBase := DCR.oldBase dcr; DCR.offset := newOffset;
         DCR.catchpointLookback := DCR.catchpointLookback dcr;
         DCR.catchpointFirstStage := if has then true else DCR.catchpointFirstStage dcr;
         DCR.enableGeneratingCatchpointFiles := enableGeneratingCatchpointFiles ct;
         DCR.catchpointSecondStage := len rounds >? 0 |},
      (if has && enableGeneratingCatchpointFiles ct
       then set_tracker (set_catchpointDataSlowWriting multiple) s else s).
    cbn [DCR.oldBase DCR.offset DCR.catchpointLookback DCR.catchpointFirstStage
         DCR.enableGeneratingCatchpointFiles DCR.catchpointSecondStage negb].
    split_and!; [|done|done|done|done|lia|lia|exact Hthen|exact Helse|discriminate|].
    + intros fuel Hfuel. rewrite Hstart.
      rewrite (Hrounds fuel Hfuel). cbn [of_outcome].
      by destruct (has && enableGeneratingCatchpointFiles ct).
    + intros _. split_and!.
      * by destruct has.
      * done.
      * assert (forall r, isCatchpointRound (catchpointInterval ct) dcr2 r
                          <-> isCatchpointRound (catchpointInterval ct)
                                {| DCR.oldBase := DCR.oldBase dcr; DCR.offset := newOffset;
                                   DCR.catchpointLookback := DCR.catchpointLookback dcr;
                                   DCR.catchpointFirstStage :=
                                     if has then true else DCR.catchpointFirstStage dcr;
                                   DCR.enableGeneratingCatchpointFiles :=
                                     enableGeneratingCatchpointFiles ct;
                                   DCR.catchpointSecondStage := len rounds >? 0 |} r)
          as Hsame by done.
        setoid_rewrite <- Hsame. setoid_rewrite <- Hmem.
        destruct rounds as [|r rest].
        -- split; [discriminate|]. intros [r Hr]. by apply elem_of_nil in Hr.
        -- split; [|done]. intros _. exists r. apply list_elem_of_here.
      * by destruct (has && enableGeneratingCatchpointFiles ct).
Qed.

Lemma produceCommittingTask_task_witness :
  exists (fuel0 : nat) (dcr' : DCR.deferredCommitRange) (s' : Sys),
    (forall fuel, (fuel0 <= fuel)%nat ->
       produceCommittingTask fuel 500 0 Example.dcr Example.sys = (s', Ok (dcr', true)))
    /\ 1 <= DCR.offset dcr' <= 500
    /\ isFirstStageRound 0 500 200 100 320 (DCR.offset dcr')
    /\ DCR.catchpointFirstStage dcr' = true.
Proof.
  destruct (produceCommittingTask_task Example.sys 500 0 Example.dcr)
    as (fuel0 & has & multiple & dcr' & s' & Hrun & Hhas & _ & _ & _ & Hoffset
        & Hthen & _ & _ & Hidle).
  { unfold firstStageRounds_in_range. cbn. lia. }
  assert (has = true) as ->.
  { apply Hhas. split; [discriminate|]. exists 80. unfold isFirstStageRound. cbn.
    split; [lia|]. split; [lia|reflexivity]. }
  destruct (Hthen eq_refl) as (Hone & Hround & _).
  destruct (Hidle eq_refl) as (Hfirst & _).
  exists fuel0, dcr', s'. split; [exact Hrun|]. split; [cbn in Hoffset; lia|].
  split; [exact Hround | exact Hfirst].
Defined.

(** ** The writing sentinel across the first stage *)

Lemma node_kept_refl s : node_kept s s.
Proof. by unfold node_kept. Qed.

Lemma node_kept_trans s1 s2 s3 : node_kept s1 s2 -> node_kept s2 s3 -> node_kept s1 s3.
Proof. unfold node_kept. intros (-> & -> & ->) (-> & -> & ->). done. Qed.

Lemma external_node_kept op (s s' : Sys) r : external op s = (s', r) -> node_kept s s'.
Proof. intros H. apply external_same in H as (? & ? & ? & _). by unfold node_kept. Qed.

Lemma sentinel_kept_refl s : sentinel_kept s s.
Proof. by unfold sentinel_kept. Qed.

Lemma sentinel_kept_trans s1 s2 s3 :
  sentinel_kept s1 s2 -> sentinel_kept s2 s3 -> sentinel_kept s1 s3.
Proof. unfold sentinel_kept. congruence. Qed.

Lemma node_kept_sentinel_kept s s' : node_kept s s' -> sentinel_kept s s'.
Proof. unfold node_kept, sentinel_kept. by intros (-> & _). Qed.

Lemma fails_gets {A} (f : Sys -> A) : fails_by_failure (gets f).
Proof. intros s s' e H. apply gets_inv in H as [_ Hr]. discriminate Hr. Qed.

Section StageOneSentinel.

Variable Consensus : string -> ConsensusParams.
Variable RootHashOf : gset Digest -> Digest.
Variable EncodeAndHash : list byte -> Digest * list byte.
Variable calculateVerificationHash : list byte -> Digest.
Variable writerChunks : trackerdb.Store -> list TarEntry.
Variable writerTotals : trackerdb.Store -> Z * Z * Z * Z.

Let finishFirstStage' :=
  finishFirstStage Consensus RootHashOf EncodeAndHash calculateVerificationHash
    writerChunks writerTotals.

(** Reading the state-proof contexts changes nothing, and fails only with
    the failure of a call. *)
Lemma getSPVerificationData_node_kept s s' r :
  getSPVerificationData EncodeAndHash s = (s', r) ->
  node_kept s s' /\ match r with Ok _ => True | Err e => is_failure e end.
Proof.
  intros H. split.
  - revert H. unfold getSPVerificationData, Snapshot. intros H.
    eapply (bind_frame node_kept); [exact node_kept_trans | | | exact H]; cbv beta.
    { intros s1 r1. apply external_node_kept. }
    intros [] s1 s2 r2 H2.
    eapply (bind_frame node_kept); [exact node_kept_trans | | | exact H2]; cbv beta.
    { intros s3 r3. apply external_node_kept. }
    intros [] s3 s4 r4 H4. apply bind_Ok_inv' in H4 as [_ H4].
    destruct (EncodeAndHash _). apply ret_inv in H4 as [-> _]. apply node_kept_refl.
  - destruct r as [a|e]; [done|]. revert H.
    assert (fails_by_failure (getSPVerificationData EncodeAndHash)) as Hfails; [|apply Hfails].
    unfold getSPVerificationData, Snapshot.
    apply fails_bind; [apply fails_external | intros []].
    apply fails_bind; [apply fails_external | intros []].
    apply fails_bind; [apply fails_get | intros s0].
    destruct (EncodeAndHash _). apply fails_ret.
Qed.

(** So does hashing the online accounts and the online round
    parameters. *)
Lemma online_hashes_node_kept s s' (r : res (Digest * Digest)) :
  Snapshot (
    external "MakeOnlineAccountsIter";;
    let* a := gets (fun s => calculateVerificationHash (trackerdb.onlineAccounts (db s))) in
    external "MakeOnlineRoundParamsIter";;
    let* b := gets (fun s => calculateVerificationHash
                               (trackerdb.onlineRoundParams (db s))) in
    ret (a, b)) s = (s', r) ->
  node_kept s s' /\ match r with Ok _ => True | Err e => is_failure e end.
Proof.
  intros H. split.
  - revert H. unfold Snapshot. intros H.
    eapply (bind_frame node_kept); [exact node_kept_trans | | | exact H]; cbv beta.
    { intros s1 r1. apply external_node_kept. }
    intros [] s1 s2 r2 H2.
    eapply (bind_frame node_kept); [exact node_kept_trans | | | exact H2]; cbv beta.
    { intros s3 r3. apply external_node_kept. }
    intros [] s3 s4 r4 H4.
    eapply (bind_frame node_kept); [exact node_kept_trans | | | exact H4]; cbv beta.
    { intros s5 r5 H5. apply gets_inv in H5 as [-> _]. apply node_kept_refl. }
    intros a s5 s6 r6 H6.
    eapply (bind_frame node_kept); [exact node_kept_trans | | | exact H6]; cbv beta.
    { intros s7 r7. apply external_node_kept. }
    intros [] s7 s8 r8 H8.
    eapply (bind_frame node_kept); [exact node_kept_trans | | | exact H8]; cbv beta.
    { intros s9 r9 H9. apply gets_inv in H9 as [-> _]. apply node_kept_refl. }
    intros b s9 s10 r10 H10. apply ret_inv in H10 as [-> _]. apply node_kept_refl.
  - destruct r as [a|e]; [done|]. revert H.
    match goal with |- ?m s = _ -> _ =>
      assert (fails_by_failure m) as Hfails; [|apply Hfails] end.
    unfold Snapshot.
    apply fails_bind; [apply fails_external | intros []].
    apply fails_bind; [apply fails_external | intros []].
    apply fails_bind; [apply fails_gets | intros a].
    apply fails_bind; [apply fails_external | intros []].
    apply fails_bind; [apply fails_gets | intros b]. apply fails_ret.
Qed.

Lemma generateCatchpointData_sentinel accountsRound encodedSPData s s' r :
  generateCatchpointData writerChunks writerTotals accountsRound encodedSPData s = (s', r) ->
  tracker s' = tracker s.
Proof.
  unfold generateCatchpointData. intros H.
  apply bind_inv in H as [(e & H & _)|(s1 & [] & Hlog & H)];
    [apply modify_inv in H as [_ Hr]; discriminate Hr|].
  apply modify_inv in Hlog as [-> _].
  apply bind_Ok_inv' in H as [_ H].
  apply bind_inv in H as [(e & H & _)|(s2 & written & Hw & H)].
  { eapply (try_frame (fun x y : Sys => tracker y = tracker x)) in H; [exact H|].
    intros s3 r3 H3. by apply external_same in H3 as (? & _). }
  eapply (try_frame (fun x y : Sys => tracker y = tracker x)) in Hw;
    [|intros s3 r3 H3; by apply external_same in H3 as (? & _)].
  cbv beta in Hw. cbn in Hw.
  destruct written as [[]|e].
  - destruct (writerTotals _) as [[[a b] c] d].
    apply bind_inv in H as [(e & H & _)|(s3 & [] & Hm & H)];
      [apply modify_inv in H as [_ Hr]; discriminate Hr|].
    apply modify_inv in Hm as [-> _]. apply ret_inv in H as [-> _]. done.
  - apply bind_inv in H as [(e' & H & _)|(s3 & [] & Hm & H)];
      [apply modify_inv in H as [_ Hr]; discriminate Hr|].
    apply modify_inv in Hm as [-> _].
    apply bind_inv in H as [(e' & H & _)|(s4 & [] & Hm & H)];
      [apply modify_inv in H as [_ Hr]; discriminate Hr|].
    apply modify_inv in Hm as [-> _]. apply fail_inv in H as [-> _]. done.
Qed.

(** The transaction of [finishFirstStage] may give the tracker a trie; the
    sentinel is not its business. *)
Lemma recordFirstStageInfo_sentinel accountsRound a b c d n big h1 h2 h3 s s' r :
  recordFirstStageInfo RootHashOf accountsRound a b c d n big h1 h2 h3 s = (s', r) ->
  sentinel_kept s s'.
Proof.
  unfold recordFirstStageInfo. intros H.
  assert (Hext : forall op (x y : Sys) rx, external op x = (y, rx) -> sentinel_kept x y).
  { intros op x y rx Hx. by apply external_node_kept, node_kept_sentinel_kept in Hx. }
  eapply (bind_frame sentinel_kept); [exact sentinel_kept_trans | | | exact H]; cbv beta.
  { intros s1 r1. apply Hext. }
  intros [] s1 s2 r2 H2.
  eapply (bind_frame sentinel_kept); [exact sentinel_kept_trans | | | exact H2]; cbv beta.
  { intros s3 r3. apply Hext. }
  intros [] s3 s4 r4 H4.
  eapply (bind_frame sentinel_kept); [exact sentinel_kept_trans | | | exact H4]; cbv beta.
  { intros s5 r5 H5. apply gets_inv in H5 as [-> _]. apply sentinel_kept_refl. }
  intros totals s5 s6 r6 H6.
  eapply (bind_frame sentinel_kept); [exact sentinel_kept_trans | | | exact H6]; cbv beta.
  { intros s7 r7. apply Hext. }
  intros [] s7 s8 r8 H8. apply bind_Ok_inv' in H8 as [_ H8].
  eapply (bind_frame sentinel_kept); [exact sentinel_kept_trans | | | exact H8]; cbv beta.
  { intros s9 r9 H9. destruct (balancesTrie (tracker s7)).
    - apply ret_inv in H9 as [-> _]. apply sentinel_kept_refl.
    - eapply (bind_frame sentinel_kept); [exact sentinel_kept_trans | | | exact H9]; cbv beta.
      + intros s10 r10 H10. unfold merkletrie.MakeTrie in H10.
        eapply (bind_frame sentinel_kept); [exact sentinel_kept_trans | | | exact H10];
          cbv beta.
        * intros s11 r11. apply Hext.
        * intros [] s11 s12 r12 H12. apply gets_inv in H12 as [-> _].
          apply sentinel_kept_refl.
      + intros trie s10 s11 r11 H11. apply modify_inv in H11 as [-> _]. done. }
  intros [] s9 s10 r10 H10.
  eapply (bind_frame sentinel_kept); [exact sentinel_kept_trans | | | exact H10]; cbv beta.
  { intros s11 r11 H11. apply RootHash_frame in H11 as (Ht & _).
    unfold sentinel_kept. by rewrite Ht. }
  intros root s11 s12 r12 H12.
  eapply (bind_frame sentinel_kept); [exact sentinel_kept_trans | | | exact H12]; cbv beta.
  { intros s13 r13. apply Hext. }
  intros [] s13 s14 r14 H14.
  eapply (bind_frame sentinel_kept); [exact sentinel_kept_trans | | | exact H14]; cbv beta.
  { intros s15 r15 H15.
    unfold catchpointStore.InsertOrReplaceCatchpointFirstStageInfo in H15.
    apply external_modify_inv in H15 as [(s16 & (Ht & _) & -> & _)|[(Ht & _) _]];
      unfold sentinel_kept; cbn; by rewrite Ht. }
  intros [] s15 s16 r16 H16. apply modify_inv in H16 as [-> _]. done.
Qed.

Lemma Transaction_frame {A} (P : Sys -> Sys -> Prop) (fn : ST Sys A) s s' r :
  (forall x y z, P x y -> P y z -> P x z) ->
  (forall x y, tracker y = tracker x -> P x y) ->
  (forall s1 r1, fn s = (s1, r1) -> P s s1) ->
  Transaction fn s = (s', r) -> P s s'.
Proof.
  intros Htrans Htracker Hfn. unfold Transaction.
  destruct (fn s) as [s1 [a|e]] eqn:Hrun.
  - destruct (external "Transaction.Commit" s1) as [s2 [[]|e]] eqn:Hext;
      intros [= <- _]; (eapply Htrans; [by eapply Hfn|]); apply Htracker;
      by apply external_same in Hext as (? & _).
  - intros [= <- _]. eapply Htrans; [by eapply Hfn|]. by apply Htracker.
Qed.

(** The sentinel [catchpointDataWriting] across [finishFirstStage].  On a
    tracker that does not generate files it is left as it was.  On one that
    does, it is 0 when the call returns, whether the call succeeded or not,
    unless the call failed before the generation, reading the state-proof
    contexts or hashing the online accounts: then the error is the failure of
    that read and the tracker, the database and the files are as before, the
    sentinel with them.  The last case is there: when state-proof contexts
    are enabled and the first call to the database fails, the call returns
    that failure and leaves the tracker as it was. *)
Theorem finishFirstStage_writing_sentinel :
  forall dbRound blockProto (s s' : Sys) r,
    finishFirstStage' dbRound blockProto s = (s', r) ->
    let params := Consensus blockProto in
    (enableGeneratingCatchpointFiles (tracker s) = false ->
     catchpointDataWriting (tracker s') = catchpointDataWriting (tracker s))
    /\ (enableGeneratingCatchpointFiles (tracker s) = true ->
        catchpointDataWriting (tracker s') = 0
        \/ (node_kept s s'
            /\ (exists e, r = Err e /\ is_failure e)
            /\ (EnableCatchpointsWithSPContexts params = true
                \/ EnableCatchpointsWithOnlineAccounts params = true)))
    /\ (EnableCatchpointsWithSPContexts params = true ->
        forall rest, sys_faults s = true :: rest ->
                     r = Err (ErrFault "Snapshot") /\ tracker s' = tracker s).
Proof.
  intros dbRound blockProto s s' r H params.
  assert (Hfault : EnableCatchpointsWithSPContexts params = true ->
                   forall rest, sys_faults s = true :: rest ->
                                r = Err (ErrFault "Snapshot") /\ tracker s' = tracker s).
  { intros Hsp rest Hrest. revert H.
    unfold finishFirstStage', finishFirstStage, logf. fold params. rewrite Hsp.
    unfold bind at 1. unfold modify at 1. cbv beta iota.
    unfold getSPVerificationData, Snapshot.
    unfold bind at 1. unfold bind at 1. unfold bind at 1.
    unfold external at 1. cbn [faults Sys_faults sys_faults set_logs]. rewrite Hrest.
    intros [= <- <-]. done. }
  split_and!; [| |exact Hfault]; clear Hfault.
  all: revert H; unfold finishFirstStage', finishFirstStage; fold params; intros H.
  all: apply bind_inv in H as [(e & H & _)|(s1 & [] & Hlog & H)];
         [apply modify_inv in H as [_ Hr]; discriminate Hr|].
  all: apply modify_inv in Hlog as [-> _].
  all: set (s1 := set_logs _ s) in H.
  all: assert (node_kept s s1) as Hk1 by done.
  all: assert (Hsp : forall s2 r2,
            (if EnableCatchpointsWithSPContexts params
             then let* (d, h) := getSPVerificationData EncodeAndHash in ret (Some d, h)
             else ret (None, 0)) s1 = (s2, r2) ->
            node_kept s s2
            /\ match r2 with
               | Ok _ => True
               | Err e => is_failure e /\ EnableCatchpointsWithSPContexts params = true
               end).
  1,3: intros s2 r2 H2; destruct (EnableCatchpointsWithSPContexts params);
         [|apply ret_inv in H2 as [-> ->]; done];
         apply bind_inv in H2 as [(e & H2 & ->)|(s3 & [d h] & H3 & H2)];
         [apply getSPVerificationData_node_kept in H2 as [Hk He];
          split; [by eapply node_kept_trans | done]
         |apply ret_inv in H2 as [-> ->];
          apply getSPVerificationData_node_kept in H3 as [Hk _];
          split; [by eapply node_kept_trans | done]].
  all: assert (Honline : forall s2 s3 r3,
            node_kept s s2 ->
            (if EnableCatchpointsWithOnlineAccounts params
             then Snapshot (
                    external "MakeOnlineAccountsIter";;
                    let* a := gets (fun s => calculateVerificationHash
                                               (trackerdb.onlineAccounts (db s))) in
                    external "MakeOnlineRoundParamsIter";;
                    let* b := gets (fun s => calculateVerificationHash
                                               (trackerdb.onlineRoundParams (db s))) in
                    ret (a, b))
             else ret (0, 0)) s2 = (s3, r3) ->
            node_kept s s3
            /\ match r3 with
               | Ok _ => True
               | Err e => is_failure e /\ EnableCatchpointsWithOnlineAccounts params = true
               end).
  1,3: intros s2 s3 r3 Hk2 H3; destruct (EnableCatchpointsWithOnlineAccounts params);
         [|apply ret_inv in H3 as [-> ->]; done];
         apply online_hashes_node_kept in H3 as [Hk He];
         split; [by eapply node_kept_trans | by destruct r3].
  all: apply bind_inv in H as [(e & H & ->)|(s2 & [spData spHash] & Hsp2 & H)].
  1,3: apply Hsp in H as [Hk [He Hflag]].
  3,4: apply Hsp in Hsp2 as [Hk2 _];
       apply bind_inv in H as [(e & H & ->)|(s3 & [onlineHash paramsHash] & Ho & H)].
  3,5: apply (Honline _ _ _ Hk2) in H as [Hk [He Hflag]].
  5,6: apply (Honline _ _ _ Hk2) in Ho as [Hk3 _]; apply bind_Ok_inv' in H as [_ H];
       pose proof Hk3 as (Ht3 & _); rewrite Ht3 in H.
  - intros _. by destruct Hk as (-> & _).
  - intros _. right. split_and!; [done | by eexists | by left].
  - intros _. by destruct Hk as (-> & _).
  - intros _. right. split_and!; [done | by eexists | by right].
  - intros Hgen. rewrite Hgen in H.
    rewrite (bind_Ok _ _ s3 s3 (0, 0, 0, 0, 0, 0)) in H by done.
    rewrite <- Ht3. change (sentinel_kept s3 s').
    eapply (Transaction_frame sentinel_kept); [exact sentinel_kept_trans | | | exact H].
    { intros x y Hxy. unfold sentinel_kept. by rewrite Hxy. }
    intros s4 r4 H4.
    eapply (bind_frame sentinel_kept); [exact sentinel_kept_trans | | | exact H4]; cbv beta.
    { intros s5 r5 H5. by apply external_node_kept, node_kept_sentinel_kept in H5. }
    intros [] s5 s6 r6 H6.
    eapply (bind_frame sentinel_kept); [exact sentinel_kept_trans | | | exact H6]; cbv beta.
    { intros s7 r7. apply recordFirstStageInfo_sentinel. }
    intros [] s7 s8 r8 H8. unfold catchpointStore.WriteCatchpointStateUint64 in H8.
    apply external_modify_inv in H8 as [(s9 & (Ht & _) & -> & _)|[(Ht & _) _]];
      unfold sentinel_kept; cbn; by rewrite Ht.
  - intros Hgen. left. rewrite Hgen in H.
    apply bind_inv in H as [(e & H & _)|(s4 & totals & Hg & H)].
    + (* the generation: the sentinel is cleared before the error is looked at *)
      apply bind_inv in H as [(e' & H & _)|(s5 & generated & Hgd & H)].
      { apply try_Err_inv in H as [H Hp].
        (* the writer does not panic *)
        exfalso. revert H Hp. unfold generateCatchpointData, logf.
        unfold bind at 1. unfold modify at 1. cbv beta iota.
        unfold bind at 1. unfold get at 1. cbv beta iota.
        unfold bind at 1. unfold try at 1.
        destruct (external "catchpointFileWriter" _) as [sx [[]|ex]] eqn:Hext.
        - cbv beta iota. destruct (writerTotals _) as [[[? ?] ?] ?].
          unfold bind, modify, ret. intros [= _ <-].
        - apply external_Err_inv in Hext as ->. cbn [is_panic].
          unfold bind, modify, fail. intros [= _ <-]. discriminate. }
      apply bind_inv in H as [(e' & H & _)|(s6 & [] & Hm & H)];
        [apply modify_inv in H as [_ Hr]; discriminate Hr|].
      apply modify_inv in Hm as [-> _].
      destruct generated; [apply ret_inv in H as [-> _] | apply fail_inv in H as [-> _]];
        done.
    + apply bind_inv in Hg as [(e' & _ & Hr)|(s5 & generated & Hgd & Hg)];
        [discriminate Hr|].
      apply bind_inv in Hg as [(e' & _ & Hr)|(s6 & [] & Hm & Hg)]; [discriminate Hr|].
      apply modify_inv in Hm as [-> _].
      assert (catchpointDataWriting (tracker s4) = 0) as Hzero.
      { destruct generated; [apply ret_inv in Hg as [-> _] | apply fail_inv in Hg as [-> _]];
          done. }
      rewrite <- Hzero. change (sentinel_kept s4 s').
      destruct totals as [[[[[a b] c] d] n] big].
      eapply (Transaction_frame sentinel_kept); [exact sentinel_kept_trans | | | exact H].
      { intros x y Hxy. unfold sentinel_kept. by rewrite Hxy. }
      intros s7 r7 H7.
      eapply (bind_frame sentinel_kept); [exact sentinel_kept_trans | | | exact H7]; cbv beta.
      { intros s8 r8 H8. by apply external_node_kept, node_kept_sentinel_kept in H8. }
      intros [] s8 s9 r9 H9.
      eapply (bind_frame sentinel_kept); [exact sentinel_kept_trans | | | exact H9]; cbv beta.
      { intros s10 r10. apply recordFirstStageInfo_sentinel. }
      intros [] s10 s11 r11 H11. unfold catchpointStore.WriteCatchpointStateUint64 in H11.
      apply external_modify_inv in H11 as [(s12 & (Ht & _) & -> & _)|[(Ht & _) _]];
        unfold sentinel_kept; cbn; by rewrite Ht.
Qed.

End StageOneSentinel.

Lemma finishFirstStage_writing_sentinel_witness :
  exists s',
    finishFirstStage Example.Consensus Example.RootHashOf Example.EncodeAndHash
      Example.calculateVerificationHash Example.writerChunks Example.writerTotals
      80 "v7"
      (set_faults [true] (set_tracker (set_catchpointDataWriting (-1)) Example.sys))
    = (s', Err (ErrFault "Snapshot"))
    /\ catchpointDataWriting (tracker s') = -1.
Proof.
  set (s0 := set_faults [true] (set_tracker (set_catchpointDataWriting (-1)) Example.sys)).
  set (run := finishFirstStage Example.Consensus Example.RootHashOf Example.EncodeAndHash
                Example.calculateVerificationHash Example.writerChunks Example.writerTotals
                80 "v7" s0).
  assert (Hrun : run = (run.1, run.2)) by (by destruct run).
  destruct (finishFirstStage_writing_sentinel
              Example.Consensus Example.RootHashOf Example.EncodeAndHash
              Example.calculateVerificationHash Example.writerChunks Example.writerTotals
              80 "v7" s0 _ _ Hrun)
    as (_ & _ & Hfault).
  destruct (Hfault eq_refl [] eq_refl) as [Hr Ht].
  exists run.1. split.
  - by rewrite <- Hr.
  - by rewrite Ht.
Defined.

(** ** Blocks come in, commits take them out *)

Section BlocksFacts.

Variable Consensus : string -> ConsensusParams.
Variable CatchpointLookback : string -> Z.
Variable MaxBalLookback : string -> Z.

Let newBlock' := newBlock Consensus CatchpointLookback MaxBalLookback.

(** The lookback that [newBlock] adds to the round of a block. *)
Let lookback_of (proto : string) : Z :=
  if CatchpointLookback proto =? 0 then MaxBalLookback proto else CatchpointLookback proto.

Lemma newBlock_step blk s :
  exists s',
    newBlock' blk s = (s', Ok tt)
    /\ db s' = db s /\ files s' = files s /\ logs s' = logs s
    /\ trieCalls s' = trieCalls s /\ sys_faults s' = sys_faults s
    /\ telemetryEnabled s' = telemetryEnabled s
    /\ tracker s'
       = set_reenableCatchpointsRound (reenableCatchpointsRound (tracker s'))
           (set_consensusVersion (consensusVersion (tracker s) ++ [blk_CurrentProtocol blk])
              (set_roundDigest (roundDigest (tracker s) ++ [blk_Digest blk]) (tracker s)))
    /\ (reenableCatchpointsRound (tracker s) <> 0 ->
        reenableCatchpointsRound (tracker s') = reenableCatchpointsRound (tracker s))
    /\ (reenableCatchpointsRound (tracker s) = 0 ->
        reenableCatchpointsRound (tracker s')
        = if EnableCatchpointsWithSPContexts (Consensus (blk_CurrentProtocol blk))
             || forceCatchpointFileWriting (tracker s)
          then Go.u64_add (blk_Round blk) (lookback_of (blk_CurrentProtocol blk))
          else 0).
Proof.
  eexists. split; [reflexivity|]. cbn.
  destruct (EnableCatchpointsWithSPContexts _), (forceCatchpointFileWriting (tracker s)),
    (Z.eqb_spec (reenableCatchpointsRound (tracker s)) 0) as [Hz|Hnz];
    cbn; split_and!; try done; try (intros _; by rewrite ?Hz).
Qed.

(** A run of [newBlock] over blocks appends their digests and their
    protocol versions, in order, to the two slices of the tracker, which so
    stay of one length if they were.  The round at which catchpoints are
    re-enabled is set at most once: a non-zero value is never changed, and a
    zero one becomes the round of a block plus the lookback of its protocol
    (the catchpoint lookback, or the balances lookback when that is 0), for a
    block whose protocol has state-proof contexts enabled or on a tracker
    that is forced to write; without such a block it stays 0.  Nothing else
    changes. *)
Theorem newBlock_blocks :
  forall (blks : list Block) (s : Sys),
    exists s',
      for_each blks newBlock' s = (s', Ok tt)
      /\ roundDigest (tracker s') = roundDigest (tracker s) ++ (blk_Digest <$> blks)
      /\ consensusVersion (tracker s')
         = consensusVersion (tracker s) ++ (blk_CurrentProtocol <$> blks)
      /\ (reenableCatchpointsRound (tracker s) <> 0 ->
          reenableCatchpointsRound (tracker s') = reenableCatchpointsRound (tracker s))
      /\ (reenableCatchpointsRound (tracker s) = 0 ->
          reenableCatchpointsRound (tracker s') <> 0 ->
          exists blk, blk ∈ blks
            /\ (EnableCatchpointsWithSPContexts (Consensus (blk_CurrentProtocol blk)) = true
                \/ forceCatchpointFileWriting (tracker s) = true)
            /\ reenableCatchpointsRound (tracker s')
               = Go.u64_add (blk_Round blk) (lookback_of (blk_CurrentProtocol blk)))
      /\ (forceCatchpointFileWriting (tracker s) = false ->
          Forall (fun blk => EnableCatchpointsWithSPContexts
                               (Consensus (blk_CurrentProtocol blk)) = false) blks ->
          reenableCatchpointsRound (tracker s') = reenableCatchpointsRound (tracker s))
      /\ tracker s'
         = set_reenableCatchpointsRound (reenableCatchpointsRound (tracker s'))
             (set_consensusVersion (consensusVersion (tracker s'))
                (set_roundDigest (roundDigest (tracker s')) (tracker s)))
      /\ db s' = db s /\ files s' = files s /\ logs s' = logs s
      /\ sys_faults s' = sys_faults s.
Proof.
  induction blks as [|blk blks IH]; intros s.
  - exists s. cbn. rewrite !app_nil_r.
    split_and!; try done; try (by destruct (tracker s)).
  - destruct (newBlock_step blk s)
      as (s1 & Hstep & Hd1 & Hf1 & Hl1 & _ & Hfaults1 & _ & Ht1 & Hset1 & Hzero1).
    destruct (IH s1) as (s' & Hrun & Hrd & Hcv & Hset & Hzero & Hnone & Ht & Hd & Hf & Hl
                         & Hfaults).
    assert (Hforce : forceCatchpointFileWriting (tracker s1)
                     = forceCatchpointFileWriting (tracker s)) by (by rewrite Ht1).
    assert (Hrd1 : roundDigest (tracker s1) = roundDigest (tracker s) ++ [blk_Digest blk])
      by (by rewrite Ht1).
    assert (Hcv1 : consensusVersion (tracker s1)
                   = consensusVersion (tracker s) ++ [blk_CurrentProtocol blk])
      by (by rewrite Ht1).
    exists s'. cbn [for_each]. rewrite (bind_Ok _ _ _ _ _ Hstep).
    split; [exact Hrun|]. split_and!.
    + rewrite Hrd, Hrd1, fmap_cons, <- app_assoc. done.
    + rewrite Hcv, Hcv1, fmap_cons, <- app_assoc. done.
    + intros Hne. rewrite Hset; [by apply Hset1|]. by rewrite Hset1.
    + intros Hz Hne. specialize (Hzero1 Hz).
      destruct (Z.eq_dec (reenableCatchpointsRound (tracker s1)) 0) as [Hz1|Hnz1].
      * destruct (Hzero Hz1 Hne) as (b & Hb & Hen & Heq).
        exists b. split; [by apply list_elem_of_further|]. by rewrite <- Hforce.
      * exists blk. split; [apply list_elem_of_here|].
        rewrite (Hset Hnz1).
        destruct (EnableCatchpointsWithSPContexts _) eqn:Hsp,
                 (forceCatchpointFileWriting (tracker s)) eqn:Hfw;
          cbn in Hzero1; try (by rewrite Hzero1 in Hnz1); split; auto.
    + intros Hfw Hall. apply Forall_cons in Hall as [Hblk Hall].
      rewrite (Hnone ltac:(congruence) Hall).
      destruct (Z.eq_dec (reenableCatchpointsRound (tracker s)) 0) as [Hz|Hnz];
        [|by apply Hset1].
      rewrite (Hzero1 Hz), Hblk, Hfw, Hz. done.
    + rewrite Ht at 1. rewrite Ht1. done.
    + congruence.
    + congruence.
    + congruence.
    + congruence.
Qed.

End BlocksFacts.

(** [prepareCommit] on a range within the blocks that the tracker holds. *)
Lemma prepareCommit_runs dcc s :
  0 <= DCR.offset (dcc_range dcc) <= len (roundDigest (tracker s)) ->
  DCR.offset (dcc_range dcc) <= len (consensusVersion (tracker s)) ->
  prepareCommit dcc s
  = (if enableGeneratingCatchpointFiles (tracker s)
        && DCR.catchpointFirstStage (dcc_range dcc)
     then set_tracker (set_catchpointDataWriting (-1)) s else s,
     Ok {| dcc_range := dcc_range dcc;
           committedRoundDigests :=
             take (Z.to_nat (DCR.offset (dcc_range dcc))) (roundDigest (tracker s));
           committedProtocolVersion :=
             take (Z.to_nat (DCR.offset (dcc_range dcc))) (consensusVersion (tracker s)) |}).
Proof.
  intros Hrd Hcv. unfold prepareCommit, copy_prefix.
  rewrite (bind_Ok _ _ s s s) by done.
  destruct (Z.leb_spec (DCR.offset (dcc_range dcc)) (len (roundDigest (tracker s))));
    [|lia].
  destruct (Z.leb_spec (DCR.offset (dcc_range dcc)) (len (consensusVersion (tracker s))));
    [|lia].
  by destruct (enableGeneratingCatchpointFiles (tracker s)
               && DCR.catchpointFirstStage (dcc_range dcc)).
Qed.

(** [postCommit] changes the two slices and the cached round, and may log
    that the eviction failed. *)
Lemma postCommit_inv dcc s s' r :
  postCommit dcc s = (s', r) ->
  let offset := DCR.offset (dcc_range dcc) in
  db s' = db s /\ files s' = files s /\ trieCalls s' = trieCalls s
  /\ ((offset <= len (roundDigest (tracker s))
       /\ offset <= len (consensusVersion (tracker s))
       /\ r = Ok tt
       /\ tracker s'
          = set_cachedDBRound (newBase (dcc_range dcc))
              (set_consensusVersion (drop (Z.to_nat offset) (consensusVersion (tracker s)))
                 (set_roundDigest (drop (Z.to_nat offset) (roundDigest (tracker s)))
                    (tracker s))))
      \/ ((len (roundDigest (tracker s)) < offset
           \/ len (consensusVersion (tracker s)) < offset)
          /\ r = Err (Panicked "slice bounds out of range"))).
Proof.
  intros H offset. unfold postCommit in H.
  apply bind_Ok_inv' in H as [_ H].
  assert (Hevict : forall s1 r1,
            match balancesTrie (tracker s) with
            | Some _ =>
                let* evicted := try (external "Trie.Evict") in
                match evicted with
                | Err _ => logf LogWarn "merkle trie failed to evict: %v" []
                | Ok _ => ret tt
                end
            | None => ret tt
            end s = (s1, r1) ->
            r1 = Ok tt /\ tracker s1 = tracker s /\ db s1 = db s /\ files s1 = files s
            /\ trieCalls s1 = trieCalls s).
  { intros s1 r1 H1. destruct (balancesTrie (tracker s));
      [|apply ret_inv in H1 as [-> ->]; done].
    apply bind_inv in H1 as [(e & H1 & _)|(s2 & evicted & He & H1)].
    { apply try_Err_inv in H1 as [H1 Hp]. apply external_Err_inv in H1 as ->.
      discriminate Hp. }
    apply try_Ok_inv in He as [He _].
    apply external_same in He as (Ht & Hd & Hf & _ & Hc & _).
    destruct evicted.
    - apply ret_inv in H1 as [-> ->]. done.
    - apply modify_inv in H1 as [-> ->]. done. }
  apply bind_inv in H as [(e & H & _)|(s1 & [] & He & H)];
    [apply Hevict in H as [Hr _]; discriminate Hr|].
  apply Hevict in He as (_ & Ht1 & Hd1 & Hf1 & Hc1). clear Hevict.
  apply bind_Ok_inv' in H as [_ H]. rewrite Ht1 in H. fold offset in H.
  unfold drop_prefix in H.
  destruct (Z.leb_spec offset (len (roundDigest (tracker s)))) as [Hrd|Hrd].
  2:{ apply bind_inv in H as [(e & H & ->)|(s2 & a & H2 & _)];
        [|apply fail_inv in H2 as [_ Hr]; discriminate Hr].
      apply fail_inv in H as [-> [= <-]]. split_and!; try done. right. split; [by left|done]. }
  rewrite (bind_Ok _ _ s1 s1 (drop (Z.to_nat offset) (roundDigest (tracker s)))) in H by done.
  rewrite (bind_Ok _ _ s1 _ tt) in H by done.
  destruct (Z.leb_spec offset (len (consensusVersion (tracker s)))) as [Hcv|Hcv].
  2:{ apply bind_inv in H as [(e & H & ->)|(s2 & a & H2 & _)];
        [|apply fail_inv in H2 as [_ Hr]; discriminate Hr].
      apply fail_inv in H as [-> [= <-]]. cbn. split_and!; try done.
      right. split; [by right|done]. }
  rewrite (bind_Ok _ _ _ _ (drop (Z.to_nat offset) (consensusVersion (tracker s)))) in H
    by done.
  rewrite (bind_Ok _ _ _ _ tt) in H by done.
  apply modify_inv in H as [-> ->]. cbn. rewrite Ht1. split_and!; try done.
  left. done.
Qed.

(** What [prepareCommit] copies for a commit is what [postCommit] takes
    off.  On a range of [offset] rounds within the blocks that the tracker
    holds, [prepareCommit] leaves in the context the digests and the versions
    of the first [offset] blocks, and raises the sentinel
    [catchpointDataWriting] to -1 exactly on a first-stage commit of a
    tracker that generates files.  A [postCommit] that follows, with blocks
    that may have come in meanwhile, returns; it leaves the tracker the
    blocks past the first [offset], the new ones included, so that the
    copied digests followed by the remaining ones are the digests held
    before; and it sets the cached round to the new base.  When fewer than
    [offset] blocks are held, [postCommit] panics. *)
Theorem commit_takes_what_it_copied :
  forall (dcc : deferredCommitContext) (s : Sys),
    let offset := DCR.offset (dcc_range dcc) in
    0 <= offset <= len (roundDigest (tracker s)) ->
    offset <= len (consensusVersion (tracker s)) ->
    exists s1 dcc1,
      prepareCommit dcc s = (s1, Ok dcc1)
      /\ dcc_range dcc1 = dcc_range dcc
      /\ len (committedRoundDigests dcc1) = offset
      /\ len (committedProtocolVersion dcc1) = offset
      /\ tracker s1
         = (if enableGeneratingCatchpointFiles (tracker s)
               && DCR.catchpointFirstStage (dcc_range dcc)
            then set_catchpointDataWriting (-1) (tracker s) else tracker s)
      /\ db s1 = db s /\ files s1 = files s /\ logs s1 = logs s
      /\ (forall (s2 s3 : Sys) r (digests : list Digest) (versions : list string),
            roundDigest (tracker s2) = roundDigest (tracker s) ++ digests ->
            consensusVersion (tracker s2) = consensusVersion (tracker s) ++ versions ->
            postCommit dcc1 s2 = (s3, r) ->
            r = Ok tt
            /\ committedRoundDigests dcc1 ++ roundDigest (tracker s3)
               = roundDigest (tracker s2)
            /\ committedProtocolVersion dcc1 ++ consensusVersion (tracker s3)
               = consensusVersion (tracker s2)
            /\ roundDigest (tracker s3)
               = drop (Z.to_nat offset) (roundDigest (tracker s)) ++ digests
            /\ consensusVersion (tracker s3)
               = drop (Z.to_nat offset) (consensusVersion (tracker s)) ++ versions
            /\ cachedDBRound (tracker s3) = newBase (dcc_range dcc)
            /\ catchpointDataWriting (tracker s3) = catchpointDataWriting (tracker s2)
            /\ db s3 = db s2 /\ files s3 = files s2)
      /\ (forall (s2 s3 : Sys) r,
            len (roundDigest (tracker s2)) < offset ->
            postCommit dcc1 s2 = (s3, r) ->
            r = Err (Panicked "slice bounds out of range")).
Proof.
  intros dcc s offset Hrd Hcv.
  eexists _, _. split; [by apply prepareCommit_runs|].
  cbn [dcc_range committedRoundDigests committedProtocolVersion]. fold offset.
  split_and!; try done.
  - rewrite len_take. lia.
  - rewrite len_take. pose proof (len_nonneg (consensusVersion (tracker s))). lia.
  - by destruct (_ && _).
  - by destruct (_ && _).
  - by destruct (_ && _).
  - by destruct (_ && _).
  - intros s2 s3 r digests versions Hrd2 Hcv2 H.
    apply postCommit_inv in H as (Hd & Hf & _ & H).
    cbn [dcc_range] in H. fold offset in H.
    assert (Z.to_nat offset <= length (roundDigest (tracker s)))%nat as Hn1
      by (unfold len in Hrd; lia).
    assert (Z.to_nat offset <= length (consensusVersion (tracker s)))%nat as Hn2
      by (unfold len in Hcv; lia).
    destruct H as [(_ & _ & -> & ->)|([Hlt|Hlt] & _)].
    + cbn. rewrite Hrd2, Hcv2. rewrite !drop_app_le by done.
      rewrite !app_assoc, !take_drop. done.
    + rewrite Hrd2, len_app in Hlt. pose proof (len_nonneg digests). lia.
    + rewrite Hcv2, len_app in Hlt. pose proof (len_nonneg versions). lia.
  - intros s2 s3 r Hlt H. apply postCommit_inv in H as (_ & _ & _ & H).
    cbn [dcc_range] in H. fold offset in H.
    destruct H as [(Hle & _)|(_ & ->)]; [lia | done].
Qed.

Lemma commit_takes_what_it_copied_witness :
  exists s1 dcc1,
    prepareCommit {| dcc_range := Example.dcr; committedRoundDigests := [];
                     committedProtocolVersion := [] |}
      (set_tracker (fun ct => set_consensusVersion (replicate 500%nat "v7")
                                (set_roundDigest (replicate 500%nat 7) ct)) Example.sys)
    = (s1, Ok dcc1)
    /\ len (committedRoundDigests dcc1) = 500.
Proof.
  destruct (commit_takes_what_it_copied
              {| dcc_range := Example.dcr; committedRoundDigests := [];
                 committedProtocolVersion := [] |}
              (set_tracker (fun ct => set_consensusVersion (replicate 500%nat "v7")
                                        (set_roundDigest (replicate 500%nat 7) ct)) Example.sys))
    as (s1 & dcc1 & Hrun & _ & Hlen & _).
  { split; by vm_compute. }
  { by vm_compute. }
  by exists s1, dcc1.
Defined.

(** ** A commit that is called off *)

Lemma set_catchpointDataWriting_back (s : Sys) :
  catchpointDataWriting (tracker s) = 0 ->
  set_tracker (set_catchpointDataWriting 0)
    (set_tracker (set_catchpointDataWriting (-1)) s) = s.
Proof. destruct s as [[] ? ? ? ? ? ?]. cbn. by intros ->. Qed.

(** Calling a prepared commit off gives the sentinel back.  On a tracker
    that is not writing a data file, [prepareCommit] followed by
    [handleUnorderedCommit] or by [handlePrepareCommitError], for the same
    context, leaves the state as it was before the two; followed by
    [handleCommitError] it leaves that state without the trie.  So none of
    them leaves the tracker writing.  [clearCommitRoundRetry], between two
    tries, drops the trie, logs a line and leaves the sentinel as
    [prepareCommit] set it. *)
Theorem called_off_commit_gives_sentinel_back :
  forall (dcc : deferredCommitContext) (s : Sys),
    catchpointDataWriting (tracker s) = 0 ->
    0 <= DCR.offset (dcc_range dcc) <= len (roundDigest (tracker s)) ->
    DCR.offset (dcc_range dcc) <= len (consensusVersion (tracker s)) ->
    exists s1 dcc1,
      prepareCommit dcc s = (s1, Ok dcc1)
      /\ handleUnorderedCommit dcc1 s1 = (s, Ok tt)
      /\ handlePrepareCommitError dcc1 s1 = (s, Ok tt)
      /\ handleCommitError dcc1 s1 = (set_tracker (set_balancesTrie None) s, Ok tt)
      /\ isWritingCatchpointDataFile (tracker s) = false
      /\ (exists s2,
            clearCommitRoundRetry dcc1 s1 = (s2, Ok tt)
            /\ balancesTrie (tracker s2) = None
            /\ catchpointDataWriting (tracker s2) = catchpointDataWriting (tracker s1)
            /\ isWritingCatchpointDataFile (tracker s2)
               = enableGeneratingCatchpointFiles (tracker s)
                 && DCR.catchpointFirstStage (dcc_range dcc)).
Proof.
  intros dcc s Hidle Hrd Hcv.
  eexists _, _. split; [by apply prepareCommit_runs|].
  unfold handleUnorderedCommit, handlePrepareCommitError, handleCommitError, cancelWrite,
    clearCommitRoundRetry, isWritingCatchpointDataFile.
  cbn [dcc_range]. rewrite Hidle.
  destruct (enableGeneratingCatchpointFiles (tracker s)) eqn:Hgen,
           (DCR.catchpointFirstStage (dcc_range dcc)) eqn:Hfirst;
    cbn [andb]; unfold bind, get, modify, ret, logf; cbn; rewrite ?Hgen.
  all: split_and!; try done.
  all: try (by rewrite set_catchpointDataWriting_back).
  all: try (f_equal; destruct s as [[] ? ? ? ? ? ?]; cbn in *; by subst).
  all: eexists; split; [reflexivity|]; cbn; rewrite ?Hidle; done.
Qed.

Lemma called_off_commit_gives_sentinel_back_witness :
  exists s1 dcc1,
    prepareCommit {| dcc_range := Example.dcr; committedRoundDigests := [];
                     committedProtocolVersion := [] |}
      (set_tracker (fun ct => set_consensusVersion (replicate 500%nat "v7")
                                (set_roundDigest (replicate 500%nat 7) ct)) Example.sys)
    = (s1, Ok dcc1)
    /\ handleUnorderedCommit dcc1 s1
       = (set_tracker (fun ct => set_consensusVersion (replicate 500%nat "v7")
                                   (set_roundDigest (replicate 500%nat 7) ct)) Example.sys,
          Ok tt).
Proof.
  destruct (called_off_commit_gives_sentinel_back
              {| dcc_range := Example.dcr; committedRoundDigests := [];
                 committedProtocolVersion := [] |}
              (set_tracker (fun ct => set_consensusVersion (replicate 500%nat "v7")
                                        (set_roundDigest (replicate 500%nat 7) ct))
                           Example.sys))
    as (s1 & dcc1 & Hrun & Hcancel & _).
  { reflexivity. }
  { split; by vm_compute. }
  { by vm_compute. }
  by exists s1, dcc1.
Defined.

(** ** Pruning the first-stage records *)

Lemma lookup_remove_files paths fs path :
  remove_files paths fs !! path = if decide (path ∈ paths) then None else fs !! path.
Proof.
  revert fs. induction paths as [|p paths IH]; intros fs.
  - destruct (decide (path ∈ [])) as [Hin|_]; [by apply elem_of_nil in Hin|done].
  - change (remove_files (p :: paths) fs) with (remove_files paths (delete p fs)).
    rewrite IH. destruct (decide (path ∈ paths)) as [Hin|Hnin].
    + rewrite decide_True; [done|]. by apply list_elem_of_further.
    + destruct (decide (path = p)) as [->|Hne].
      * rewrite decide_True by apply list_elem_of_here. apply lookup_delete_eq.
      * rewrite decide_False; [by apply lookup_delete_ne|].
        intros Hin. apply elem_of_cons in Hin as [?|?]; done.
Qed.

(** Removing files one by one: all of them are gone when the loop ends, and
    a failure of a removal ends it. *)
Lemma remove_each_inv {A} dir (rel : A -> string) (xs : list A) :
  forall s s' r,
    for_each xs (fun x => RemoveSingleCatchpointFileFromDisk dir (rel x)) s = (s', r) ->
    tracker s' = tracker s /\ db s' = db s /\ logs s' = logs s
    /\ trieCalls s' = trieCalls s
    /\ files_only_removed s s'
    /\ match r with
       | Ok _ => files s' = remove_files ((fun x => filepath_Join dir (rel x)) <$> xs) (files s)
       | Err e => e = ErrFault "os.Remove"
       end.
Proof.
  induction xs as [|x xs IH]; intros s s' r H; cbn in H.
  - apply ret_inv in H as [-> ->]. unfold files_only_removed. done.
  - apply bind_inv in H as [(e & H & ->)|(s1 & [] & H1 & H)].
    + unfold RemoveSingleCatchpointFileFromDisk in H.
      apply external_modify_inv in H as [(s1 & _ & _ & Hr)|[Hsame [= ->]]];
        [discriminate Hr|].
      destruct Hsame as (Ht & Hd & Hf & Hl & Hc & _).
      unfold files_only_removed. rewrite Hf. done.
    + unfold RemoveSingleCatchpointFileFromDisk in H1.
      apply external_modify_inv in H1 as [(s2 & Hsame & -> & _)|[_ Hr]]; [|discriminate Hr].
      destruct Hsame as (Ht & Hd & Hf & Hl & Hc & _).
      apply IH in H as (Ht' & Hd' & Hl' & Hc' & Hf' & Hr'). cbn in *.
      rewrite Ht', Hd', Hl', Hc', Ht, Hd, Hl, Hc. split_and!; try done.
      * intros path f Hp. apply Hf' in Hp. cbn in Hp.
        apply lookup_delete_Some in Hp as [_ Hp]. by rewrite Hf in Hp.
      * destruct r; [|done]. by rewrite Hr', Hf.
Qed.

(** [pruneFirstStageRecordsData] on the maximal round [maxRoundToDelete].
    It never touches the tracker or another table, and it adds or changes no
    file.  When it returns nil, the first-stage records left are those of
    the rounds above [maxRoundToDelete], unchanged; the data file of every
    round that had a record up to [maxRoundToDelete] is gone; every other
    file is as it was.  When it returns an error, which is the failure of a
    call to the database or of a removal, no record has been deleted.  It
    returns nil whenever no such call fails. *)
Theorem pruneFirstStageRecordsData_correct :
  forall (maxRoundToDelete : Z) (s s' : Sys) r,
    pruneFirstStageRecordsData maxRoundToDelete s = (s', r) ->
    let pruned round :=
      round <= maxRoundToDelete /\ is_Some (trackerdb.firstStageInfo (db s) !! round) in
    tracker s' = tracker s
    /\ (exists m, db s' = trackerdb.set_firstStageInfo (fun _ => m) (db s))
    /\ files_only_removed s s'
    /\ (sys_faults s = [] -> r = Ok tt)
    /\ match r with
       | Ok _ =>
           (forall round info,
              trackerdb.firstStageInfo (db s') !! round = Some info
              <-> maxRoundToDelete < round
                  /\ trackerdb.firstStageInfo (db s) !! round = Some info)
           /\ (forall round, pruned round ->
                 files s' !! stale_data_file (tracker s) round = None)
           /\ (forall path,
                 (forall round, pruned round -> path <> stale_data_file (tracker s) round) ->
                 files s' !! path = files s !! path)
       | Err e =>
           trackerdb.firstStageInfo (db s') = trackerdb.firstStageInfo (db s)
           /\ is_failure e
       end.
Proof.
  intros maxRoundToDelete s s' r H pruned.
  assert (Hid : exists m, db s = trackerdb.set_firstStageInfo (fun _ => m) (db s)).
  { exists (trackerdb.firstStageInfo (db s)). by destruct (db s). }
  unfold pruneFirstStageRecordsData in H.
  unfold catchpointStore.SelectOldCatchpointFirstStageInfoRounds in H.
  apply bind_inv in H as [(e & H & ->)|(s1 & rounds & Hsel & H)].
  { apply bind_Err_inv in H as [H|(s1 & [] & _ & H)];
      [|apply gets_inv in H as [_ Hr]; discriminate Hr].
    pose proof (external_same _ _ _ _ H) as (Ht & Hd & Hf & _).
    assert (Hnf : sys_faults s <> []).
    { intros Hnf. rewrite external_no_faults in H by exact Hnf. discriminate H. }
    apply external_Err_inv in H as ->.
    unfold files_only_removed. rewrite Ht, Hd, Hf. split_and!; done. }
  apply bind_Ok_inv in Hsel as (s0 & [] & Hext0 & Hsel).
  apply gets_inv in Hsel as [-> [= ->]].
  assert (Hfaults0 : sys_faults s = [] -> sys_faults s0 = []).
  { intros Hnf. unfold external in Hext0. cbn in Hext0. rewrite Hnf in Hext0.
    by injection Hext0 as <-. }
  apply external_same in Hext0 as (Ht0 & Hd0 & Hf0 & Hl0 & Hc0 & _).
  rewrite Hd0 in H.
  set (rounds := merge_sort Z.le _) in H.
  assert (Hrounds : forall round, round ∈ rounds <-> pruned round).
  { intros round. subst rounds pruned. cbv beta.
    rewrite merge_sort_Permutation, list_elem_of_filter, list_elem_of_fmap.
    split.
    - intros (Hle & [k info] & -> & Hin). apply elem_of_map_to_list in Hin.
      split; [done | by eexists].
    - intros (Hle & info & Hinfo). split; [done|]. exists (round, info).
      split; [done | by apply elem_of_map_to_list]. }
  clearbody rounds.
  apply bind_Ok_inv' in H as [_ H]. rewrite Ht0 in H.
  apply bind_inv in H as [(e & H & ->)|(s2 & [] & Hloop & H)].
  { pose proof (remove_each_inv _ _ _ _ _ _ H) as (Ht & Hd & _ & _ & Hrm & ->).
    rewrite Ht, Hd, Ht0, Hd0. split_and!; try done.
    - intros path f Hp. apply Hrm in Hp. by rewrite Hf0 in Hp.
    - intros Hnf. apply Hfaults0 in Hnf. clear -Hnf H. exfalso. revert s0 s' Hnf H.
      induction rounds as [|x xs IH]; intros s0 s' Hnf H; cbn in H; [discriminate H|].
      unfold RemoveSingleCatchpointFileFromDisk in H at 1.
      rewrite (bind_Ok (external _;; modify _) _ s0 _ tt) in H
        by (rewrite (bind_Ok _ _ s0 s0 tt) by (by apply external_no_faults); reflexivity).
      eapply IH; [|exact H]. done. }
  assert (Hfaults2 : sys_faults s0 = [] -> sys_faults s2 = []).
  { clear -Hloop. revert s0 s2 Hloop.
    induction rounds as [|x xs IH]; intros s0 s2 H Hnf; cbn in H.
    - by apply ret_inv in H as [-> _].
    - unfold RemoveSingleCatchpointFileFromDisk in H at 1.
      rewrite (bind_Ok (external _;; modify _) _ s0 _ tt) in H
        by (rewrite (bind_Ok _ _ s0 s0 tt) by (by apply external_no_faults); reflexivity).
      eapply IH; [exact H|done]. }
  apply remove_each_inv in Hloop as (Ht2 & Hd2 & _ & _ & Hrm2 & Hfiles2).
  unfold catchpointStore.DeleteOldCatchpointFirstStageInfo in H.
  pose proof H as Hdel.
  apply external_modify_inv in H as [(s3 & (Ht3 & Hd3 & Hf3 & _) & -> & ->)|[Hsame ->]].
  - cbn. rewrite Ht3, Hd3, Hf3, Ht2, Hd2, Ht0, Hd0. split_and!; try done.
    + by eexists.
    + intros path f Hp. cbn in Hp. rewrite Hf3 in Hp. apply Hrm2 in Hp.
      by rewrite Hf0 in Hp.
    + intros round info. cbn. rewrite map_lookup_filter_Some. cbn. tauto.
    + intros round Hround. rewrite Hfiles2, lookup_remove_files.
      rewrite decide_True; [done|]. apply list_elem_of_fmap. exists round.
      split; [done | by apply Hrounds].
    + intros path Hpath. rewrite Hfiles2, lookup_remove_files, Hf0.
      rewrite decide_False; [done|]. intros Hin. apply list_elem_of_fmap in Hin
        as (round & -> & Hin). apply Hrounds in Hin. by eapply Hpath.
  - destruct Hsame as (Ht3 & Hd3 & Hf3 & _).
    rewrite Ht3, Hd3, Ht2, Hd2, Ht0, Hd0. split_and!; try done.
    + intros path f Hp. rewrite Hf3 in Hp. apply Hrm2 in Hp. by rewrite Hf0 in Hp.
    + intros Hnf. apply Hfaults0, Hfaults2 in Hnf.
      rewrite (bind_Ok _ _ s2 s2 tt) in Hdel by (by apply external_no_faults).
      discriminate Hdel.
Qed.

Lemma pruneFirstStageRecordsData_correct_witness :
  exists s',
    pruneFirstStageRecordsData 80 Example.sys400 = (s', Ok tt)
    /\ trackerdb.firstStageInfo (db s') !! 80 = None
    /\ files s' !! "hot/catchpoints/80.data" = None.
Proof.
  set (run := pruneFirstStageRecordsData 80 Example.sys400).
  assert (Hrun : run = (run.1, Ok tt)) by (vm_compute; reflexivity).
  destruct (pruneFirstStageRecordsData_correct 80 Example.sys400 _ _ Hrun)
    as (_ & _ & _ & _ & Hrecords & Hfiles & _).
  exists run.1. split; [exact Hrun|]. split.
  - destruct (trackerdb.firstStageInfo (db run.1) !! 80) as [info|] eqn:Hinfo; [|done].
    apply Hrecords in Hinfo as [Hlt _]. lia.
  - apply (Hfiles 80). split; [lia|]. by eexists.
Defined.
